(** * aws-k8s-tester: EC2 configuration lifecycle and ConfigMap reconciliation

    A shallow embedding of
      - package [ec2config] (Config, UpdateFromEnvs, genTag,
        ValidateAndSetDefaults, Load, Sync, randString), and
      - package [ng] (createConfigMap, configMapAuthTempl, writeConfigMapAuth),
    followed by the properties established about them.

    Conventions.  Go [string] is [string]; [[]string] is [list string] (a nil
    and an empty slice both have length 0 and are not told apart); a Go map is
    [option (gmap string V)], [None] being the nil map; [int], [int64] and
    [time.Duration] are [Z] (a 64-bit platform is assumed, so [int] is
    [int64]).  A Go method with a pointer receiver that returns [error] is a
    function from the receiver to the receiver after the call paired with
    [option error]: the receiver is returned also when the call fails, since
    the writes made before the failing statement stay. *)

From Stdlib Require Import ZArith Ascii String List Lia DecimalString.
From stdpp Require Import base option list gmap strings.

Local Open Scope string_scope.
Local Open Scope Z_scope.

(** ** Go library functions used by the sources *)

Module GoStrings.

(** [strings.HasPrefix]. *)
Fixpoint HasPrefix (s p : string) : bool :=
  match p, s with
  | EmptyString, _ => true
  | String b p', String a s' => if Ascii.eqb a b then HasPrefix s' p' else false
  | String _ _, EmptyString => false
  end.

(** [strings.Replace(s, old, new, -1)] for a non-empty [old]: the
    non-overlapping occurrences of [old] are replaced from left to right.
    [skip] counts the bytes of the occurrence being stepped over. *)
Fixpoint replaceFrom (skip : nat) (old new s : string) : string :=
  match s with
  | EmptyString => EmptyString
  | String a s' =>
      match skip with
      | S k => replaceFrom k old new s'
      | O =>
          if HasPrefix s old
          then new ++ replaceFrom (Nat.pred (String.length old)) old new s'
          else String a (replaceFrom O old new s')
      end
  end.

Definition Replace (s old new : string) : string := replaceFrom O old new s.

Definition upperByte (a : ascii) : ascii :=
  let n := nat_of_ascii a in
  if (Nat.leb 97 n && Nat.leb n 122)%bool then ascii_of_nat (n - 32) else a.

Definition lowerByte (a : ascii) : ascii :=
  let n := nat_of_ascii a in
  if (Nat.leb 65 n && Nat.leb n 90)%bool then ascii_of_nat (n + 32) else a.

Fixpoint mapBytes (f : ascii -> ascii) (s : string) : string :=
  match s with
  | EmptyString => EmptyString
  | String a s' => String (f a) (mapBytes f s')
  end.

(** [strings.ToUpper] and [strings.ToLower] on ASCII text (the struct tags
    and the region labels); bytes outside [a-z] / [A-Z] are kept. *)
Definition ToUpper : string -> string := mapBytes upperByte.
Definition ToLower : string -> string := mapBytes lowerByte.

(** [strings.Split(s, sep)] for a one-byte separator.  [cur] is the piece
    being read, reversed.  [Split "" sep] is one empty piece, as in Go. *)
Fixpoint splitFrom (sep : ascii) (cur : string) (s : string) : list string :=
  match s with
  | EmptyString => [String.rev cur]
  | String a s' =>
      if Ascii.eqb a sep
      then String.rev cur :: splitFrom sep EmptyString s'
      else splitFrom sep (String a cur) s'
  end.

Definition Split (s : string) (sep : ascii) : list string :=
  splitFrom sep EmptyString s.

(** [strings.Count(s, sub)] for a non-empty [sub]: the number of
    non-overlapping occurrences. *)
Fixpoint countFrom (skip : nat) (sub s : string) : nat :=
  match s with
  | EmptyString => O
  | String _ s' =>
      match skip with
      | S k => countFrom k sub s'
      | O =>
          if HasPrefix s sub
          then S (countFrom (Nat.pred (String.length sub)) sub s')
          else countFrom O sub s'
      end
  end.

Definition Count (s sub : string) : nat := countFrom O sub s.

(** Does the byte occur in the string. *)
Fixpoint hasByte (c : ascii) (s : string) : bool :=
  match s with
  | EmptyString => false
  | String a s' => if Ascii.eqb a c then true else hasByte c s'
  end.

(** Every byte of the string passes the test. *)
Fixpoint allBytes (p : ascii -> bool) (s : string) : bool :=
  match s with
  | EmptyString => true
  | String a s' => p a && allBytes p s'
  end.

(** The byte is a decimal digit. *)
Definition isDigit (a : ascii) : bool :=
  let n := nat_of_ascii a in (Nat.leb 48 n && Nat.leb n 57)%bool.

(** The byte is a decimal digit or a lower-case letter. *)
Definition isLowerAlnum (a : ascii) : bool :=
  let n := nat_of_ascii a in
  ((Nat.leb 48 n && Nat.leb n 57) || (Nat.leb 97 n && Nat.leb n 122))%bool.

End GoStrings.

Module Strconv.

(** [strconv.ParseBool]; [None] is a non-nil error. *)
Definition ParseBool (s : string) : option bool :=
  if bool_decide (s = "1" \/ s = "t" \/ s = "T" \/ s = "TRUE" \/ s = "true" \/ s = "True")
  then Some true
  else if bool_decide (s = "0" \/ s = "f" \/ s = "F" \/ s = "FALSE" \/ s = "false" \/ s = "False")
  then Some false
  else None.

Definition digitOf (a : ascii) : option Z :=
  let n := nat_of_ascii a in
  if (Nat.leb 48 n && Nat.leb n 57)%bool then Some (Z.of_nat (n - 48)) else None.

(** The value of a string of decimal digits read after [acc]; [None] when a
    byte is not a digit (base 10 admits no underscore). *)
Fixpoint digits (acc : Z) (s : string) : option Z :=
  match s with
  | EmptyString => Some acc
  | String a s' =>
      match digitOf a with
      | Some d => digits (10 * acc + d) s'
      | None => None
      end
  end.

(** [strconv.ParseInt(s, 10, 64)]: an optional sign, at least one digit,
    and the value within [-2^63, 2^63); [None] is a syntax or range error. *)
Definition ParseInt (s : string) : option Z :=
  let '(neg, body) :=
    match s with
    | String "+" r => (false, r)
    | String "-" r => (true, r)
    | _ => (false, s)
    end in
  match body with
  | EmptyString => None
  | _ =>
      match digits 0 body with
      | None => None
      | Some un =>
          if neg
          then if un <=? 2 ^ 63 then Some (- un) else None
          else if un <? 2 ^ 63 then Some un else None
      end
  end.

End Strconv.

Module Fmt.

(** The verb [%d] on an integer. *)
Definition itoa (z : Z) : string := NilZero.string_of_int (Z.to_int z).

(** The verb [%02d]: padded with a zero to two bytes. *)
Definition pad2 (z : Z) : string :=
  let s := itoa z in
  if Nat.ltb (String.length s) 2 then "0" ++ s else s.

(** [fmt.Sprintf(format, arg)] with one string operand, on the formats
    whose verbs are all [%s] or [%%]: text is copied, [%%] is a percent
    sign, the first [%s] is the operand, a later [%s] is
    [%!s(MISSING)], and an operand that no verb used is reported at the end
    as [%!(EXTRA string=...)].  Flags, widths, other verbs and a percent
    sign at the very end are outside this fragment; there the result is
    [None]. *)
Fixpoint sprintfFrom (format : string) (arg : option string) : option string :=
  match format with
  | EmptyString =>
      match arg with
      | Some a => Some ("%!(EXTRA string=" ++ a ++ ")")
      | None => Some EmptyString
      end
  | String "%" (String "s" rest) =>
      match arg with
      | Some a => option_map (String.append a) (sprintfFrom rest None)
      | None => option_map (String.append "%!s(MISSING)") (sprintfFrom rest None)
      end
  | String "%" (String "%" rest) => option_map (String "%") (sprintfFrom rest arg)
  | String "%" _ => None
  | String c rest => option_map (String c) (sprintfFrom rest arg)
  end.

Definition Sprintf1 (format arg : string) : option string :=
  sprintfFrom format (Some arg).

End Fmt.

(** ** Package ec2config: the data model *)

Module Ec2config.
Import GoStrings.

(** [time.Time], by the calendar fields the sources read. *)
Record Time := {
  Year : Z; Month : Z; Day : Z; Hour : Z; Minute : Z; Second : Z; Nanosecond : Z
}.

Record Placement := { AvailabilityZone : string; Tenancy : string }.

Record State := { Code : Z; Name : string }.

Record EBS := { DeleteOnTermination : bool; Status : string; VolumeID : string }.

Record SecurityGroup := { GroupName : string; GroupID : string }.

(** [BlockDeviceMapping] and [Instance].  They stand in a module of their
    own because some of their fields are named as a type ([EBS],
    [Placement], [State]) or as a field of [Config] ([ImageID],
    [InstanceType], [KeyName], [VPCID]). *)
Module Inst.

Record BlockDeviceMapping := { DeviceName : string; EBS : EBS }.

Record Instance := {
  ImageID : string;
  InstanceID : string;
  InstanceType : string;
  KeyName : string;
  Placement : Placement;
  PrivateDNSName : string;
  PrivateIP : string;
  PublicDNSName : string;
  PublicIP : string;
  State : State;
  SubnetID : string;
  VPCID : string;
  BlockDeviceMappings : list BlockDeviceMapping;
  EBSOptimized : bool;
  RootDeviceName : string;
  RootDeviceType : string;
  SecurityGroups : list SecurityGroup;
  LaunchTime : Time
}.

End Inst.

Abbreviation BlockDeviceMapping := Inst.BlockDeviceMapping.
Abbreviation Instance := Inst.Instance.

Record Config := {
  EnvPrefix : string;
  AWSAccountID : string;
  AWSRegion : string;
  LogLevel : string;
  LogOutputs : list string;
  LogOutputToUploadPath : string;
  LogOutputToUploadPathBucket : string;
  LogOutputToUploadPathURL : string;
  UploadTesterLogs : bool;
  UploadBucketExpireDays : Z;
  Tag : string;
  Tags : option (gmap string string);
  ClusterName : string;
  DestroyAfterCreate : bool;
  DestroyWaitTime : Z;
  ConfigPath : string;
  ConfigPathBucket : string;
  ConfigPathURL : string;
  UpdatedAt : Time;
  ImageID : string;
  UserName : string;
  Plugins : list string;
  InitScript : string;
  InitScriptCreated : bool;
  InstanceType : string;
  ClusterSize : Z;
  KeyName : string;
  KeyPath : string;
  KeyPathBucket : string;
  KeyPathURL : string;
  KeyCreateSkip : bool;
  KeyCreated : bool;
  VPCCIDR : string;
  VPCID : string;
  VPCCreated : bool;
  InternetGatewayID : string;
  RouteTableIDs : list string;
  SubnetIDs : list string;
  SubnetIDToAvailabilityZone : option (gmap string string);
  IngressRulesTCP : option (gmap string string);
  SecurityGroupIDs : list string;
  AssociatePublicIPAddress : bool;
  VolumeSize : Z;
  Instances : option (gmap string Instance);
  Wait : bool;
  InstanceProfileFilePath : string;
  InstanceProfileName : string;
  InstanceProfileCreated : bool;
  InstanceProfilePolicyName : string;
  InstanceProfilePolicyARN : string;
  InstanceProfilePolicy : string;
  InstanceProfilePolicyCreated : bool;
  InstanceProfileRoleName : string;
  InstanceProfileRoleCreated : bool;
  CustomScript : string
}.

(** The struct rebuilt from its fields, in declaration order; the setters
    below are read off it. *)
Definition etaConfig (c : Config) : Config :=
  Build_Config
    (EnvPrefix c) (AWSAccountID c) (AWSRegion c) (LogLevel c) (LogOutputs c)
    (LogOutputToUploadPath c) (LogOutputToUploadPathBucket c)
    (LogOutputToUploadPathURL c) (UploadTesterLogs c)
    (UploadBucketExpireDays c) (Tag c) (Tags c) (ClusterName c)
    (DestroyAfterCreate c) (DestroyWaitTime c) (ConfigPath c)
    (ConfigPathBucket c) (ConfigPathURL c) (UpdatedAt c) (ImageID c)
    (UserName c) (Plugins c) (InitScript c) (InitScriptCreated c)
    (InstanceType c) (ClusterSize c) (KeyName c) (KeyPath c)
    (KeyPathBucket c) (KeyPathURL c) (KeyCreateSkip c) (KeyCreated c)
    (VPCCIDR c) (VPCID c) (VPCCreated c) (InternetGatewayID c)
    (RouteTableIDs c) (SubnetIDs c) (SubnetIDToAvailabilityZone c)
    (IngressRulesTCP c) (SecurityGroupIDs c) (AssociatePublicIPAddress c)
    (VolumeSize c) (Instances c) (Wait c) (InstanceProfileFilePath c)
    (InstanceProfileName c) (InstanceProfileCreated c)
    (InstanceProfilePolicyName c) (InstanceProfilePolicyARN c)
    (InstanceProfilePolicy c) (InstanceProfilePolicyCreated c)
    (InstanceProfileRoleName c) (InstanceProfileRoleCreated c)
    (CustomScript c).

(** The setter of the field with projection [proj]: [etaConfig c] with
    [proj c] replaced by the new value. *)
Ltac setter proj :=
  let v := fresh "v" in
  let c := fresh "c" in
  intros v c;
  let body := eval cbv beta delta [etaConfig] in (etaConfig c) in
  let p := constr:(proj c) in
  lazymatch eval pattern p in body with
  | ?g _ => let r := eval cbv beta in (g v) in exact r
  end.

(** [set_F v c] is [c] after the assignment [c.F = v]. *)
Definition set_EnvPrefix : string -> Config -> Config.
Proof. setter EnvPrefix. Defined.
Definition set_AWSAccountID : string -> Config -> Config.
Proof. setter AWSAccountID. Defined.
Definition set_AWSRegion : string -> Config -> Config.
Proof. setter AWSRegion. Defined.
Definition set_LogLevel : string -> Config -> Config.
Proof. setter LogLevel. Defined.
Definition set_LogOutputs : list string -> Config -> Config.
Proof. setter LogOutputs. Defined.
Definition set_LogOutputToUploadPath : string -> Config -> Config.
Proof. setter LogOutputToUploadPath. Defined.
Definition set_LogOutputToUploadPathBucket : string -> Config -> Config.
Proof. setter LogOutputToUploadPathBucket. Defined.
Definition set_LogOutputToUploadPathURL : string -> Config -> Config.
Proof. setter LogOutputToUploadPathURL. Defined.
Definition set_UploadTesterLogs : bool -> Config -> Config.
Proof. setter UploadTesterLogs. Defined.
Definition set_UploadBucketExpireDays : Z -> Config -> Config.
Proof. setter UploadBucketExpireDays. Defined.
Definition set_Tag : string -> Config -> Config.
Proof. setter Tag. Defined.
Definition set_Tags : option (gmap string string) -> Config -> Config.
Proof. setter Tags. Defined.
Definition set_ClusterName : string -> Config -> Config.
Proof. setter ClusterName. Defined.
Definition set_DestroyAfterCreate : bool -> Config -> Config.
Proof. setter DestroyAfterCreate. Defined.
Definition set_DestroyWaitTime : Z -> Config -> Config.
Proof. setter DestroyWaitTime. Defined.
Definition set_ConfigPath : string -> Config -> Config.
Proof. setter ConfigPath. Defined.
Definition set_ConfigPathBucket : string -> Config -> Config.
Proof. setter ConfigPathBucket. Defined.
Definition set_ConfigPathURL : string -> Config -> Config.
Proof. setter ConfigPathURL. Defined.
Definition set_UpdatedAt : Time -> Config -> Config.
Proof. setter UpdatedAt. Defined.
Definition set_ImageID : string -> Config -> Config.
Proof. setter ImageID. Defined.
Definition set_UserName : string -> Config -> Config.
Proof. setter UserName. Defined.
Definition set_Plugins : list string -> Config -> Config.
Proof. setter Plugins. Defined.
Definition set_InitScript : string -> Config -> Config.
Proof. setter InitScript. Defined.
Definition set_InitScriptCreated : bool -> Config -> Config.
Proof. setter InitScriptCreated. Defined.
Definition set_InstanceType : string -> Config -> Config.
Proof. setter InstanceType. Defined.
Definition set_ClusterSize : Z -> Config -> Config.
Proof. setter ClusterSize. Defined.
Definition set_KeyName : string -> Config -> Config.
Proof. setter KeyName. Defined.
Definition set_KeyPath : string -> Config -> Config.
Proof. setter KeyPath. Defined.
Definition set_KeyPathBucket : string -> Config -> Config.
Proof. setter KeyPathBucket. Defined.
Definition set_KeyPathURL : string -> Config -> Config.
Proof. setter KeyPathURL. Defined.
Definition set_KeyCreateSkip : bool -> Config -> Config.
Proof. setter KeyCreateSkip. Defined.
Definition set_KeyCreated : bool -> Config -> Config.
Proof. setter KeyCreated. Defined.
Definition set_VPCCIDR : string -> Config -> Config.
Proof. setter VPCCIDR. Defined.
Definition set_VPCID : string -> Config -> Config.
Proof. setter VPCID. Defined.
Definition set_VPCCreated : bool -> Config -> Config.
Proof. setter VPCCreated. Defined.
Definition set_InternetGatewayID : string -> Config -> Config.
Proof. setter InternetGatewayID. Defined.
Definition set_RouteTableIDs : list string -> Config -> Config.
Proof. setter RouteTableIDs. Defined.
Definition set_SubnetIDs : list string -> Config -> Config.
Proof. setter SubnetIDs. Defined.
Definition set_SubnetIDToAvailabilityZone : option (gmap string string) -> Config -> Config.
Proof. setter SubnetIDToAvailabilityZone. Defined.
Definition set_IngressRulesTCP : option (gmap string string) -> Config -> Config.
Proof. setter IngressRulesTCP. Defined.
Definition set_SecurityGroupIDs : list string -> Config -> Config.
Proof. setter SecurityGroupIDs. Defined.
Definition set_AssociatePublicIPAddress : bool -> Config -> Config.
Proof. setter AssociatePublicIPAddress. Defined.
Definition set_VolumeSize : Z -> Config -> Config.
Proof. setter VolumeSize. Defined.
Definition set_Instances : option (gmap string Instance) -> Config -> Config.
Proof. setter Instances. Defined.
Definition set_Wait : bool -> Config -> Config.
Proof. setter Wait. Defined.
Definition set_InstanceProfileFilePath : string -> Config -> Config.
Proof. setter InstanceProfileFilePath. Defined.
Definition set_InstanceProfileName : string -> Config -> Config.
Proof. setter InstanceProfileName. Defined.
Definition set_InstanceProfileCreated : bool -> Config -> Config.
Proof. setter InstanceProfileCreated. Defined.
Definition set_InstanceProfilePolicyName : string -> Config -> Config.
Proof. setter InstanceProfilePolicyName. Defined.
Definition set_InstanceProfilePolicyARN : string -> Config -> Config.
Proof. setter InstanceProfilePolicyARN. Defined.
Definition set_InstanceProfilePolicy : string -> Config -> Config.
Proof. setter InstanceProfilePolicy. Defined.
Definition set_InstanceProfilePolicyCreated : bool -> Config -> Config.
Proof. setter InstanceProfilePolicyCreated. Defined.
Definition set_InstanceProfileRoleName : string -> Config -> Config.
Proof. setter InstanceProfileRoleName. Defined.
Definition set_InstanceProfileRoleCreated : bool -> Config -> Config.
Proof. setter InstanceProfileRoleCreated. Defined.
Definition set_CustomScript : string -> Config -> Config.
Proof. setter CustomScript. Defined.

(** Go [error] values, by the statement that builds them. *)
Inductive error :=
| ErrMapFormat (sv : string)
    (* map %q has unexpected format *)
| ErrFieldNotSupported (fieldName : string)
    (* parsing field name %q not supported *)
| ErrParse (sv env : string)
    (* failed to parse %q (%q, %v) *)
| ErrKindNotSupported (env : string)
    (* %q (%v) is not supported as an env *)
| ErrNoLogOutputs
    (* EC2 LogOutputs is not specified *)
| ErrEmptyAWSRegion
    (* empty AWSRegion *)
| ErrRegionNotFound (region : string)
    (* %q not found *)
| ErrEmptyUserName
    (* empty UserName *)
| ErrEmptyImageID
    (* empty ImageID *)
| ErrEmptyInstanceType
    (* empty InstanceType *)
| ErrClusterSize
    (* unexpected ClusterSize *)
| ErrInstanceProfile (path : string)
    (* instance profile name %q does not exist (%v) *)
| ErrLib (msg : string)
    (* an error handed on from a library or another package *).

(** *** The view of [Config] that package reflect gives *)

Inductive Kind := KString | KSlice | KBool | KInt | KInt64 | KMap | KStruct.

(** What [vv.Field(i)] can be assigned through, by the Go type of the field:
    [string], [bool], [int] / [int64] / [time.Duration], [map[string]string],
    [map[string]Instance], [[]string], [time.Time]. *)
Inductive Slot :=
| StringSlot (set : string -> Config -> Config)
| BoolSlot (set : bool -> Config -> Config)
| IntSlot (k : Kind) (set : Z -> Config -> Config)
| MapSlot (set : option (gmap string string) -> Config -> Config)
| InstancesSlot
| SliceSlot (set : list string -> Config -> Config)
| TimeSlot.

Definition kindOf (s : Slot) : Kind :=
  match s with
  | StringSlot _ => KString
  | BoolSlot _ => KBool
  | IntSlot k _ => k
  | MapSlot _ => KMap
  | InstancesSlot => KMap
  | SliceSlot _ => KSlice
  | TimeSlot => KStruct
  end.

Record StructField := field {
  fieldName : string;   (* tp.Field(i).Name *)
  fieldJSON : string;   (* tp.Field(i).Tag.Get("json") *)
  fieldSlot : Slot      (* vv.Field(i) *)
}.

(** The fields of [Config] in declaration order: what the loop over
    [tp.NumField()] visits. *)
Definition configFields : list StructField :=
  [
    field "EnvPrefix" "env-prefix" (StringSlot set_EnvPrefix);
    field "AWSAccountID" "aws-account-id" (StringSlot set_AWSAccountID);
    field "AWSRegion" "aws-region" (StringSlot set_AWSRegion);
    field "LogLevel" "log-level" (StringSlot set_LogLevel);
    field "LogOutputs" "log-outputs" (SliceSlot set_LogOutputs);
    field "LogOutputToUploadPath" "log-output-to-upload-path"
      (StringSlot set_LogOutputToUploadPath);
    field "LogOutputToUploadPathBucket" "log-output-to-upload-path-bucket"
      (StringSlot set_LogOutputToUploadPathBucket);
    field "LogOutputToUploadPathURL" "log-output-to-upload-path-url"
      (StringSlot set_LogOutputToUploadPathURL);
    field "UploadTesterLogs" "upload-tester-logs" (BoolSlot set_UploadTesterLogs);
    field "UploadBucketExpireDays" "upload-bucket-expire-days"
      (IntSlot KInt set_UploadBucketExpireDays);
    field "Tag" "tag" (StringSlot set_Tag);
    field "Tags" "tags" (MapSlot set_Tags);
    field "ClusterName" "cluster-name" (StringSlot set_ClusterName);
    field "DestroyAfterCreate" "destroy-after-create" (BoolSlot set_DestroyAfterCreate);
    field "DestroyWaitTime" "destroy-wait-time,omitempty"
      (IntSlot KInt64 set_DestroyWaitTime);
    field "ConfigPath" "config-path" (StringSlot set_ConfigPath);
    field "ConfigPathBucket" "config-path-bucket" (StringSlot set_ConfigPathBucket);
    field "ConfigPathURL" "config-path-url" (StringSlot set_ConfigPathURL);
    field "UpdatedAt" "updated-at" (TimeSlot);
    field "ImageID" "image-id" (StringSlot set_ImageID);
    field "UserName" "user-name" (StringSlot set_UserName);
    field "Plugins" "plugins" (SliceSlot set_Plugins);
    field "InitScript" "init-script" (StringSlot set_InitScript);
    field "InitScriptCreated" "init-script-created" (BoolSlot set_InitScriptCreated);
    field "InstanceType" "instance-type" (StringSlot set_InstanceType);
    field "ClusterSize" "cluster-size" (IntSlot KInt set_ClusterSize);
    field "KeyName" "key-name" (StringSlot set_KeyName);
    field "KeyPath" "key-path" (StringSlot set_KeyPath);
    field "KeyPathBucket" "key-path-bucket" (StringSlot set_KeyPathBucket);
    field "KeyPathURL" "key-path-url" (StringSlot set_KeyPathURL);
    field "KeyCreateSkip" "key-create-skip" (BoolSlot set_KeyCreateSkip);
    field "KeyCreated" "key-created" (BoolSlot set_KeyCreated);
    field "VPCCIDR" "vpc-cidr" (StringSlot set_VPCCIDR);
    field "VPCID" "vpc-id" (StringSlot set_VPCID);
    field "VPCCreated" "vpc-created" (BoolSlot set_VPCCreated);
    field "InternetGatewayID" "internet-gateway-id" (StringSlot set_InternetGatewayID);
    field "RouteTableIDs" "route-table-ids" (SliceSlot set_RouteTableIDs);
    field "SubnetIDs" "subnet-ids" (SliceSlot set_SubnetIDs);
    field "SubnetIDToAvailabilityZone" "subnet-id-to-availability-zone"
      (MapSlot set_SubnetIDToAvailabilityZone);
    field "IngressRulesTCP" "ingress-rules-tcp" (MapSlot set_IngressRulesTCP);
    field "SecurityGroupIDs" "security-group-ids" (SliceSlot set_SecurityGroupIDs);
    field "AssociatePublicIPAddress" "associate-public-ip-address"
      (BoolSlot set_AssociatePublicIPAddress);
    field "VolumeSize" "volume-size" (IntSlot KInt64 set_VolumeSize);
    field "Instances" "instances" (InstancesSlot);
    field "Wait" "wait" (BoolSlot set_Wait);
    field "InstanceProfileFilePath" "instance-profile-file-path"
      (StringSlot set_InstanceProfileFilePath);
    field "InstanceProfileName" "instance-profile-name"
      (StringSlot set_InstanceProfileName);
    field "InstanceProfileCreated" "instance-profile-created"
      (BoolSlot set_InstanceProfileCreated);
    field "InstanceProfilePolicyName" "instance-profile-policy-name"
      (StringSlot set_InstanceProfilePolicyName);
    field "InstanceProfilePolicyARN" "instance-profile-policy-arn"
      (StringSlot set_InstanceProfilePolicyARN);
    field "InstanceProfilePolicy" "instance-profile-policy"
      (StringSlot set_InstanceProfilePolicy);
    field "InstanceProfilePolicyCreated" "instance-profile-policy-created"
      (BoolSlot set_InstanceProfilePolicyCreated);
    field "InstanceProfileRoleName" "instance-profile-role-name"
      (StringSlot set_InstanceProfileRoleName);
    field "InstanceProfileRoleCreated" "instance-profile-role-created"
      (BoolSlot set_InstanceProfileRoleCreated);
    field "CustomScript" "custom-script" (StringSlot set_CustomScript)
  ].

Definition envPfx : string := "AWS_K8S_TESTER_EC2_".

Definition zeroTime : Time :=
  {| Year := 1; Month := 1; Day := 1; Hour := 0; Minute := 0; Second := 0;
     Nanosecond := 0 |}.

(** The constant [time.Minute], in nanoseconds. *)
Definition minute : Z := 60 * 1000000000.

(** The constant [logutil.DefaultLogLevel]; package logutil is not among the
    sources, the comment of the field [LogLevel] gives the default as 'info'. *)
Definition DefaultLogLevel : string := "info".

(** [defaultConfig]; the fields it leaves out hold their zero values. *)
Definition defaultConfig : Config :=
  {|
    EnvPrefix := envPfx;
    AWSAccountID := "";
    AWSRegion := "us-west-2";
    LogLevel := DefaultLogLevel;
    LogOutputs := ["stderr"];
    LogOutputToUploadPath := "";
    LogOutputToUploadPathBucket := "";
    LogOutputToUploadPathURL := "";
    UploadTesterLogs := false;
    UploadBucketExpireDays := 2;
    Tag := "";
    Tags := None;
    ClusterName := "";
    DestroyAfterCreate := false;
    DestroyWaitTime := minute;
    ConfigPath := "";
    ConfigPathBucket := "";
    ConfigPathURL := "";
    UpdatedAt := zeroTime;
    ImageID := "ami-082b5a644766e0e6f";
    UserName := "ec2-user";
    Plugins := ["update-amazon-linux-2"; "install-start-docker-amazon-linux-2"];
    InitScript := "";
    InitScriptCreated := false;
    InstanceType := "m5.large";
    ClusterSize := 1;
    KeyName := "";
    KeyPath := "";
    KeyPathBucket := "";
    KeyPathURL := "";
    KeyCreateSkip := false;
    KeyCreated := false;
    VPCCIDR := "192.168.0.0/16";
    VPCID := "";
    VPCCreated := false;
    InternetGatewayID := "";
    RouteTableIDs := [];
    SubnetIDs := [];
    SubnetIDToAvailabilityZone := None;
    IngressRulesTCP := Some {[ "22" := "0.0.0.0/0" ]};
    SecurityGroupIDs := [];
    AssociatePublicIPAddress := true;
    VolumeSize := 40;
    Instances := None;
    Wait := true;
    InstanceProfileFilePath := "";
    InstanceProfileName := "";
    InstanceProfileCreated := false;
    InstanceProfilePolicyName := "";
    InstanceProfilePolicyARN := "";
    InstanceProfilePolicy := "";
    InstanceProfilePolicyCreated := false;
    InstanceProfileRoleName := "";
    InstanceProfileRoleCreated := false;
    CustomScript := ""
  |}.

(** [NewDefault] returns a copy of the default configuration. *)
Definition NewDefault : Config := defaultConfig.

(** A result in the style of the Go methods: the receiver after the call,
    and the error returned ([None] is [nil]). *)
Definition M : Type := Config -> Config * option error.

Definition ok : M := fun c => (c, None).

(** Sequencing: the second statement runs on the receiver the first one
    left, unless the first one returned an error. *)
Definition andThen (m1 m2 : M) : M :=
  fun c =>
    match m1 c with
    | (c', None) => m2 c'
    | (c', Some e) => (c', Some e)
    end.

Declare Scope go_scope.
Delimit Scope go_scope with go.
Bind Scope go_scope with M.
Notation "m1 ;; m2" := (andThen m1 m2)
  (at level 100, m2 at level 200, right associativity) : go_scope.
Local Open Scope go_scope.

(** *** UpdateFromEnvs *)

(** The process environment; [os.Getenv] gives the empty string for a
    variable that is not set. *)
Definition Getenv (env : gmap string string) (key : string) : string :=
  default "" (env !! key).

(** The name of the variable that overrides the field with JSON tag [jv]. *)
Definition envKey (prefix jv : string) : string :=
  let jv := Replace jv ",omitempty" "" in
  let jv := Replace jv "-" "_" in
  let jv := ToUpper (Replace jv "-" "_") in
  prefix ++ jv.

(** The loop over [strings.Split(sv, ",")] of the map case: each pair is
    stored with [SetMapIndex]; a pair that does not split into two at ["="]
    ends the call with an error, the pairs before it being stored. *)
Fixpoint setMapPairs (sv : string) (pairs : list string) (m : gmap string string)
  : gmap string string * option error :=
  match pairs with
  | [] => (m, None)
  | kv :: rest =>
      match Split kv "=" with
      | [k; v] => setMapPairs sv rest (<[k := v]> m)
      | _ => (m, Some (ErrMapFormat sv))
      end
  end.

(** The map case once more, on the heap of map objects.  A Go map is a
    reference, and the copy [cc := *cfg] refers to the same map objects as
    the receiver.  [make] gives a map object at an address [l] that nothing
    refers to yet, and [SetMapIndex] writes to the object at [l]. *)
Definition makeMap (h : gmap positive (gmap string string))
  : positive * gmap positive (gmap string string) :=
  let l := fresh (dom h) in (l, <[l := ∅]> h).

Fixpoint setMapIndexAll (sv : string) (pairs : list string) (l : positive)
    (h : gmap positive (gmap string string))
  : gmap positive (gmap string string) * option error :=
  match pairs with
  | [] => (h, None)
  | kv :: rest =>
      match Split kv "=" with
      | [k; v] => setMapIndexAll sv rest l (<[l := <[k := v]> (default ∅ (h !! l))]> h)
      | _ => (h, Some (ErrMapFormat sv))
      end
  end.

(** The address assigned to the field of the copy, the heap after the
    loop, and the error. *)
Definition mapCaseOnHeap (sv : string) (h : gmap positive (gmap string string))
  : positive * gmap positive (gmap string string) * option error :=
  let '(l, h1) := makeMap h in
  let '(h2, err) := setMapIndexAll sv (Split sv ",") l h1 in
  (l, h2, err).

Section UpdateFromEnvs.

(** [time.ParseDuration]; [None] is a non-nil error. *)
Variable ParseDuration : string -> option Z.

Variable env : gmap string string.

(** One round of the loop body, on the local copy [cc].  [prefix] is
    [cfg.EnvPrefix], read from the receiver and not from the copy.  No
    field of [Config] has an unsigned or floating-point kind, so those
    cases of the switch are never taken and are left out. *)
Definition updateField (prefix : string) (f : StructField) : M :=
  fun cc =>
    let jv := fieldJSON f in
    if bool_decide (jv = "") then (cc, None)
    else
      let envk := envKey prefix jv in
      if bool_decide (Getenv env envk = "") then (cc, None)
      else
        let sv := Getenv env envk in
        let name := fieldName f in
        match fieldSlot f with
        | StringSlot set => (set sv cc, None)
        | MapSlot set =>
            if bool_decide (name = "Tags" \/ name = "IngressRulesTCP")
            then
              let '(m, err) := setMapPairs sv (Split sv ",") ∅ in
              (set (Some m) cc, err)
            else (cc, Some (ErrFieldNotSupported name))
        | InstancesSlot => (cc, Some (ErrFieldNotSupported name))
        | BoolSlot set =>
            match Strconv.ParseBool sv with
            | None => (cc, Some (ErrParse sv envk))
            | Some bb => (set bb cc, None)
            end
        | IntSlot _ set =>
            if bool_decide (name = "DestroyWaitTime")
            then
              match ParseDuration sv with
              | None => (cc, Some (ErrParse sv envk))
              | Some dv => (set dv cc, None)
              end
            else
              match Strconv.ParseInt sv with
              | None => (cc, Some (ErrParse sv envk))
              | Some iv => (set iv cc, None)
              end
        | SliceSlot set =>
            let ss := Split sv "," in
            if bool_decide (name = "Plugins" \/ name = "SubnetIDs"
                            \/ name = "SecurityGroupIDs")
            then (set ss cc, None)
            else (cc, Some (ErrFieldNotSupported name))
        | TimeSlot => (cc, Some (ErrKindNotSupported envk))
        end.

(** The loop [for i := 0; i < tp.NumField(); i++], on the local copy. *)
Fixpoint updateFields (prefix : string) (fs : list StructField) : M :=
  match fs with
  | [] => ok
  | f :: rest => updateField prefix f ;; updateFields prefix rest
  end.

(** [UpdateFromEnvs]: the loop works on the copy [cc := *cfg], and the
    copy is stored back ([*cfg = cc]) only when the loop ran to its end.
    The map and slice values the loop assigns are made anew
    ([make], [reflect.MakeSlice]), so nothing the receiver refers to is
    written through the copy. *)
Definition UpdateFromEnvs : M :=
  fun cfg =>
    let cc := cfg in
    match updateFields (EnvPrefix cfg) configFields cc with
    | (_, Some e) => (cfg, Some e)
    | (cc', None) => (cc', None)
    end.

End UpdateFromEnvs.

(** *** The operating system, as one call sees it *)

(** How a call of [ioutil.WriteFile] failed: the error it returned, and how
    far it got.  The call opens the file with [O_CREATE|O_TRUNC], writes,
    and closes; [written] is [None] when the file could not be opened, and
    [Some n] when it was opened, so created or emptied, and holds the first
    [n] bytes of the data (all of it when [n] is its length or more: the
    error may also come from a short write or from [Close]). *)
Record FailedWrite := {
  writeErr : error;
  written : option nat
}.

Record World := {
  Now : Time;                                   (* time.Now() *)
  Rand : nat -> nat;                            (* the i-th number drawn from math/rand *)
  TempDir : string;                             (* os.TempDir() *)
  TempFile : string -> string -> string + error;
    (* ioutil.TempFile(dir, pattern): the name of the file made *)
  Abs : string -> string * option error;        (* filepath.Abs *)
  Stat : string -> option error;                (* the error of os.Stat *)
  WriteFile : string -> option FailedWrite
    (* ioutil.WriteFile at a path: [None] when the write is done, or how it failed *)
}.

(** [rand.Intn(n)] at the i-th draw: some number below [n]. *)
Definition Intn (w : World) (i n : nat) : nat := (Rand w i mod n)%nat.

(** [filepath.IsAbs] on Unix. *)
Definition IsAbs (p : string) : bool := HasPrefix p "/".

(** *** genTag and randString *)

(** [fmt.Sprintf("ec2-%d%02d%02d%02d", now.Year()-2000, int(now.Month()),
    now.Day(), now.Hour())]. *)
Definition genTag (now : Time) : string :=
  "ec2-" ++ Fmt.itoa (Year now - 2000) ++ Fmt.pad2 (Month now)
         ++ Fmt.pad2 (Day now) ++ Fmt.pad2 (Hour now).

Definition ll : string := "0123456789abcdefghijklmnopqrstuvwxyz".

(** [randString(n)]: byte [i] is [ll[rand.Intn(len(ll))]]. *)
Definition randString (w : World) (n : nat) : string :=
  string_of_list_ascii
    (map (fun i => nth (Intn w i (String.length ll)) (list_ascii_of_string ll) "0"%char)
         (seq 0 n)).

(** *** ValidateAndSetDefaults *)

(** [if cond { return err }]. *)
Definition check (cond : Config -> bool) (e : Config -> error) : M :=
  fun cfg => if cond cfg then (cfg, Some (e cfg)) else (cfg, None).

(** [if cond { body }]. *)
Definition when (cond : Config -> bool) (body : M) : M :=
  fun cfg => if cond cfg then body cfg else (cfg, None).

(** An assignment to a field of the receiver. *)
Definition assign (f : Config -> Config) : M := fun cfg => (f cfg, None).

Definition isEmpty (s : string) : bool := bool_decide (s = "").

Section Finalizer.

(** The table [pkgaws.RegionToAiport], from region to airport label. *)
Variable RegionToAiport : gmap string string.

(** [plugins.Create(userName, customScript, plugins)]: the script and the
    error it returns. *)
Variable pluginsCreate : string -> string -> list string -> string * option error.

(** [filepath.Join] of two elements. *)
Variable Join : string -> string -> string.

Variable w : World.

(** Lines 418-432: the checks on log outputs, region, user name and
    image. *)
Definition validateHead : M :=
  check (fun cfg => bool_decide (length (LogOutputs cfg) = 0%nat))
        (fun _ => ErrNoLogOutputs) ;;
  check (fun cfg => isEmpty (AWSRegion cfg)) (fun _ => ErrEmptyAWSRegion) ;;
  check (fun cfg => bool_decide (RegionToAiport !! AWSRegion cfg = None))
        (fun cfg => ErrRegionNotFound (AWSRegion cfg)) ;;
  check (fun cfg => isEmpty (UserName cfg)) (fun _ => ErrEmptyUserName) ;;
  check (fun cfg => isEmpty (ImageID cfg)) (fun _ => ErrEmptyImageID).

(** Lines 434-442: the init script.  The result of [plugins.Create] is
    assigned to [cfg.InitScript] before its error is looked at. *)
Definition createInitScript : M :=
  when (fun cfg => bool_decide (0 < length (Plugins cfg))%nat
                   && negb (InitScriptCreated cfg))
       (fun cfg =>
          let txt := InitScript cfg in
          let '(script, err) :=
            pluginsCreate (UserName cfg) (CustomScript cfg) (Plugins cfg) in
          let cfg := set_InitScript script cfg in
          match err with
          | Some e => (cfg, Some e)
          | None =>
              let cfg := set_InitScript (InitScript cfg ++ String "010" "" ++ txt) cfg in
              (set_InitScriptCreated true cfg, None)
          end).

(** Lines 444-449: the checks on instance type and cluster size. *)
Definition validateTail : M :=
  check (fun cfg => isEmpty (InstanceType cfg)) (fun _ => ErrEmptyInstanceType) ;;
  check (fun cfg => ClusterSize cfg <? 1) (fun _ => ErrClusterSize).

(** Lines 451-457: tag and cluster name.  A region missing from the
    table reads as the empty label. *)
Definition deriveNames : M :=
  when (fun cfg => isEmpty (Tag cfg)) (assign (set_Tag (genTag (Now w)))) ;;
  when (fun cfg => isEmpty (ClusterName cfg))
       (assign (fun cfg =>
          let airport := default "" (RegionToAiport !! AWSRegion cfg) in
          set_ClusterName
            (Tag cfg ++ "-" ++ ToLower airport ++ "-" ++ AWSRegion cfg ++ "-"
                     ++ randString w 5)
            cfg)).

(** A path for a new temporary file: [ioutil.TempFile], then
    [filepath.Abs] of its name with the error of [Abs] dropped; the file
    itself is closed and removed again. *)
Definition tempPath (pattern : string) : string + error :=
  match TempFile w (TempDir w) pattern with
  | inr e => inr e
  | inl name => inl (fst (Abs w name))
  end.

(** Lines 459-469: configuration path and its storage key. *)
Definition deriveConfigPath : M :=
  when (fun cfg => isEmpty (ConfigPath cfg))
       (fun cfg =>
          match tempPath "ec2config" with
          | inr e => (cfg, Some e)
          | inl p => (set_ConfigPath p cfg, None)
          end) ;;
  assign (fun cfg => set_ConfigPathBucket (Join (ClusterName cfg) "ec2config.yaml") cfg).

(** Lines 471-483: the log file to upload, added to the log outputs
    unless some entry already equals it. *)
Definition deriveLogOutput : M :=
  assign (fun cfg =>
    set_LogOutputToUploadPath (Join (TempDir w) (ClusterName cfg ++ ".log")) cfg) ;;
  when (fun cfg =>
          negb (existsb (fun lv => bool_decide (LogOutputToUploadPath cfg = lv))
                        (LogOutputs cfg)))
       (assign (fun cfg =>
          set_LogOutputs (LogOutputs cfg ++ [LogOutputToUploadPath cfg]) cfg)) ;;
  assign (fun cfg => set_LogOutputToUploadPathBucket (Join (ClusterName cfg) "ec2.log") cfg).

(** Lines 485-498: key name, key path and its storage key. *)
Definition deriveKey : M :=
  when (fun cfg => isEmpty (KeyName cfg))
       (assign (fun cfg => set_KeyName (ClusterName cfg) cfg)) ;;
  assign (fun cfg => set_KeyPathBucket (Join (ClusterName cfg) "ec2.key") cfg) ;;
  when (fun cfg => isEmpty (KeyPath cfg))
       (fun cfg =>
          match tempPath "ec2.key" with
          | inr e => (cfg, Some e)
          | inl p => (set_KeyPath p cfg, None)
          end).

(** Lines 500-507: the names derived for the instance profile. *)
Definition deriveInstanceProfile : M :=
  when (fun cfg => negb (isEmpty (InstanceProfileFilePath cfg)))
       (check (fun cfg => bool_decide (Stat w (InstanceProfileFilePath cfg) <> None))
              (fun cfg => ErrInstanceProfile (InstanceProfileFilePath cfg)) ;;
        assign (fun cfg =>
          set_InstanceProfileName (ClusterName cfg ++ "-instance-profile") cfg) ;;
        assign (fun cfg =>
          set_InstanceProfileRoleName (InstanceProfileName cfg ++ "-role") cfg) ;;
        assign (fun cfg =>
          set_InstanceProfilePolicyName (InstanceProfileName cfg ++ "-policy") cfg)).

(** [ValidateAndSetDefaults], statement by statement. *)
Definition ValidateAndSetDefaults : M :=
  validateHead ;;
  createInitScript ;;
  validateTail ;;
  deriveNames ;;
  deriveConfigPath ;;
  deriveLogOutput ;;
  deriveKey ;;
  deriveInstanceProfile.

End Finalizer.

(** *** Load and Sync *)

Section Persistence.

(** [yaml.Marshal] and [yaml.Unmarshal] of package sigs.k8s.io/yaml, on
    [Config]; a file holds a string of bytes. *)
Variable Marshal : Config -> string + error.
Variable Unmarshal : string -> Config + error.

(** [Load(p)] on the files [fs]: the loaded configuration, or the error
    (the Go function then returns a nil configuration). *)
Definition Load (w : World) (fs : gmap string string) (p : string) : Config + error :=
  match fs !! p with
  | None => inr (ErrLib "open: no such file")
  | Some d =>
      match Unmarshal d with
      | inr e => inr e
      | inl cfg =>
          let cfg :=
            match Instances cfg with
            | None => set_Instances (Some ∅) cfg
            | Some _ => cfg
            end in
          let cfg :=
            if bool_decide (ConfigPath cfg <> p) then set_ConfigPath p cfg else cfg in
          let '(q, err) := Abs w p in
          let cfg := set_ConfigPath q cfg in
          match err with
          | Some e => inr e
          | None => inl cfg
          end
      end
  end.

(** [Sync] on the files [fs]: the receiver and the files after the call,
    and the error.  A write that fails after the file was opened leaves the
    part of the document that was written. *)
Definition Sync (w : World) (fs : gmap string string) (cfg : Config)
  : Config * gmap string string * option error :=
  let '(cfg, err) :=
    if negb (IsAbs (ConfigPath cfg))
    then let '(q, err) := Abs w (ConfigPath cfg) in (set_ConfigPath q cfg, err)
    else (cfg, None) in
  match err with
  | Some e => (cfg, fs, Some e)
  | None =>
      let cfg := set_UpdatedAt (Now w) cfg in
      match Marshal cfg with
      | inr e => (cfg, fs, Some e)
      | inl d =>
          match WriteFile w (ConfigPath cfg) with
          | Some failure =>
              (cfg,
               match written failure with
               | None => fs
               | Some n => <[ConfigPath cfg := substring 0 n d]> fs
               end,
               Some (writeErr failure))
          | None => (cfg, <[ConfigPath cfg := d]> fs, None)
          end
      end
  end.

End Persistence.

End Ec2config.

(** ** Package text/template, as far as [configMapAuthTempl] uses it *)

Module Template.
Import GoStrings.

(** A parsed template: text, and actions that print a field of the data. *)
Inductive Node :=
| TextNode (s : string)
| FieldNode (name : string).

Definition textNode (cur : string) : list Node :=
  match cur with
  | EmptyString => []
  | _ => [TextNode (String.rev cur)]
  end.

Definition isIdentByte (a : ascii) : bool :=
  let n := nat_of_ascii a in
  ((Nat.leb 97 n && Nat.leb n 122) || (Nat.leb 65 n && Nat.leb n 90)
   || (Nat.leb 48 n && Nat.leb n 57) || Nat.eqb n 95)%bool.

(** The action between the delimiters: a dot and a field name. *)
Definition fieldOf (action : string) : option Node :=
  match action with
  | String "." name =>
      if negb (bool_decide (name = "")) && allBytes isIdentByte name
      then Some (FieldNode name) else None
  | _ => None
  end.

(** The parser, with the default delimiters.  [cur] is the text or the
    action being read, reversed; [skip] counts the bytes of a delimiter
    still to step over.  Actions other than a field are outside this
    model ([None]), and so is an action that is not closed. *)
Fixpoint parseFrom (skip : nat) (inAction : bool) (cur : string) (s : string)
  : option (list Node) :=
  match s with
  | EmptyString => if inAction then None else Some (textNode cur)
  | String a s' =>
      match skip with
      | S k => parseFrom k inAction cur s'
      | O =>
          if inAction
          then
            if HasPrefix s "}}"
            then
              match fieldOf (String.rev cur) with
              | Some n => option_map (cons n) (parseFrom 1 false EmptyString s')
              | None => None
              end
            else parseFrom 0 true (String a cur) s'
          else
            if HasPrefix s "{{"
            then option_map (app (textNode cur)) (parseFrom 1 true EmptyString s')
            else parseFrom 0 false (String a cur) s'
      end
  end.

Definition Parse (text : string) : option (list Node) :=
  parseFrom 0 false EmptyString text.

(** [Execute]: text is copied, a field action prints the field of the data
    as it is (text/template does not escape); a field the data does not
    have is an error ([None]). *)
Fixpoint Execute (tpl : list Node) (data : string -> option string) : option string :=
  match tpl with
  | [] => Some EmptyString
  | TextNode s :: rest => option_map (String.append s) (Execute rest data)
  | FieldNode name :: rest =>
      match data name with
      | Some v => option_map (String.append v) (Execute rest data)
      | None => None
      end
  end.

End Template.

(** ** Package ng: the ConfigMap of the node group *)

Module Ng.
Import GoStrings.

Definition configMapAuthTempl : string :=
"---
apiVersion: v1
kind: ConfigMap
metadata:
  name: aws-auth
  namespace: kube-system
data:
  mapRoles: |
    - rolearn: {{.NGInstanceRoleARN}}
      %s
      groups:
      - system:bootstrappers
      - system:nodes
".

Record configMapAuth := { NGInstanceRoleARN : string }.

(** The fields of [configMapAuth] by name. *)
Definition configMapAuthField (kc : configMapAuth) (name : string) : option string :=
  if bool_decide (name = "NGInstanceRoleARN") then Some (NGInstanceRoleARN kc) else None.

Inductive error :=
| ErrAborted
    (* create ConfigMap aborted *)
| ErrKubectl (err out : string)
    (* 'kubectl version' failed %v (output %q) *)
| ErrLib (msg : string)
    (* an error handed on from a library or another package *).

(** The line put in place of [%s]. *)
Definition usernameLine : string := "username: system:node:{{EC2PrivateDNSName}}".

(** The placeholder that the cluster fills in. *)
Definition placeholder : string := "{{EC2PrivateDNSName}}".

(** The value [txt] of [writeConfigMapAuth]: the template executed on the
    ARN, then used as the format of [fmt.Sprintf].  [None] when the
    executed template leaves the fragment of formats that [Fmt.Sprintf1]
    models. *)
Definition configMapAuthText (arn : string) : option string :=
  let kc := {| NGInstanceRoleARN := arn |} in
  match Template.Parse configMapAuthTempl with
  | None => None
  | Some tpl =>
      match Template.Execute tpl (configMapAuthField kc) with
      | None => None
      | Some buf => Fmt.Sprintf1 buf usernameLine
      end
  end.

(** [writeConfigMapAuth]: [fileutil.WriteTempFile] stores [txt] in a new
    temporary file and returns its path, or an error.  The result is the
    files after the call and what the function returns.  Package fileutil
    is not among the sources: what a call that returns an error has left
    among the files is not known; the files are given as they were, and no result is drawn
    from that. *)
Definition writeConfigMapAuth (WriteTempFile : string -> string + error)
    (fs : gmap string string) (arn : string)
  : option (gmap string string * (string + error)) :=
  match configMapAuthText arn with
  | None => None
  | Some txt =>
      match WriteTempFile txt with
      | inr e => Some (fs, inr e)
      | inl p => Some (<[p := txt]> fs, inl p)
      end
  end.

(** *** createConfigMap *)

(** The configuration fields that [createConfigMap] reads. *)
Record EKSConfig := {
  RoleARN : string;          (* EKSConfig.AddOnNodeGroups.RoleARN *)
  KubectlPath : string;
  KubeConfigPath : string
}.

(** Which case of the [select] was taken. *)
Inductive Selected := Stopc | Sig | After5s.

(** What one turn of the loop meets: the time since [retryStart] when the
    loop condition is tested (in nanoseconds), the case the [select]
    takes, and the combined output and error of the command. *)
Record Round := {
  elapsed : Z;
  selected : Selected;
  output : string;
  cmdErr : option string
}.

(** What the function does that can be seen from outside, in order. *)
Inductive Event :=
| EvInfo (msg : string)
| EvApply (kubectl kubeconfig filename : string)
| EvPrintf (out : string)
| EvWarn (msg : string) (err : option string)
| EvRecordStatus (status : string)
| EvSync.

(** How a call ends: it returns, or the rounds given do not reach the end
    of the call. *)
Inductive Result :=
| Returned (err : option error)
| NoMoreRounds.

Definition second : Z := 1000000000.

(** [waitDur := 5 * time.Minute]. *)
Definition waitDur : Z := 5 * 60 * second.

Section CreateConfigMap.

Variable cfg : EKSConfig.

(** The error of the final [ts.cfg.EKSConfig.Sync()]. *)
Variable syncErr : option error.

(** The loop [for time.Now().Sub(retryStart) < waitDur] and the
    statements after it, [p] being the path of the rendered file.  Where
    the command returns no error, [err] is nil in the two statements
    that report a failure. *)
Fixpoint retryLoop (p : string) (rounds : list Round) : list Event * Result :=
  match rounds with
  | [] => ([], NoMoreRounds)
  | r :: rest =>
      if elapsed r <? waitDur
      then
        match selected r with
        | Stopc => ([], Returned (Some ErrAborted))
        | Sig => ([], Returned (Some ErrAborted))
        | After5s =>
            let apply :=
              EvApply (KubectlPath cfg) ("--kubeconfig=" ++ KubeConfigPath cfg)
                      ("--filename=" ++ p) in
            let out := output r in
            match cmdErr r with
            | Some e => ([apply], Returned (Some (ErrKubectl e out)))
            | None =>
                let '(evs, res) := retryLoop p rest in
                (apply :: EvPrintf out
                   :: EvWarn "create ConfigMap failed" None
                   :: EvRecordStatus "create ConfigMap failed (<nil>)"
                   :: evs,
                 res)
            end
        end
      else ([EvInfo "created ConfigMap"; EvSync], Returned syncErr)
  end.

(** The statements of [createConfigMap] from the test of the error of
    [writeConfigMapAuth] on, [written] being what that call returned. *)
Definition afterWrite (written : string + error) (rounds : list Round)
  : list Event * Result :=
  match written with
  | inr e => ([EvInfo "writing ConfigMap"], Returned (Some e))
  | inl p =>
      let '(evs, res) := retryLoop p rounds in
      (EvInfo "writing ConfigMap" :: evs, res)
  end.

(** [createConfigMap] on the files [fs]: the files after the call, what the
    call did, and how it ended.  [None] when the role ARN takes
    [writeConfigMapAuth] out of what is modelled of [fmt.Sprintf]. *)
Definition createConfigMap (WriteTempFile : string -> string + error)
    (fs : gmap string string) (rounds : list Round)
  : option (gmap string string * (list Event * Result)) :=
  match writeConfigMapAuth WriteTempFile fs (RoleARN cfg) with
  | None => None
  | Some (fs', written) => Some (fs', afterWrite written rounds)
  end.

End CreateConfigMap.

(** The apply attempts among the events. *)
Definition isApply (e : Event) : bool :=
  match e with EvApply _ _ _ => true | _ => false end.

Definition isSync (e : Event) : bool :=
  match e with EvSync => true | _ => false end.

Definition isRecordStatus (e : Event) : bool :=
  match e with EvRecordStatus _ => true | _ => false end.

Definition attempts (evs : list Event) : nat := length (filter isApply evs).

End Ng.


(** ** Package s3shared: the request on an ARN resource *)

Module S3shared.
Import GoStrings.

(** [strings.HasSuffix]: [len(s) >= len(suffix)] and the last
    [len(suffix)] bytes of [s] are [suffix]. *)
Definition HasSuffix (s suffix : string) : bool :=
  Nat.leb (String.length suffix) (String.length s)
  && bool_decide (substring (String.length s - String.length suffix)
                            (String.length suffix) s = suffix).

(** The byte is not ASCII ([>= utf8.RuneSelf]). *)
Definition notASCII (a : ascii) : bool := Nat.leb 128 (nat_of_ascii a).

(** [strings.EqualFold] as far as both strings are ASCII: bytes are
    compared one by one, equal or a letter and its other case; when one
    string ends, the strings are equal under folding if both end.  Where a
    byte that is not ASCII is met before the answer is known, the result is
    [None]: folding of Unicode is outside this model. *)
Fixpoint EqualFold (s t : string) : option bool :=
  match s, t with
  | String sr s', String tr t' =>
      if notASCII sr || notASCII tr then None
      else if Ascii.eqb tr sr then EqualFold s' t'
      else
        let lo := Nat.min (nat_of_ascii sr) (nat_of_ascii tr) in
        let hi := Nat.max (nat_of_ascii sr) (nat_of_ascii tr) in
        if Nat.leb 65 lo && Nat.leb lo 90 && Nat.eqb hi (lo + 32)
        then EqualFold s' t'
        else Some false
  | EmptyString, EmptyString => Some true
  | _, _ => Some false
  end.

(** [awsarn.ARN]. *)
Record ARN := {
  Partition : string;
  Service : string;
  Region : string;
  AccountID : string;
  Resource_ : string   (* the field [Resource] of [awsarn.ARN] *)
}.

(** The interface [arn.Resource], by what its method [GetARN] returns. *)
Record ArnResource := { GetARN : ARN }.

Record ResourceRequest := {
  Resource : ArnResource;
  RequestRegion : string;
  SigningRegion : string;
  PartitionID : string;
  UseARNRegion : bool
}.

Inductive error :=
| ErrNoPartitionID
    (* partition id was not found for provided request region *)
| ErrNoARNPartition
    (* no partition id for provided ARN *).

(** [IsFIPS]. *)
Definition IsFIPS (clientRegion : string) : bool :=
  HasPrefix clientRegion "fips-" || HasSuffix clientRegion "-fips".

(** The method [ARN] of [ResourceRequest]; it has the name of the type. *)
Definition ARN_ (r : ResourceRequest) : ARN := GetARN (Resource r).

Definition UseFips (r : ResourceRequest) : bool := IsFIPS (RequestRegion r).

Definition ResourceConfiguredForFIPS (r : ResourceRequest) : bool :=
  IsFIPS (Region (ARN_ r)).

Definition AllowCrossRegion (r : ResourceRequest) : bool := UseARNRegion r.


(** [IsCrossRegion]; [None] where [EqualFold] is not modelled. *)
Definition IsCrossRegion (r : ResourceRequest) : option bool :=
  let v := SigningRegion r in
  option_map negb (EqualFold v (Region (GetARN (Resource r)))).

End S3shared.
(** * Properties of package ec2config *)

Module Ec2configFacts.
Import GoStrings Ec2config.
Local Open Scope go_scope.

Set Default Proof Using "Type".

(** ** The result monad *)

Lemma andThen_ok (m1 m2 : M) c c1 r :
  m1 c = (c1, None) -> m2 c1 = r -> (m1 ;; m2) c = r.
Proof. intros H1 H2. unfold andThen. rewrite H1. exact H2. Qed.

Lemma andThen_err (m1 m2 : M) c c1 e :
  m1 c = (c1, Some e) -> (m1 ;; m2) c = (c1, Some e).
Proof. intros H1. unfold andThen. rewrite H1. reflexivity. Qed.

Lemma andThen_inv_ok (m1 m2 : M) c c2 :
  (m1 ;; m2) c = (c2, None) ->
  exists c1, m1 c = (c1, None) /\ m2 c1 = (c2, None).
Proof.
  unfold andThen. destruct (m1 c) as [c1 [e|]] eqn:E; intros H.
  - discriminate.
  - exists c1. split; [reflexivity | exact H].
Qed.

Lemma isEmpty_true s : isEmpty s = true <-> s = "".
Proof. unfold isEmpty. apply bool_decide_eq_true. Qed.

Lemma isEmpty_false s : isEmpty s = false <-> s <> "".
Proof. unfold isEmpty. apply bool_decide_eq_false. Qed.

(** A struct is its fields. *)
Lemma etaConfig_id c : etaConfig c = c.
Proof. destruct c; reflexivity. Qed.

(** One of the setters written out: every field but [Tag] is as it was. *)
Example set_Tag_written_out v c :
  set_Tag v c
  = Build_Config
      (EnvPrefix c) (AWSAccountID c) (AWSRegion c) (LogLevel c) (LogOutputs c)
      (LogOutputToUploadPath c) (LogOutputToUploadPathBucket c)
      (LogOutputToUploadPathURL c) (UploadTesterLogs c) (UploadBucketExpireDays c)
      v (Tags c) (ClusterName c) (DestroyAfterCreate c) (DestroyWaitTime c)
      (ConfigPath c) (ConfigPathBucket c) (ConfigPathURL c) (UpdatedAt c)
      (ImageID c) (UserName c) (Plugins c) (InitScript c) (InitScriptCreated c)
      (InstanceType c) (ClusterSize c) (KeyName c) (KeyPath c) (KeyPathBucket c)
      (KeyPathURL c) (KeyCreateSkip c) (KeyCreated c) (VPCCIDR c) (VPCID c)
      (VPCCreated c) (InternetGatewayID c) (RouteTableIDs c) (SubnetIDs c)
      (SubnetIDToAvailabilityZone c) (IngressRulesTCP c) (SecurityGroupIDs c)
      (AssociatePublicIPAddress c) (VolumeSize c) (Instances c) (Wait c)
      (InstanceProfileFilePath c) (InstanceProfileName c)
      (InstanceProfileCreated c) (InstanceProfilePolicyName c)
      (InstanceProfilePolicyARN c) (InstanceProfilePolicy c)
      (InstanceProfilePolicyCreated c) (InstanceProfileRoleName c)
      (InstanceProfileRoleCreated c) (CustomScript c).
Proof. reflexivity. Qed.

(** Assigning a field the value it has changes nothing. *)
Ltac same_field := intros c; destruct c; reflexivity.

Lemma set_InitScript_same c : set_InitScript (InitScript c) c = c.
Proof. revert c. same_field. Qed.

Lemma set_InitScriptCreated_same c : set_InitScriptCreated (InitScriptCreated c) c = c.
Proof. revert c. same_field. Qed.

Lemma set_Tag_same c : set_Tag (Tag c) c = c.
Proof. revert c. same_field. Qed.

Lemma set_ClusterName_same c : set_ClusterName (ClusterName c) c = c.
Proof. revert c. same_field. Qed.


Lemma set_ConfigPathBucket_same c : set_ConfigPathBucket (ConfigPathBucket c) c = c.
Proof. revert c. same_field. Qed.

Lemma set_LogOutputToUploadPath_same c :
  set_LogOutputToUploadPath (LogOutputToUploadPath c) c = c.
Proof. revert c. same_field. Qed.

Lemma set_LogOutputs_same c : set_LogOutputs (LogOutputs c) c = c.
Proof. revert c. same_field. Qed.

Lemma set_LogOutputToUploadPathBucket_same c :
  set_LogOutputToUploadPathBucket (LogOutputToUploadPathBucket c) c = c.
Proof. revert c. same_field. Qed.

Lemma set_KeyName_same c : set_KeyName (KeyName c) c = c.
Proof. revert c. same_field. Qed.

Lemma set_KeyPathBucket_same c : set_KeyPathBucket (KeyPathBucket c) c = c.
Proof. revert c. same_field. Qed.

Lemma set_KeyPath_same c : set_KeyPath (KeyPath c) c = c.
Proof. revert c. same_field. Qed.

Lemma set_InstanceProfileName_same c :
  set_InstanceProfileName (InstanceProfileName c) c = c.
Proof. revert c. same_field. Qed.

Lemma set_InstanceProfileRoleName_same c :
  set_InstanceProfileRoleName (InstanceProfileRoleName c) c = c.
Proof. revert c. same_field. Qed.

Lemma set_InstanceProfilePolicyName_same c :
  set_InstanceProfilePolicyName (InstanceProfilePolicyName c) c = c.
Proof. revert c. same_field. Qed.

Lemma set_UpdatedAt_same c : set_UpdatedAt (UpdatedAt c) c = c.
Proof. revert c. same_field. Qed.

Lemma set_Instances_same c : set_Instances (Instances c) c = c.
Proof. revert c. same_field. Qed.

(** ** UpdateFromEnvs *)

Section Overlay.

Variable ParseDuration : string -> option Z.
Variable env : gmap string string.

(** A string field with a non-empty override takes the override, on the
    copy the loop works on. *)
Lemma updateField_string prefix name json set cc :
  json <> "" ->
  Getenv env (envKey prefix json) <> "" ->
  updateField ParseDuration env prefix (field name json (StringSlot set)) cc
  = (set (Getenv env (envKey prefix json)) cc, None).
Proof.
  intros Hj Hv. unfold updateField. cbn [fieldJSON fieldSlot fieldName].
  rewrite bool_decide_eq_false_2 by exact Hj.
  rewrite bool_decide_eq_false_2 by exact Hv.
  reflexivity.
Qed.

(** A field without an override is passed over. *)
Lemma updateField_unset prefix f cc :
  Getenv env (envKey prefix (fieldJSON f)) = "" ->
  updateField ParseDuration env prefix f cc = (cc, None).
Proof.
  intros Hv. unfold updateField.
  destruct (bool_decide (fieldJSON f = "")); [reflexivity |].
  rewrite bool_decide_eq_true_2 by exact Hv. reflexivity.
Qed.

End Overlay.


(** ** The map case and the maps of the receiver *)

Lemma setMapIndexAll_other sv pairs l (h : gmap positive (gmap string string)) l' :
  l' <> l -> fst (setMapIndexAll sv pairs l h) !! l' = h !! l'.
Proof.
  intros Hne. revert h.
  induction pairs as [|kv rest IH]; intros h; [reflexivity |].
  cbn [setMapIndexAll].
  destruct (Split kv "=") as [|k [|v [|x t]]]; try reflexivity.
  rewrite IH. apply lookup_insert_ne. congruence.
Qed.

Lemma setMapIndexAll_value sv pairs l (h : gmap positive (gmap string string)) m :
  h !! l = Some m ->
  fst (setMapIndexAll sv pairs l h) !! l = Some (fst (setMapPairs sv pairs m))
  /\ snd (setMapIndexAll sv pairs l h) = snd (setMapPairs sv pairs m).
Proof.
  revert h m.
  induction pairs as [|kv rest IH]; intros h m Hl; [split; [exact Hl | reflexivity] |].
  cbn [setMapIndexAll setMapPairs].
  destruct (Split kv "=") as [|k [|v [|x t]]]; try (split; [exact Hl | reflexivity]).
  apply IH. rewrite Hl. cbn [default]. apply lookup_insert_eq.
Qed.

(** The map objects that were there before the map case are as they were
    after it: the statements write to the new object only.  So the value
    [setMapPairs] computes is what the field of the copy refers to, and the
    maps of the receiver are not written through the copy. *)
Lemma mapCaseOnHeap_spec sv (h : gmap positive (gmap string string)) :
  (forall l', is_Some (h !! l') -> snd (fst (mapCaseOnHeap sv h)) !! l' = h !! l')
  /\ h !! fst (fst (mapCaseOnHeap sv h)) = None
  /\ snd (fst (mapCaseOnHeap sv h)) !! fst (fst (mapCaseOnHeap sv h))
     = Some (fst (setMapPairs sv (Split sv ",") ∅))
  /\ snd (mapCaseOnHeap sv h) = snd (setMapPairs sv (Split sv ",") ∅).
Proof.
  unfold mapCaseOnHeap, makeMap.
  pose proof (is_fresh (dom h)) as Hfresh.
  set (l := fresh (dom h)) in *.
  assert (Hnone : h !! l = None) by (apply not_elem_of_dom; exact Hfresh).
  destruct (setMapIndexAll_value sv (Split sv ",") l (<[l := ∅]> h) ∅
              (lookup_insert_eq h l ∅)) as [Hv He].
  pose proof (fun l' Hne => setMapIndexAll_other sv (Split sv ",") l (<[l := ∅]> h) l' Hne)
    as Ho.
  destruct (setMapIndexAll sv (Split sv ",") l (<[l := ∅]> h)) as [h2 err].
  cbn [fst snd] in *.
  split; [| split; [exact Hnone | split; [exact Hv | exact He]]].
  intros l' [m Hm].
  assert (Hne : l' <> l) by congruence.
  rewrite (Ho l' Hne). apply lookup_insert_ne. congruence.
Qed.

Section OverlayCommit.

Variable ParseDuration : string -> option Z.

(** An environment that overrides the account (a string field, the second
    of the struct) and gives the later boolean field [UploadTesterLogs] a
    literal that is no boolean. *)
Definition overlayEnv : gmap string string :=
  {[ "AWS_K8S_TESTER_EC2_AWS_ACCOUNT_ID" := "123456789012";
     "AWS_K8S_TESTER_EC2_UPLOAD_TESTER_LOGS" := "maybe" ]}.

(** The two struct fields the loop visits first. *)
Definition firstTwoFields : list StructField := take 2 configFields.

(** On [overlayEnv] the loop has put the override of the account into its
    copy when it reaches the field that fails. *)
Example overlayEnv_copy_overridden :
  updateFields ParseDuration overlayEnv envPfx firstTwoFields NewDefault
  = (set_AWSAccountID "123456789012" NewDefault, None).
Proof. vm_compute. reflexivity. Qed.

(** ... and the call fails at the boolean, the receiver being as before. *)
Example overlayEnv_call :
  UpdateFromEnvs ParseDuration overlayEnv NewDefault
  = (NewDefault, Some (ErrParse "maybe" "AWS_K8S_TESTER_EC2_UPLOAD_TESTER_LOGS")).
Proof. vm_compute. reflexivity. Qed.

(** A call that runs to the end stores the copy. *)
Lemma UpdateFromEnvs_success env cfg cc :
  updateFields ParseDuration env (EnvPrefix cfg) configFields cfg = (cc, None) ->
  UpdateFromEnvs ParseDuration env cfg = (cc, None).
Proof. intros H. unfold UpdateFromEnvs. rewrite H. reflexivity. Qed.

(** C3 (as amended): when [UpdateFromEnvs] returns an error, the
    configuration it was called on is left exactly as it was: the overrides
    processed before the failing field were written to the local copy
    [cc], which is stored back into the receiver only when no field fails.
    So no field holds an override after a failing call, and there is nothing
    to roll back. *)
Theorem UpdateFromEnvs_error_leaves_receiver env cfg :
  snd (UpdateFromEnvs ParseDuration env cfg) <> None ->
  fst (UpdateFromEnvs ParseDuration env cfg) = cfg
  /\ snd (updateFields ParseDuration env (EnvPrefix cfg) configFields cfg)
     = snd (UpdateFromEnvs ParseDuration env cfg).
Proof.
  unfold UpdateFromEnvs.
  destruct (updateFields ParseDuration env (EnvPrefix cfg) configFields cfg)
    as [cc [e'|]] eqn:E; cbn [fst snd]; intros H.
  - split; reflexivity.
  - contradiction.
Qed.

End OverlayCommit.

(** The claim C3 in the words of the specification: after a failing call,
    a string field whose non-empty override was processed earlier in the
    pass holds the override.  [seen] are the fields before [f]; the pass
    got past [f] on its copy; "holds [sv]" is said as "assigning [sv] again
    changes nothing". *)
Definition earlier_overrides_stay : Prop :=
  forall (ParseDuration : string -> option Z) env cfg cfg' e seen f rest set sv,
    UpdateFromEnvs ParseDuration env cfg = (cfg', Some e) ->
    configFields = (seen ++ f :: rest)%list ->
    snd (updateFields ParseDuration env (EnvPrefix cfg) (seen ++ [f])%list cfg) = None ->
    fieldSlot f = StringSlot set ->
    sv = Getenv env (envKey (EnvPrefix cfg) (fieldJSON f)) ->
    sv <> "" ->
    set sv cfg' = cfg'.

(** C3 (counterexample): on [NewDefault] with [overlayEnv] the account
    override "123456789012" is processed first and the boolean literal
    "maybe" then fails; after the call [AWSAccountID] is still empty. *)
Lemma earlier_overrides_stay_counterexample : ~ earlier_overrides_stay.
Proof.
  intros H.
  pose (PD := fun _ : string => @None Z).
  specialize (H PD overlayEnv NewDefault NewDefault
                (ErrParse "maybe" "AWS_K8S_TESTER_EC2_UPLOAD_TESTER_LOGS")
                (take 1 configFields)
                (field "AWSAccountID" "aws-account-id" (StringSlot set_AWSAccountID))
                (drop 2 configFields) set_AWSAccountID "123456789012").
  assert (E : set_AWSAccountID "123456789012" NewDefault = NewDefault).
  { apply H.
    - apply overlayEnv_call.
    - reflexivity.
    - vm_compute. reflexivity.
    - reflexivity.
    - vm_compute. reflexivity.
    - discriminate. }
  apply (f_equal AWSAccountID) in E. vm_compute in E. discriminate E.
Qed.

(** C3: the hypothesis of the theorem is met by the call above. *)
Lemma UpdateFromEnvs_error_leaves_receiver_witness :
  snd (UpdateFromEnvs (fun _ => None) overlayEnv NewDefault) <> None
  /\ fst (UpdateFromEnvs (fun _ => None) overlayEnv NewDefault) = NewDefault
  /\ snd (updateFields (fun _ => None) overlayEnv (EnvPrefix NewDefault) configFields
                       NewDefault)
     = snd (UpdateFromEnvs (fun _ => None) overlayEnv NewDefault).
Proof.
  assert (H : snd (UpdateFromEnvs (fun _ => None) overlayEnv NewDefault) <> None).
  { rewrite overlayEnv_call. discriminate. }
  split; [exact H |].
  exact (UpdateFromEnvs_error_leaves_receiver (fun _ => None) overlayEnv NewDefault H).
Defined.

(** ** ValidateAndSetDefaults *)

(** From [(c, r) = (c', None)]: either [r] is an error and the case is
    absurd, or [c'] is [c]. *)
Ltac inv_pair H := first [discriminate H | injection H as <-].


(** Reading a field of a struct after assignments: the assignments to other
    fields are stepped over. *)
Ltac read_fields :=
  cbn [
    set_InitScript set_InitScriptCreated set_Tag set_ClusterName set_ConfigPath
    set_ConfigPathBucket set_LogOutputToUploadPath set_LogOutputs
    set_LogOutputToUploadPathBucket set_KeyName set_KeyPathBucket set_KeyPath
    set_InstanceProfileName set_InstanceProfileRoleName set_InstanceProfilePolicyName
    set_UpdatedAt set_Instances
    EnvPrefix AWSAccountID AWSRegion LogLevel LogOutputs LogOutputToUploadPath
    LogOutputToUploadPathBucket LogOutputToUploadPathURL UploadTesterLogs
    UploadBucketExpireDays Tag Tags ClusterName DestroyAfterCreate DestroyWaitTime
    ConfigPath ConfigPathBucket ConfigPathURL UpdatedAt ImageID UserName Plugins
    InitScript InitScriptCreated InstanceType ClusterSize KeyName KeyPath KeyPathBucket
    KeyPathURL KeyCreateSkip KeyCreated VPCCIDR VPCID VPCCreated InternetGatewayID
    RouteTableIDs SubnetIDs SubnetIDToAvailabilityZone IngressRulesTCP SecurityGroupIDs
    AssociatePublicIPAddress VolumeSize Instances Wait InstanceProfileFilePath
    InstanceProfileName InstanceProfileCreated InstanceProfilePolicyName
    InstanceProfilePolicyARN InstanceProfilePolicy InstanceProfilePolicyCreated
    InstanceProfileRoleName InstanceProfileRoleCreated CustomScript
  ] in *.


(** A statement sequence keeps a field when the field reads the same after
    it, whether it returned an error or not. *)
Definition keeps {A : Type} (P : Config -> A) (m : M) : Prop :=
  forall c, P (fst (m c)) = P c.

Lemma keeps_check {A} (P : Config -> A) cond e : keeps P (check cond e).
Proof. intros c. unfold check. destruct (cond c); reflexivity. Qed.

Lemma keeps_assign {A} (P : Config -> A) f :
  (forall c, P (f c) = P c) -> keeps P (assign f).
Proof. intros H c. apply H. Qed.

Lemma keeps_when {A} (P : Config -> A) cond m : keeps P m -> keeps P (when cond m).
Proof. intros H c. unfold when. destruct (cond c); [apply H | reflexivity]. Qed.

Lemma keeps_andThen {A} (P : Config -> A) m1 m2 :
  keeps P m1 -> keeps P m2 -> keeps P (m1 ;; m2).
Proof.
  intros H1 H2 c. unfold andThen.
  specialize (H1 c). destruct (m1 c) as [c1 [e|]]; cbn [fst] in *.
  - exact H1.
  - rewrite H2. exact H1.
Qed.

(** A statement sequence that only checks leaves the receiver as it is. *)
Definition pure (m : M) : Prop := forall c, fst (m c) = c.

Lemma pure_check cond e : pure (check cond e).
Proof. intros c. unfold check. destruct (cond c); reflexivity. Qed.

Lemma pure_andThen m1 m2 : pure m1 -> pure m2 -> pure (m1 ;; m2).
Proof.
  intros H1 H2 c. unfold andThen.
  specialize (H1 c). destruct (m1 c) as [c1 [e|]]; cbn [fst] in *.
  - exact H1.
  - rewrite H2. exact H1.
Qed.

Lemma check_ok cond e c : cond c = false -> check cond e c = (c, None).
Proof. intros H. unfold check. rewrite H. reflexivity. Qed.

Lemma check_err cond e c : cond c = true -> check cond e c = (c, Some (e c)).
Proof. intros H. unfold check. rewrite H. reflexivity. Qed.

Lemma when_skip cond m c : cond c = false -> when cond m c = (c, None).
Proof. intros H. unfold when. rewrite H. reflexivity. Qed.

Lemma when_run cond m c : cond c = true -> when cond m c = m c.
Proof. intros H. unfold when. rewrite H. reflexivity. Qed.

Section Finalize.

Variable RegionToAiport : gmap string string.
Variable pluginsCreate : string -> string -> list string -> string * option error.
Variable Join : string -> string -> string.

(** The four checks made before anything is written. *)
Definition HeadOK (cfg : Config) : Prop :=
  LogOutputs cfg <> [] /\ AWSRegion cfg <> "" /\ RegionToAiport !! AWSRegion cfg <> None
  /\ UserName cfg <> "" /\ ImageID cfg <> "".

(** The two checks made after the init script. *)
Definition TailOK (cfg : Config) : Prop :=
  InstanceType cfg <> "" /\ 1 <= ClusterSize cfg.

Lemma validateHead_pure : pure (validateHead RegionToAiport).
Proof. unfold validateHead. repeat apply pure_andThen; apply pure_check. Qed.

Lemma validateTail_pure : pure validateTail.
Proof. unfold validateTail. repeat apply pure_andThen; apply pure_check. Qed.

Lemma length_zero_nil {A} (l : list A) : length l = 0%nat <-> l = [].
Proof. destruct l; split; intros H; (reflexivity || discriminate). Qed.

Lemma validateHead_ok cfg :
  HeadOK cfg -> validateHead RegionToAiport cfg = (cfg, None).
Proof.
  intros (H1 & H2 & H3 & H4 & H5). unfold validateHead.
  eapply andThen_ok.
  { apply check_ok. apply bool_decide_eq_false. rewrite length_zero_nil. exact H1. }
  eapply andThen_ok. { apply check_ok. apply isEmpty_false. exact H2. }
  eapply andThen_ok. { apply check_ok. apply bool_decide_eq_false. exact H3. }
  eapply andThen_ok. { apply check_ok. apply isEmpty_false. exact H4. }
  apply check_ok. apply isEmpty_false. exact H5.
Qed.

Lemma validateHead_err cfg :
  ~ HeadOK cfg -> exists e, validateHead RegionToAiport cfg = (cfg, Some e).
Proof.
  intros Hn. unfold validateHead, andThen, check, isEmpty.
  repeat (case_bool_decide; [eexists; reflexivity |]).
  exfalso. apply Hn. unfold HeadOK. rewrite <- length_zero_nil. tauto.
Qed.

Lemma validateHead_inv cfg c' :
  validateHead RegionToAiport cfg = (c', None) -> c' = cfg /\ HeadOK cfg.
Proof.
  intros H. split.
  - rewrite <- (validateHead_pure cfg). rewrite H. reflexivity.
  - destruct (decide (LogOutputs cfg = [])) as [E|E1];
      [|destruct (decide (AWSRegion cfg = "")) as [E|E2];
        [|destruct (decide (RegionToAiport !! AWSRegion cfg = None)) as [E|E3];
          [|destruct (decide (UserName cfg = "")) as [E|E4];
            [|destruct (decide (ImageID cfg = "")) as [E|E5]]]]].
    6: { unfold HeadOK. tauto. }
    all: destruct (validateHead_err cfg) as [e He];
      [unfold HeadOK; tauto | rewrite He in H; discriminate].
Qed.

Lemma validateTail_ok cfg : TailOK cfg -> validateTail cfg = (cfg, None).
Proof.
  intros [H1 H2]. unfold validateTail.
  eapply andThen_ok. { apply check_ok. apply isEmpty_false. exact H1. }
  apply check_ok. apply Z.ltb_ge. exact H2.
Qed.

Lemma validateTail_err cfg : ~ TailOK cfg -> exists e, validateTail cfg = (cfg, Some e).
Proof.
  intros Hn. unfold validateTail, andThen, check, isEmpty.
  case_bool_decide; [eexists; reflexivity |].
  destruct (ClusterSize cfg <? 1) eqn:E; [eexists; reflexivity |].
  exfalso. apply Hn. split; [assumption | apply Z.ltb_ge; exact E].
Qed.

Lemma validateTail_inv cfg c' :
  validateTail cfg = (c', None) -> c' = cfg /\ TailOK cfg.
Proof.
  intros H. split.
  - rewrite <- (validateTail_pure cfg). rewrite H. reflexivity.
  - destruct (decide (InstanceType cfg = "")) as [E|E1].
    + destruct (validateTail_err cfg) as [e He];
        [unfold TailOK; tauto | rewrite He in H; discriminate].
    + destruct (Z_lt_le_dec (ClusterSize cfg) 1) as [E|E2].
      * destruct (validateTail_err cfg) as [e He];
          [unfold TailOK; lia | rewrite He in H; discriminate].
      * split; assumption.
Qed.

(** The init script statement writes [InitScript] and [InitScriptCreated]
    and nothing else, whatever it returns. *)
Lemma createInitScript_frame cfg :
  fst (createInitScript pluginsCreate cfg)
  = set_InitScriptCreated (InitScriptCreated (fst (createInitScript pluginsCreate cfg)))
      (set_InitScript (InitScript (fst (createInitScript pluginsCreate cfg))) cfg).
Proof.
  unfold createInitScript, when.
  destruct (bool_decide (0 < length (Plugins cfg))%nat && negb (InitScriptCreated cfg)).
  - destruct (pluginsCreate (UserName cfg) (CustomScript cfg) (Plugins cfg)) as [s [e|]];
      destruct cfg; reflexivity.
  - destruct cfg; reflexivity.
Qed.

(** It is passed over when no plugin is listed or the script is built. *)
Lemma createInitScript_skip cfg :
  Plugins cfg = [] \/ InitScriptCreated cfg = true ->
  createInitScript pluginsCreate cfg = (cfg, None).
Proof.
  intros H. unfold createInitScript. apply when_skip.
  apply andb_false_iff. destruct H as [H|H].
  - left. apply bool_decide_eq_false. rewrite H. cbn. lia.
  - right. rewrite H. reflexivity.
Qed.

(** After it has returned without error, it would be passed over. *)
Lemma createInitScript_done cfg c' :
  createInitScript pluginsCreate cfg = (c', None) ->
  Plugins c' = [] \/ InitScriptCreated c' = true.
Proof.
  unfold createInitScript, when.
  destruct (bool_decide (0 < length (Plugins cfg))%nat && negb (InitScriptCreated cfg)) eqn:E.
  - destruct (pluginsCreate (UserName cfg) (CustomScript cfg) (Plugins cfg)) as [s [e|]];
      intros H; inv_pair H. right. reflexivity.
  - intros H; inv_pair H.
    apply andb_false_iff in E. destruct E as [E|E].
    + left. apply bool_decide_eq_false in E. destruct (Plugins cfg); [reflexivity |].
      cbn in E. lia.
    + right. destruct (InitScriptCreated cfg); [reflexivity | discriminate].
Qed.

End Finalize.

(** ** A sample run: region table, plugin renderer, path join and world *)

Definition sampleRegions : gmap string string := {[ "us-west-2" := "PDX" ]}.

Definition samplePlugins (userName customScript : string) (plugins : list string)
  : string * option error :=
  ("#!/usr/bin/env bash" ++ String "010" "" ++ customScript, None).

Definition sampleJoin (a b : string) : string := a ++ "/" ++ b.

(** 7 August 2019, 15:04:05; temporary files under /tmp; every path is
    absolute already and every file asked for is there. *)
Definition sampleWorld : World :=
  {| Now := {| Year := 2019; Month := 8; Day := 7; Hour := 15; Minute := 4;
               Second := 5; Nanosecond := 0 |};
     Rand := fun i => (7 * i + 11)%nat;
     TempDir := "/tmp";
     TempFile := fun dir pattern => inl (dir ++ "/" ++ pattern ++ "042");
     Abs := fun p => (p, None);
     Stat := fun _ => None;
     WriteFile := fun _ => None |}.

Section FinalizeFrame.

Variable RegionToAiport : gmap string string.
Variable pluginsCreate : string -> string -> list string -> string * option error.
Variable Join : string -> string -> string.
Variable w : World.

Local Abbreviation VASD := (ValidateAndSetDefaults RegionToAiport pluginsCreate Join w).

(** The statement that reserves a temporary path keeps every field but the
    one it assigns. *)
Lemma keeps_tempPath {A} (P : Config -> A) pattern (set : string -> Config -> Config) :
  (forall p c, P (set p c) = P c) ->
  keeps P (fun cfg => match tempPath w pattern with
                      | inr e => (cfg, Some e)
                      | inl p => (set p cfg, None)
                      end).
Proof. intros H c. destruct (tempPath w pattern); cbn [fst]; [apply H | reflexivity]. Qed.

Ltac keeps_tac :=
  repeat first
    [ apply keeps_andThen
    | apply keeps_when
    | apply keeps_check
    | apply keeps_tempPath; intros; reflexivity
    | apply keeps_assign; intros; reflexivity ].

(** The statements after the init script ([validateTail] to the end). *)
Definition afterInitScript : M :=
  validateTail ;; deriveNames RegionToAiport w ;; deriveConfigPath Join w ;;
  deriveLogOutput Join w ;; deriveKey Join w ;; deriveInstanceProfile w.

Lemma VASD_unfold :
  VASD = (validateHead RegionToAiport ;; createInitScript pluginsCreate ;; afterInitScript).
Proof. reflexivity. Qed.

Lemma afterInitScript_keeps_InitScript : keeps InitScript afterInitScript.
Proof.
  unfold afterInitScript, validateTail, deriveNames, deriveConfigPath, deriveLogOutput,
    deriveKey, deriveInstanceProfile.
  keeps_tac.
Qed.

Lemma afterInitScript_keeps_InitScriptCreated : keeps InitScriptCreated afterInitScript.
Proof.
  unfold afterInitScript, validateTail, deriveNames, deriveConfigPath, deriveLogOutput,
    deriveKey, deriveInstanceProfile.
  keeps_tac.
Qed.

Lemma VASD_keeps_Plugins : keeps Plugins VASD.
Proof.
  unfold ValidateAndSetDefaults, validateHead, createInitScript, validateTail, deriveNames,
    deriveConfigPath, deriveLogOutput, deriveKey, deriveInstanceProfile.
  keeps_tac.
  intros c. destruct (pluginsCreate (UserName c) (CustomScript c) (Plugins c)) as [s [e|]];
    reflexivity.
Qed.

(** C10: when the plugin list is empty, a call of
    [ValidateAndSetDefaults] leaves [InitScript] and [InitScriptCreated] as
    they were, whether the call succeeds or fails; a custom script is
    therefore not put into the init script.  The plugin list stays empty, so
    the same holds at every later call. *)
Theorem no_plugins_init_script_untouched cfg :
  Plugins cfg = [] ->
  InitScript (fst (ValidateAndSetDefaults RegionToAiport pluginsCreate Join w cfg))
  = InitScript cfg
  /\ InitScriptCreated (fst (ValidateAndSetDefaults RegionToAiport pluginsCreate Join w cfg))
     = InitScriptCreated cfg
  /\ Plugins (fst (ValidateAndSetDefaults RegionToAiport pluginsCreate Join w cfg)) = [].
Proof.
  intros Hp.
  assert (Hk : forall {A} (P : Config -> A),
             keeps P afterInitScript -> P (fst (VASD cfg)) = P cfg).
  { intros A P HP. rewrite VASD_unfold. unfold andThen at 1.
    pose proof (validateHead_pure RegionToAiport cfg) as Hh.
    destruct (validateHead RegionToAiport cfg) as [c1 [e|]]; cbn [fst] in Hh; subst c1.
    - reflexivity.
    - unfold andThen. rewrite createInitScript_skip by (left; exact Hp).
      apply HP. }
  split; [|split].
  - apply Hk. apply afterInitScript_keeps_InitScript.
  - apply Hk. apply afterInitScript_keeps_InitScriptCreated.
  - rewrite VASD_keeps_Plugins. exact Hp.
Qed.

(** One of the six checks fails. *)
Definition FailsCheck (cfg : Config) : Prop :=
  LogOutputs cfg = [] \/ AWSRegion cfg = "" \/ RegionToAiport !! AWSRegion cfg = None
  \/ UserName cfg = "" \/ ImageID cfg = "" \/ InstanceType cfg = "" \/ ClusterSize cfg < 1.

(** One of the first four fails. *)
Definition FailsHead (cfg : Config) : Prop :=
  LogOutputs cfg = [] \/ AWSRegion cfg = "" \/ RegionToAiport !! AWSRegion cfg = None
  \/ UserName cfg = "" \/ ImageID cfg = "".

Lemma HeadOK_dec cfg : {HeadOK RegionToAiport cfg} + {FailsHead cfg}.
Proof.
  unfold HeadOK, FailsHead.
  destruct (decide (LogOutputs cfg = [])); [right; tauto |].
  destruct (decide (AWSRegion cfg = "")); [right; tauto |].
  destruct (decide (RegionToAiport !! AWSRegion cfg = None)); [right; tauto |].
  destruct (decide (UserName cfg = "")); [right; tauto |].
  destruct (decide (ImageID cfg = "")); [right; tauto |].
  left. tauto.
Qed.

Lemma FailsHead_not_ok cfg : FailsHead cfg -> ~ HeadOK RegionToAiport cfg.
Proof. unfold FailsHead, HeadOK. tauto. Qed.

(** C4 (as amended): when one of the six checks fails, the call returns an
    error and has written no field other than [InitScript] and
    [InitScriptCreated]; it has written nothing at all when the failing check
    is one of the first four (log outputs, region, user name, image), or when
    no plugin is listed, or when the init script was built before.  (The
    init script is rendered between the fourth and the fifth check, so a
    failure of the instance type or cluster size check comes after it.) *)
Theorem failed_check_writes_at_most_init_script cfg :
  FailsCheck cfg ->
  snd (ValidateAndSetDefaults RegionToAiport pluginsCreate Join w cfg) <> None
  /\ fst (ValidateAndSetDefaults RegionToAiport pluginsCreate Join w cfg)
     = set_InitScriptCreated
         (InitScriptCreated
            (fst (ValidateAndSetDefaults RegionToAiport pluginsCreate Join w cfg)))
         (set_InitScript
            (InitScript
               (fst (ValidateAndSetDefaults RegionToAiport pluginsCreate Join w cfg)))
            cfg)
  /\ (FailsHead cfg \/ Plugins cfg = [] \/ InitScriptCreated cfg = true ->
      fst (ValidateAndSetDefaults RegionToAiport pluginsCreate Join w cfg) = cfg).
Proof.
  intros Hf.
  assert (H : exists c e, VASD cfg = (c, Some e)
              /\ c = set_InitScriptCreated (InitScriptCreated c)
                       (set_InitScript (InitScript c) cfg)
              /\ (FailsHead cfg \/ Plugins cfg = [] \/ InitScriptCreated cfg = true ->
                  c = cfg)).
  { rewrite VASD_unfold.
    destruct (HeadOK_dec cfg) as [Hh|Hh].
    - (* the first four checks pass: the failing one is the fifth or sixth *)
      assert (Ht : ~ TailOK cfg).
      { unfold TailOK. unfold HeadOK in Hh. unfold FailsCheck in Hf. intros [? ?].
        destruct Hf as [?|[?|[?|[?|[?|[?|?]]]]]]; try tauto. lia. }
      pose proof (createInitScript_frame pluginsCreate cfg) as Hfr.
      assert (Hskip : Plugins cfg = [] \/ InitScriptCreated cfg = true ->
                      createInitScript pluginsCreate cfg = (cfg, None))
        by apply createInitScript_skip.
      destruct (createInitScript pluginsCreate cfg) as [c1 [e|]] eqn:E; cbn [fst] in Hfr.
      + exists c1, e. split; [| split; [exact Hfr |]].
        * eapply andThen_ok; [apply validateHead_ok; exact Hh |].
          apply andThen_err. exact E.
        * intros [H|H]; [exfalso; revert Hh; apply FailsHead_not_ok; exact H |].
          specialize (Hskip H). discriminate Hskip.
      + assert (Ht1 : ~ TailOK c1).
        { rewrite Hfr. exact Ht. }
        destruct (validateTail_err c1 Ht1) as [e He].
        exists c1, e. split; [| split; [exact Hfr |]].
        * eapply andThen_ok; [apply validateHead_ok; exact Hh |].
          eapply andThen_ok; [exact E |].
          unfold afterInitScript. apply andThen_err. exact He.
        * intros [H|H]; [exfalso; revert Hh; apply FailsHead_not_ok; exact H |].
          specialize (Hskip H). injection Hskip as ->. reflexivity.
    - destruct (validateHead_err RegionToAiport cfg (FailsHead_not_ok _ Hh)) as [e He].
      exists cfg, e. split; [| split; [| reflexivity]].
      + apply andThen_err. exact He.
      + rewrite set_InitScript_same, set_InitScriptCreated_same. reflexivity. }
  destruct H as (c & e & Hv & Hfr & Hsame). rewrite Hv. cbn [fst snd].
  split; [discriminate | split; assumption].
Qed.

End FinalizeFrame.

(** The default configuration with its plugin list emptied and a custom
    script given. *)
Definition noPlugins : Config :=
  set_CustomScript "echo hello" (set_Plugins [] NewDefault).

(** C10: the hypothesis of the theorem is met by [noPlugins]. *)
Lemma no_plugins_init_script_untouched_witness :
  Plugins noPlugins = []
  /\ InitScript
       (fst (ValidateAndSetDefaults sampleRegions samplePlugins sampleJoin sampleWorld
               noPlugins))
     = InitScript noPlugins
  /\ InitScriptCreated
       (fst (ValidateAndSetDefaults sampleRegions samplePlugins sampleJoin sampleWorld
               noPlugins))
     = InitScriptCreated noPlugins
  /\ Plugins
       (fst (ValidateAndSetDefaults sampleRegions samplePlugins sampleJoin sampleWorld
               noPlugins))
     = [].
Proof.
  split; [reflexivity |].
  apply (no_plugins_init_script_untouched sampleRegions samplePlugins sampleJoin
           sampleWorld noPlugins).
  reflexivity.
Defined.

(** The default configuration with its instance type emptied: the fifth
    check fails. *)
Definition noInstanceType : Config := set_InstanceType "" NewDefault.

(** The claim C4 in the words of the specification: a call on which one of
    the six checks fails returns an error and has written nothing. *)
Definition failed_check_writes_nothing : Prop :=
  forall RegionToAiport pluginsCreate Join w cfg,
    FailsCheck RegionToAiport cfg ->
    exists e,
      ValidateAndSetDefaults RegionToAiport pluginsCreate Join w cfg = (cfg, Some e).

(** On [noInstanceType] the call fails with "empty InstanceType" after the
    init script has been rendered and its flag set. *)
Example noInstanceType_call :
  ValidateAndSetDefaults sampleRegions samplePlugins sampleJoin sampleWorld noInstanceType
  = (set_InitScriptCreated true
       (set_InitScript ("#!/usr/bin/env bash" ++ String "010" (String "010" ""))
          noInstanceType),
     Some ErrEmptyInstanceType).
Proof. vm_compute. reflexivity. Qed.

(** C4 (counterexample): the default configuration with an empty instance
    type fails the fifth check, and the call has by then written the init
    script and set [InitScriptCreated]. *)
Lemma failed_check_writes_nothing_counterexample : ~ failed_check_writes_nothing.
Proof.
  intros H.
  destruct (H sampleRegions samplePlugins sampleJoin sampleWorld noInstanceType) as [e He].
  - unfold FailsCheck. do 5 right. left. reflexivity.
  - rewrite noInstanceType_call in He.
    apply (f_equal (fun r => InitScriptCreated (fst r))) in He.
    vm_compute in He. discriminate He.
Qed.

(** C4: the hypothesis of the theorem is met by [noInstanceType]. *)
Lemma failed_check_writes_at_most_init_script_witness :
  FailsCheck sampleRegions noInstanceType
  /\ snd (ValidateAndSetDefaults sampleRegions samplePlugins sampleJoin sampleWorld
            noInstanceType) <> None
  /\ fst (ValidateAndSetDefaults sampleRegions samplePlugins sampleJoin sampleWorld
            noInstanceType)
     = set_InitScriptCreated
         (InitScriptCreated
            (fst (ValidateAndSetDefaults sampleRegions samplePlugins sampleJoin
                    sampleWorld noInstanceType)))
         (set_InitScript
            (InitScript
               (fst (ValidateAndSetDefaults sampleRegions samplePlugins sampleJoin
                       sampleWorld noInstanceType)))
            noInstanceType)
  /\ (FailsHead sampleRegions noInstanceType \/ Plugins noInstanceType = []
      \/ InitScriptCreated noInstanceType = true ->
      fst (ValidateAndSetDefaults sampleRegions samplePlugins sampleJoin sampleWorld
             noInstanceType)
      = noInstanceType).
Proof.
  assert (H : FailsCheck sampleRegions noInstanceType).
  { unfold FailsCheck. do 5 right. left. reflexivity. }
  split; [exact H |].
  exact (failed_check_writes_at_most_init_script sampleRegions samplePlugins sampleJoin
           sampleWorld noInstanceType H).
Defined.

(** ** The statements that derive fields, one by one *)

Lemma append_nonempty_l (a b : string) : a <> "" -> a ++ b <> "".
Proof. destruct a; [congruence | discriminate]. Qed.

Lemma genTag_nonempty now : genTag now <> "".
Proof. unfold genTag. discriminate. Qed.

Section InitScriptStage.

Variable pluginsCreate : string -> string -> list string -> string * option error.

Lemma createInitScript_inv cfg c' :
  createInitScript pluginsCreate cfg = (c', None) ->
  exists s b,
    c' = set_InitScriptCreated b (set_InitScript s cfg)
    /\ (Plugins cfg = [] \/ b = true).
Proof.
  intros H. exists (InitScript c'), (InitScriptCreated c').
  pose proof (createInitScript_frame pluginsCreate cfg) as Hfr.
  pose proof (createInitScript_done pluginsCreate cfg c' H) as Hd.
  rewrite H in Hfr. cbn [fst] in Hfr. split; [exact Hfr |].
  destruct Hd as [Hd|Hd]; [left | right; exact Hd].
  rewrite Hfr in Hd. exact Hd.
Qed.

End InitScriptStage.

Section NamesStage.

Variable RegionToAiport : gmap string string.
Variable w : World.

(** The cluster name made from a tag and a region. *)
Definition nameFor (tag region : string) : string :=
  tag ++ "-" ++ ToLower (default "" (RegionToAiport !! region)) ++ "-" ++ region ++ "-"
      ++ randString w 5.

Lemma deriveNames_spec cfg :
  exists tag name,
    deriveNames RegionToAiport w cfg = (set_ClusterName name (set_Tag tag cfg), None)
    /\ (Tag cfg = "" -> tag = genTag (Now w))
    /\ (Tag cfg <> "" -> tag = Tag cfg)
    /\ (ClusterName cfg = "" -> name = nameFor tag (AWSRegion cfg))
    /\ (ClusterName cfg <> "" -> name = ClusterName cfg)
    /\ tag <> "" /\ name <> "".
Proof.
  unfold deriveNames, andThen, when, assign, isEmpty.
  destruct (decide (Tag cfg = "")) as [Ht|Ht];
    destruct (decide (ClusterName cfg = "")) as [Hn|Hn].
  - exists (genTag (Now w)), (nameFor (genTag (Now w)) (AWSRegion cfg)).
    rewrite (bool_decide_eq_true_2 _ Ht).
    change (ClusterName (set_Tag (genTag (Now w)) cfg)) with (ClusterName cfg).
    rewrite (bool_decide_eq_true_2 _ Hn).
    repeat split; try tauto; try discriminate.
  - exists (genTag (Now w)), (ClusterName cfg).
    rewrite (bool_decide_eq_true_2 _ Ht).
    change (ClusterName (set_Tag (genTag (Now w)) cfg)) with (ClusterName cfg).
    rewrite (bool_decide_eq_false_2 _ Hn).
    repeat split; try tauto; try discriminate.
  - exists (Tag cfg), (nameFor (Tag cfg) (AWSRegion cfg)).
    rewrite (bool_decide_eq_false_2 _ Ht).
    rewrite (bool_decide_eq_true_2 _ Hn).
    split; [reflexivity |].
    repeat split; try tauto.
    unfold nameFor. apply append_nonempty_l. exact Ht.
  - exists (Tag cfg), (ClusterName cfg).
    rewrite (bool_decide_eq_false_2 _ Ht).
    rewrite (bool_decide_eq_false_2 _ Hn).
    split; [destruct cfg; reflexivity |].
    repeat split; tauto.
Qed.

End NamesStage.

Section PathStages.

Variable Join : string -> string -> string.
Variable w : World.

Lemma deriveConfigPath_inv cfg c' :
  deriveConfigPath Join w cfg = (c', None) ->
  exists p,
    c' = set_ConfigPathBucket (Join (ClusterName cfg) "ec2config.yaml") (set_ConfigPath p cfg)
    /\ (ConfigPath cfg <> "" -> p = ConfigPath cfg).
Proof.
  unfold deriveConfigPath, andThen, when, assign, isEmpty.
  destruct (decide (ConfigPath cfg = "")) as [Hp|Hp].
  - rewrite (bool_decide_eq_true_2 _ Hp).
    destruct (tempPath w "ec2config") as [p|e]; intros H; inv_pair H.
    exists p. split; [reflexivity | tauto].
  - rewrite (bool_decide_eq_false_2 _ Hp). intros H; inv_pair H.
    exists (ConfigPath cfg). split; [| tauto].
    destruct cfg; reflexivity.
Qed.

(** The path of the log file to upload. *)
Definition logPathFor (tmp : string) (cfg : Config) : string :=
  Join tmp (ClusterName cfg ++ ".log").

Lemma existsb_eq_In (x : string) (l : list string) :
  existsb (fun lv => bool_decide (x = lv)) l = true <-> In x l.
Proof.
  rewrite existsb_exists. split.
  - intros (y & Hy & E). apply bool_decide_eq_true in E. subst. exact Hy.
  - intros H. exists x. split; [exact H | apply bool_decide_eq_true; reflexivity].
Qed.

Lemma deriveLogOutput_spec cfg :
  exists l,
    deriveLogOutput Join w cfg
    = (set_LogOutputToUploadPathBucket (Join (ClusterName cfg) "ec2.log")
         (set_LogOutputs l (set_LogOutputToUploadPath (logPathFor (TempDir w) cfg) cfg)),
       None)
    /\ In (logPathFor (TempDir w) cfg) l
    /\ (In (logPathFor (TempDir w) cfg) (LogOutputs cfg) -> l = LogOutputs cfg)
    /\ (~ In (logPathFor (TempDir w) cfg) (LogOutputs cfg) ->
        l = (LogOutputs cfg ++ [logPathFor (TempDir w) cfg])%list).
Proof.
  unfold deriveLogOutput, andThen, when, assign.
  cbn [fst snd].
  change (LogOutputToUploadPath
            (set_LogOutputToUploadPath (Join (TempDir w) (ClusterName cfg ++ ".log")) cfg))
    with (logPathFor (TempDir w) cfg).
  change (LogOutputs
            (set_LogOutputToUploadPath (Join (TempDir w) (ClusterName cfg ++ ".log")) cfg))
    with (LogOutputs cfg).
  destruct (existsb (fun lv => bool_decide (logPathFor (TempDir w) cfg = lv))
                    (LogOutputs cfg)) eqn:E; cbn [negb].
  - apply existsb_eq_In in E. exists (LogOutputs cfg).
    split; [| split; [exact E | split; [reflexivity | tauto]]].
    destruct cfg; reflexivity.
  - assert (Hn : ~ In (logPathFor (TempDir w) cfg) (LogOutputs cfg)).
    { intros H. apply existsb_eq_In in H. congruence. }
    exists (LogOutputs cfg ++ [logPathFor (TempDir w) cfg])%list.
    split; [reflexivity |]. split; [| split; [tauto | reflexivity]].
    apply in_or_app. right. left. reflexivity.
Qed.

Lemma deriveKey_inv cfg c' :
  deriveKey Join w cfg = (c', None) ->
  exists kn kp,
    c' = set_KeyPath kp (set_KeyPathBucket (Join (ClusterName cfg) "ec2.key")
                           (set_KeyName kn cfg))
    /\ (KeyName cfg = "" -> kn = ClusterName cfg)
    /\ (KeyName cfg <> "" -> kn = KeyName cfg)
    /\ (KeyPath cfg <> "" -> kp = KeyPath cfg).
Proof.
  unfold deriveKey, andThen, when, assign, isEmpty.
  destruct (decide (KeyName cfg = "")) as [Hn|Hn];
    [rewrite (bool_decide_eq_true_2 _ Hn) | rewrite (bool_decide_eq_false_2 _ Hn)];
    cbn [fst snd];
    (destruct (decide (KeyPath cfg = "")) as [Hp|Hp];
     [ match goal with |- context [bool_decide (KeyPath ?c = "")] =>
         change (KeyPath c) with (KeyPath cfg) end;
       rewrite (bool_decide_eq_true_2 _ Hp);
       destruct (tempPath w "ec2.key") as [p|e]; intros H; inv_pair H
     | match goal with |- context [bool_decide (KeyPath ?c = "")] =>
         change (KeyPath c) with (KeyPath cfg) end;
       rewrite (bool_decide_eq_false_2 _ Hp); intros H; inv_pair H ]).
  all: first
    [ exists (ClusterName cfg), p;
      solve [split; [first [reflexivity | destruct cfg; reflexivity] | repeat split; tauto]]
    | exists (ClusterName cfg), (KeyPath cfg);
      solve [split; [first [reflexivity | destruct cfg; reflexivity] | repeat split; tauto]]
    | exists (KeyName cfg), p;
      solve [split; [first [reflexivity | destruct cfg; reflexivity] | repeat split; tauto]]
    | exists (KeyName cfg), (KeyPath cfg);
      solve [split; [first [reflexivity | destruct cfg; reflexivity] | repeat split; tauto]] ].
Qed.

Lemma deriveInstanceProfile_inv cfg c' :
  deriveInstanceProfile w cfg = (c', None) ->
  (InstanceProfileFilePath cfg = "" /\ c' = cfg)
  \/ (InstanceProfileFilePath cfg <> "" /\ Stat w (InstanceProfileFilePath cfg) = None
      /\ c' = set_InstanceProfilePolicyName
                ((ClusterName cfg ++ "-instance-profile") ++ "-policy")
                (set_InstanceProfileRoleName
                   ((ClusterName cfg ++ "-instance-profile") ++ "-role")
                   (set_InstanceProfileName (ClusterName cfg ++ "-instance-profile") cfg))).
Proof.
  unfold deriveInstanceProfile, when, isEmpty.
  destruct (decide (InstanceProfileFilePath cfg = "")) as [Hp|Hp].
  - rewrite (bool_decide_eq_true_2 _ Hp). cbn [negb]. intros H; inv_pair H. left. split; [exact Hp | reflexivity].
  - rewrite (bool_decide_eq_false_2 _ Hp). cbn [negb].
    unfold andThen, check, assign.
    destruct (Stat w (InstanceProfileFilePath cfg)) as [e|] eqn:Es.
    + rewrite bool_decide_eq_true_2 by discriminate. intros H; discriminate H.
    + rewrite bool_decide_eq_false_2 by (intros Hc; apply Hc; reflexivity).
      intros H; inv_pair H. right. split; [exact Hp | split; [reflexivity |]].
      reflexivity.
Qed.

End PathStages.

(** ** What a successful call leaves *)

(** The values a successful call settles on: the init script and its flag,
    tag, cluster name, configuration path, log outputs, key name, key path,
    and whether the instance profile names were derived. *)
Record Derived := {
  d_script : string;
  d_created : bool;
  d_tag : string;
  d_name : string;
  d_configPath : string;
  d_logOutputs : list string;
  d_keyName : string;
  d_keyPath : string;
  d_profile : bool
}.

Section FinalizeShape.

Variable RegionToAiport : gmap string string.
Variable pluginsCreate : string -> string -> list string -> string * option error.
Variable Join : string -> string -> string.

(** The instance profile names, assigned in the order of the source. *)
Definition withProfile (name : string) (cfg : Config) : Config :=
  set_InstanceProfilePolicyName ((name ++ "-instance-profile") ++ "-policy")
    (set_InstanceProfileRoleName ((name ++ "-instance-profile") ++ "-role")
       (set_InstanceProfileName (name ++ "-instance-profile") cfg)).

(** The receiver after the assignments of a successful call, in the order
    of the source. *)
Definition finalized (tmp : string) (d : Derived) (cfg : Config) : Config :=
  (if d_profile d then withProfile (d_name d) else fun c => c)
    (set_KeyPath (d_keyPath d)
    (set_KeyPathBucket (Join (d_name d) "ec2.key")
    (set_KeyName (d_keyName d)
    (set_LogOutputToUploadPathBucket (Join (d_name d) "ec2.log")
    (set_LogOutputs (d_logOutputs d)
    (set_LogOutputToUploadPath (Join tmp (d_name d ++ ".log"))
    (set_ConfigPathBucket (Join (d_name d) "ec2config.yaml")
    (set_ConfigPath (d_configPath d)
    (set_ClusterName (d_name d)
    (set_Tag (d_tag d)
    (set_InitScriptCreated (d_created d)
    (set_InitScript (d_script d) cfg)))))))))))).

(** How the settled values come from the configuration the call was made
    on. *)
Definition derivedFrom (w : World) (cfg : Config) (d : Derived) : Prop :=
  (Plugins cfg = [] \/ d_created d = true)
  /\ (Tag cfg = "" -> d_tag d = genTag (Now w))
  /\ (Tag cfg <> "" -> d_tag d = Tag cfg)
  /\ (ClusterName cfg = "" -> d_name d = nameFor RegionToAiport w (d_tag d) (AWSRegion cfg))
  /\ (ClusterName cfg <> "" -> d_name d = ClusterName cfg)
  /\ d_tag d <> "" /\ d_name d <> ""
  /\ (ConfigPath cfg <> "" -> d_configPath d = ConfigPath cfg)
  /\ In (Join (TempDir w) (d_name d ++ ".log")) (d_logOutputs d)
  /\ (In (Join (TempDir w) (d_name d ++ ".log")) (LogOutputs cfg) ->
      d_logOutputs d = LogOutputs cfg)
  /\ (~ In (Join (TempDir w) (d_name d ++ ".log")) (LogOutputs cfg) ->
      d_logOutputs d = (LogOutputs cfg ++ [Join (TempDir w) (d_name d ++ ".log")])%list)
  /\ (KeyName cfg = "" -> d_keyName d = d_name d)
  /\ (KeyName cfg <> "" -> d_keyName d = KeyName cfg)
  /\ (KeyPath cfg <> "" -> d_keyPath d = KeyPath cfg)
  /\ (d_profile d = false -> InstanceProfileFilePath cfg = "")
  /\ (d_profile d = true ->
      InstanceProfileFilePath cfg <> "" /\ Stat w (InstanceProfileFilePath cfg) = None).

(** A call that returns no error went through both groups of checks and
    made the assignments of [finalized]. *)
Lemma ValidateAndSetDefaults_success w cfg cfg1 :
  ValidateAndSetDefaults RegionToAiport pluginsCreate Join w cfg = (cfg1, None) ->
  HeadOK RegionToAiport cfg /\ TailOK cfg
  /\ exists d, derivedFrom w cfg d /\ cfg1 = finalized (TempDir w) d cfg.
Proof.
  intros H. unfold ValidateAndSetDefaults in H.
  apply andThen_inv_ok in H. destruct H as (c1 & H1 & H).
  apply validateHead_inv in H1. destruct H1 as [-> Hhead].
  apply andThen_inv_ok in H. destruct H as (c2 & H2 & H).
  apply createInitScript_inv in H2. destruct H2 as (s & b & -> & Hplug).
  apply andThen_inv_ok in H. destruct H as (c3 & H3 & H).
  apply validateTail_inv in H3. destruct H3 as [-> Htail].
  apply andThen_inv_ok in H. destruct H as (c4 & H4 & H).
  destruct (deriveNames_spec RegionToAiport w
              (set_InitScriptCreated b (set_InitScript s cfg)))
    as (tag & name & Hn & Ht1 & Ht2 & Hn1 & Hn2 & Ht3 & Hn3).
  rewrite Hn in H4. injection H4 as <-. clear Hn.
  apply andThen_inv_ok in H. destruct H as (c5 & H5 & H).
  apply deriveConfigPath_inv in H5. destruct H5 as (p & -> & Hp).
  apply andThen_inv_ok in H. destruct H as (c6 & H6 & H).
  match type of H6 with deriveLogOutput _ _ ?c = _ =>
    destruct (deriveLogOutput_spec Join w c) as (l & Hl & Hl1 & Hl2 & Hl3) end.
  rewrite Hl in H6. injection H6 as <-. clear Hl.
  apply andThen_inv_ok in H. destruct H as (c7 & H7 & H).
  apply deriveKey_inv in H7. destruct H7 as (kn & kp & -> & Hk1 & Hk2 & Hk3).
  apply deriveInstanceProfile_inv in H.
  unfold logPathFor in *. read_fields.
  split; [exact Hhead |]. split; [exact Htail |].
  destruct H as [[Hi ->] | (Hi & Hs & ->)].
  - exists {| d_script := s; d_created := b; d_tag := tag; d_name := name;
              d_configPath := p; d_logOutputs := l; d_keyName := kn; d_keyPath := kp;
              d_profile := false |}.
    split; [| reflexivity].
    unfold derivedFrom. cbn [d_script d_created d_tag d_name d_configPath d_logOutputs
                              d_keyName d_keyPath d_profile].
    repeat split; auto; discriminate.
  - exists {| d_script := s; d_created := b; d_tag := tag; d_name := name;
              d_configPath := p; d_logOutputs := l; d_keyName := kn; d_keyPath := kp;
              d_profile := true |}.
    split; [| reflexivity].
    unfold derivedFrom. cbn [d_script d_created d_tag d_name d_configPath d_logOutputs
                              d_keyName d_keyPath d_profile].
    repeat split; auto; try discriminate.
    all: intros _; split; assumption.
Qed.

End FinalizeShape.

(** ** genTag and randString *)

Lemma length_append (a b : string) :
  String.length (a ++ b) = (String.length a + String.length b)%nat.
Proof.
  induction a as [|c a IH]; [reflexivity |].
  change (S (String.length (a ++ b)) = S (String.length a + String.length b)).
  rewrite IH. reflexivity.
Qed.

Lemma allBytes_append p (a b : string) :
  allBytes p (a ++ b) = allBytes p a && allBytes p b.
Proof.
  induction a as [|c a IH]; [reflexivity |].
  change (p c && allBytes p (a ++ b) = p c && allBytes p a && allBytes p b).
  rewrite IH. apply andb_assoc.
Qed.

Lemma length_string_of_list_ascii l :
  String.length (string_of_list_ascii l) = length l.
Proof.
  induction l as [|a l IH]; [reflexivity |].
  change (S (String.length (string_of_list_ascii l)) = S (length l)).
  rewrite IH. reflexivity.
Qed.

Lemma allBytes_string_of_list_ascii p l :
  allBytes p (string_of_list_ascii l) = forallb p l.
Proof.
  induction l as [|a l IH]; [reflexivity |].
  change (p a && allBytes p (string_of_list_ascii l) = p a && forallb p l).
  rewrite IH. reflexivity.
Qed.

(** A property checked on every number below a bound holds of each. *)
Lemma below_checked (P : nat -> bool) (n k : nat) :
  forallb P (seq 0 n) = true -> (k < n)%nat -> P k = true.
Proof.
  intros H Hk. rewrite forallb_forall in H. apply H. apply in_seq. lia.
Qed.

(** Every byte of [ll] is a digit or a lower-case letter. *)
Lemma ll_bytes k :
  (k < String.length ll)%nat ->
  isLowerAlnum (nth k (list_ascii_of_string ll) "0"%char) = true.
Proof.
  apply (below_checked
           (fun k => isLowerAlnum (nth k (list_ascii_of_string ll) "0"%char))).
  vm_compute. reflexivity.
Qed.

Lemma randString_length w n : String.length (randString w n) = n.
Proof.
  unfold randString. rewrite length_string_of_list_ascii, length_map, length_seq.
  reflexivity.
Qed.

Lemma randString_bytes w n : allBytes isLowerAlnum (randString w n) = true.
Proof.
  unfold randString. rewrite allBytes_string_of_list_ascii.
  apply forallb_forall. intros a Ha. apply in_map_iff in Ha.
  destruct Ha as (i & <- & _). apply ll_bytes.
  unfold Intn. apply Nat.mod_upper_bound. vm_compute. discriminate.
Qed.

(** The verb [%02d] on 0..99 prints two digits, and so does [%d] on
    10..99. *)
Lemma pad2_two_digits z :
  0 <= z <= 99 ->
  String.length (Fmt.pad2 z) = 2%nat /\ allBytes isDigit (Fmt.pad2 z) = true.
Proof.
  intros Hz.
  pose (P := fun k : nat =>
    let s := Fmt.pad2 (Z.of_nat k) in
    (Nat.eqb (String.length s) 2 && allBytes isDigit s)%bool).
  assert (H : P (Z.to_nat z) = true).
  { apply (below_checked P 100); [vm_compute; reflexivity | lia]. }
  unfold P in H. rewrite Z2Nat.id in H by lia.
  apply andb_true_iff in H. destruct H as [H1 H2].
  apply Nat.eqb_eq in H1. split; assumption.
Qed.

Lemma itoa_two_digits z :
  10 <= z <= 99 ->
  String.length (Fmt.itoa z) = 2%nat /\ allBytes isDigit (Fmt.itoa z) = true.
Proof.
  intros Hz.
  pose (P := fun k : nat =>
    let s := Fmt.itoa (Z.of_nat k) in
    (Nat.ltb k 10 || (Nat.eqb (String.length s) 2 && allBytes isDigit s))%bool).
  assert (H : P (Z.to_nat z) = true).
  { apply (below_checked P 100); [vm_compute; reflexivity | lia]. }
  unfold P in H. rewrite Z2Nat.id in H by lia.
  apply orb_true_iff in H. destruct H as [H|H].
  - apply Nat.ltb_lt in H. lia.
  - apply andb_true_iff in H. destruct H as [H1 H2].
    apply Nat.eqb_eq in H1. split; assumption.
Qed.

(** A clock reading whose year is 2010..2099 and whose month, day and hour
    are those of a calendar. *)
Definition inCalendar (now : Time) : Prop :=
  2010 <= Year now <= 2099 /\ 1 <= Month now <= 12 /\ 1 <= Day now <= 31
  /\ 0 <= Hour now <= 23.

(** For such a reading the tag is "ec2-" and eight digits. *)
Lemma genTag_width now :
  inCalendar now ->
  exists d, genTag now = "ec2-" ++ d /\ String.length d = 8%nat
            /\ allBytes isDigit d = true.
Proof.
  intros (Hy & Hm & Hd & Hh).
  exists (Fmt.itoa (Year now - 2000) ++ Fmt.pad2 (Month now) ++ Fmt.pad2 (Day now)
            ++ Fmt.pad2 (Hour now)).
  destruct (itoa_two_digits (Year now - 2000)) as [L1 D1]; [lia |].
  destruct (pad2_two_digits (Month now)) as [L2 D2]; [lia |].
  destruct (pad2_two_digits (Day now)) as [L3 D3]; [lia |].
  destruct (pad2_two_digits (Hour now)) as [L4 D4]; [lia |].
  split; [reflexivity |]. split.
  - rewrite !length_append, L1, L2, L3, L4. reflexivity.
  - rewrite !allBytes_append, D1, D2, D3, D4. reflexivity.
Qed.

Section TagAndName.

Variable RegionToAiport : gmap string string.
Variable pluginsCreate : string -> string -> list string -> string * option error.
Variable Join : string -> string -> string.
Variable w : World.

(** A successful call leaves the tag and the cluster name it settled on. *)
Lemma success_Tag_ClusterName cfg cfg1 d :
  cfg1 = finalized Join (TempDir w) d cfg ->
  Tag cfg1 = d_tag d /\ ClusterName cfg1 = d_name d.
Proof.
  intros ->. unfold finalized, withProfile. destruct (d_profile d); split; reflexivity.
Qed.

(** C8 (as amended): after a successful call,
    - a tag that was empty is the text "ec2-" followed by the year minus
      2000 in decimal and the month, day and hour of the clock, each padded
      to two digits; for a clock reading in the years 2010 to 2099 that is
      "ec2-" and eight digits;
    - a cluster name that was empty is the tag, the lower-cased label of the
      region, the region and five random bytes, joined by hyphens, the
      random bytes being digits or lower-case letters;
    - a tag or cluster name that was not empty is as it was. *)
Theorem tag_and_cluster_name_derived cfg cfg1 :
  ValidateAndSetDefaults RegionToAiport pluginsCreate Join w cfg = (cfg1, None) ->
  (Tag cfg = "" ->
   Tag cfg1 = "ec2-" ++ Fmt.itoa (Year (Now w) - 2000) ++ Fmt.pad2 (Month (Now w))
                     ++ Fmt.pad2 (Day (Now w)) ++ Fmt.pad2 (Hour (Now w)))
  /\ (Tag cfg = "" -> inCalendar (Now w) ->
      exists d, Tag cfg1 = "ec2-" ++ d /\ String.length d = 8%nat
                /\ allBytes isDigit d = true)
  /\ (Tag cfg <> "" -> Tag cfg1 = Tag cfg)
  /\ (ClusterName cfg = "" ->
      exists airport,
        RegionToAiport !! AWSRegion cfg = Some airport
        /\ ClusterName cfg1
           = Tag cfg1 ++ "-" ++ ToLower airport ++ "-" ++ AWSRegion cfg ++ "-"
                      ++ randString w 5)
  /\ String.length (randString w 5) = 5%nat
  /\ allBytes isLowerAlnum (randString w 5) = true
  /\ (ClusterName cfg <> "" -> ClusterName cfg1 = ClusterName cfg).
Proof.
  intros H.
  apply ValidateAndSetDefaults_success in H.
  destruct H as (Hhead & _ & d & Hd & Hc).
  apply success_Tag_ClusterName in Hc. destruct Hc as [-> ->].
  destruct Hd as (_ & Ht1 & Ht2 & Hn1 & Hn2 & _).
  split; [| split; [| split; [| split; [| split; [| split]]]]].
  - intros E. rewrite (Ht1 E). reflexivity.
  - intros E Hcal. rewrite (Ht1 E). apply genTag_width. exact Hcal.
  - exact Ht2.
  - intros E. destruct Hhead as (_ & _ & Hr & _).
    destruct (RegionToAiport !! AWSRegion cfg) as [airport|] eqn:Er; [| congruence].
    exists airport. split; [reflexivity |].
    rewrite (Hn1 E). unfold nameFor. rewrite Er. reflexivity.
  - apply randString_length.
  - apply randString_bytes.
  - exact Hn2.
Qed.

End TagAndName.

(** The default configuration after a call in the sample world. *)
Definition sampleFinal : Config :=
  fst (ValidateAndSetDefaults sampleRegions samplePlugins sampleJoin sampleWorld NewDefault).

Example sampleFinal_call :
  ValidateAndSetDefaults sampleRegions samplePlugins sampleJoin sampleWorld NewDefault
  = (sampleFinal, None).
Proof. vm_compute. reflexivity. Qed.

Example sampleFinal_Tag : Tag sampleFinal = "ec2-19080715".
Proof. vm_compute. reflexivity. Qed.

Example sampleFinal_ClusterName :
  ClusterName sampleFinal = "ec2-19080715-pdx-us-west-2-bipw3".
Proof. vm_compute. reflexivity. Qed.

(** The claim C8 on the tag, in the words of the specification: a tag
    that was empty is, after a successful call, a numeric string of fixed
    width (two digits each for year, month, day and hour). *)
Definition tag_is_numeric : Prop :=
  forall RegionToAiport pluginsCreate Join w cfg cfg1,
    ValidateAndSetDefaults RegionToAiport pluginsCreate Join w cfg = (cfg1, None) ->
    Tag cfg = "" ->
    String.length (Tag cfg1) = 8%nat /\ allBytes isDigit (Tag cfg1) = true.

(** C8 (counterexample): the default configuration, finalized at 15
    o'clock on 7 August 2019, gets the tag "ec2-19080715": twelve bytes,
    the first four of them not digits. *)
Lemma tag_is_numeric_counterexample : ~ tag_is_numeric.
Proof.
  intros H.
  destruct (H sampleRegions samplePlugins sampleJoin sampleWorld NewDefault sampleFinal
              sampleFinal_call eq_refl) as [Hlen _].
  rewrite sampleFinal_Tag in Hlen. vm_compute in Hlen. discriminate Hlen.
Qed.

(** C8: the hypotheses of the theorem are met by the default configuration
    in the sample world. *)
Lemma tag_and_cluster_name_derived_witness :
  ValidateAndSetDefaults sampleRegions samplePlugins sampleJoin sampleWorld NewDefault
  = (sampleFinal, None)
  /\ Tag sampleFinal
     = "ec2-" ++ Fmt.itoa (Year (Now sampleWorld) - 2000)
              ++ Fmt.pad2 (Month (Now sampleWorld)) ++ Fmt.pad2 (Day (Now sampleWorld))
              ++ Fmt.pad2 (Hour (Now sampleWorld)).
Proof.
  split; [exact sampleFinal_call |].
  apply (tag_and_cluster_name_derived sampleRegions samplePlugins sampleJoin sampleWorld
           NewDefault sampleFinal sampleFinal_call).
  reflexivity.
Defined.

(** ** Calling ValidateAndSetDefaults again *)

Section Again.

Variable RegionToAiport : gmap string string.
Variable pluginsCreate : string -> string -> list string -> string * option error.
Variable Join : string -> string -> string.

(** The plugin renderer at the second call: any function at all, to show
    that the second call does not depend on what it returns. *)
Variable pluginsCreate2 : string -> string -> list string -> string * option error.

(** What holds of a configuration that a call has finalized with temporary
    directory [tmp]: the checks pass, the init script needs no rendering,
    and each derived field holds what the call would compute for it. *)
Definition Finalized (tmp : string) (c : Config) : Prop :=
  HeadOK RegionToAiport c
  /\ (Plugins c = [] \/ InitScriptCreated c = true)
  /\ TailOK c
  /\ Tag c <> "" /\ ClusterName c <> ""
  /\ ConfigPathBucket c = Join (ClusterName c) "ec2config.yaml"
  /\ LogOutputToUploadPath c = Join tmp (ClusterName c ++ ".log")
  /\ In (LogOutputToUploadPath c) (LogOutputs c)
  /\ LogOutputToUploadPathBucket c = Join (ClusterName c) "ec2.log"
  /\ KeyName c <> ""
  /\ KeyPathBucket c = Join (ClusterName c) "ec2.key"
  /\ (InstanceProfileFilePath c <> "" ->
      InstanceProfileName c = ClusterName c ++ "-instance-profile"
      /\ InstanceProfileRoleName c = InstanceProfileName c ++ "-role"
      /\ InstanceProfilePolicyName c = InstanceProfileName c ++ "-policy").

Lemma in_nonempty {A} (x : A) (l : list A) : In x l -> l <> [].
Proof. destruct l; [intros [] | discriminate]. Qed.

(** A successful call finalizes; the log outputs it leaves are those it
    was given, with the log file to upload added at the end if it was not
    among them. *)
Lemma success_Finalized w cfg cfg1 :
  ValidateAndSetDefaults RegionToAiport pluginsCreate Join w cfg = (cfg1, None) ->
  Finalized (TempDir w) cfg1
  /\ InstanceProfileFilePath cfg1 = InstanceProfileFilePath cfg
  /\ (In (LogOutputToUploadPath cfg1) (LogOutputs cfg) -> LogOutputs cfg1 = LogOutputs cfg)
  /\ (~ In (LogOutputToUploadPath cfg1) (LogOutputs cfg) ->
      LogOutputs cfg1 = (LogOutputs cfg ++ [LogOutputToUploadPath cfg1])%list).
Proof.
  intros H. apply ValidateAndSetDefaults_success in H.
  destruct H as (Hhead & Htail & d & Hd & ->).
  destruct Hd as (Hpl & _ & _ & _ & _ & Ht & Hn & _ & Hl1 & Hl2 & Hl3 & Hk1 & Hk2 & _
                  & Hp1 & Hp2).
  destruct Hhead as (_ & Hh2 & Hh3 & Hh4 & Hh5).
  assert (Hkn : d_keyName d <> "").
  { destruct (decide (KeyName cfg = "")) as [E|E].
    - rewrite (Hk1 E). exact Hn.
    - rewrite (Hk2 E). exact E. }
  unfold Finalized, HeadOK, TailOK, finalized, withProfile.
  destruct (d_profile d) eqn:Ep; read_fields.
  - destruct (Hp2 eq_refl) as [Hp _].
    repeat split; try assumption; try apply Htail; try tauto.
    eapply in_nonempty. exact Hl1.
  - specialize (Hp1 eq_refl).
    repeat split; try assumption; try apply Htail; try tauto.
    eapply in_nonempty. exact Hl1.
Qed.

(** On a finalized configuration whose paths are set, a call changes
    nothing and returns no error, provided the instance profile file (if one
    is named) is there. *)
Lemma Finalized_fixed w c :
  Finalized (TempDir w) c ->
  ConfigPath c <> "" ->
  KeyPath c <> "" ->
  (InstanceProfileFilePath c <> "" -> Stat w (InstanceProfileFilePath c) = None) ->
  ValidateAndSetDefaults RegionToAiport pluginsCreate2 Join w c = (c, None).
Proof.
  intros (Hhead & Hpl & Htail & Ht & Hn & Hcb & Hlp & Hin & Hlb & Hkn & Hkb & Hprof)
         Hcp Hkp Hstat.
  unfold ValidateAndSetDefaults.
  eapply andThen_ok; [apply validateHead_ok; exact Hhead |].
  eapply andThen_ok; [apply createInitScript_skip; exact Hpl |].
  eapply andThen_ok; [apply validateTail_ok; exact Htail |].
  eapply andThen_ok.
  { unfold deriveNames.
    eapply andThen_ok; apply when_skip; apply isEmpty_false; assumption. }
  eapply andThen_ok.
  { unfold deriveConfigPath.
    eapply andThen_ok; [apply when_skip; apply isEmpty_false; exact Hcp |].
    unfold assign. rewrite <- Hcb, set_ConfigPathBucket_same. reflexivity. }
  eapply andThen_ok.
  { unfold deriveLogOutput.
    eapply andThen_ok.
    { unfold assign. rewrite <- Hlp, set_LogOutputToUploadPath_same. reflexivity. }
    eapply andThen_ok.
    { apply when_skip. apply negb_false_iff. apply existsb_eq_In. exact Hin. }
    unfold assign. rewrite <- Hlb, set_LogOutputToUploadPathBucket_same. reflexivity. }
  eapply andThen_ok.
  { unfold deriveKey.
    eapply andThen_ok; [apply when_skip; apply isEmpty_false; exact Hkn |].
    eapply andThen_ok.
    { unfold assign. rewrite <- Hkb, set_KeyPathBucket_same. reflexivity. }
    apply when_skip. apply isEmpty_false. exact Hkp. }
  unfold deriveInstanceProfile.
  destruct (decide (InstanceProfileFilePath c = "")) as [E|E].
  - apply when_skip. apply negb_false_iff. apply isEmpty_true. exact E.
  - rewrite when_run by (apply negb_true_iff; apply isEmpty_false; exact E).
    destruct (Hprof E) as (Hp1 & Hp2 & Hp3).
    eapply andThen_ok.
    { apply check_ok. apply bool_decide_eq_false. rewrite (Hstat E).
      intros Hc. apply Hc. reflexivity. }
    eapply andThen_ok.
    { unfold assign. rewrite <- Hp1, set_InstanceProfileName_same. reflexivity. }
    eapply andThen_ok.
    { unfold assign. rewrite <- Hp2, set_InstanceProfileRoleName_same. reflexivity. }
    unfold assign. rewrite <- Hp3, set_InstanceProfilePolicyName_same. reflexivity.
Qed.

Lemma count_occ_le_one_in (l : list string) (x : string) :
  In x l -> (count_occ string_dec l x <= 1)%nat -> count_occ string_dec l x = 1%nat.
Proof.
  intros Hin Hle. apply (count_occ_In string_dec) in Hin. lia.
Qed.

(** C5 (as amended): let a first call have succeeded, leaving [cfg1] with
    a configuration path and a key path that are not empty, and let a second
    call be made on [cfg1] as it is, with the same temporary directory and
    with the instance profile file (if one is named) still there.  Then the
    second call succeeds and returns [cfg1] itself: tag, cluster name,
    configuration path, key name and key path are as they were, the init
    script is not rendered again (whatever the plugin renderer would return
    at the second call), the storage keys are written with the values they
    had, and no entry is added to the log outputs.  The log file
    to upload is among the log outputs; it occurs there exactly once if the
    log outputs given to the first call held it at most once. *)
Theorem second_call_is_identity w1 w2 cfg cfg1 :
  ValidateAndSetDefaults RegionToAiport pluginsCreate Join w1 cfg = (cfg1, None) ->
  TempDir w2 = TempDir w1 ->
  (InstanceProfileFilePath cfg <> "" -> Stat w2 (InstanceProfileFilePath cfg) = None) ->
  ConfigPath cfg1 <> "" ->
  KeyPath cfg1 <> "" ->
  ValidateAndSetDefaults RegionToAiport pluginsCreate2 Join w2 cfg1 = (cfg1, None)
  /\ In (LogOutputToUploadPath cfg1) (LogOutputs cfg1)
  /\ ((count_occ string_dec (LogOutputs cfg) (LogOutputToUploadPath cfg1) <= 1)%nat ->
      count_occ string_dec (LogOutputs cfg1) (LogOutputToUploadPath cfg1) = 1%nat).
Proof.
  intros H Htmp Hstat Hcp Hkp.
  apply success_Finalized in H. destruct H as (Hfin & Hipf & Hl1 & Hl2).
  split; [| split].
  - apply Finalized_fixed; try assumption.
    + rewrite Htmp. exact Hfin.
    + rewrite Hipf. exact Hstat.
  - apply Hfin.
  - intros Hle.
    destruct (in_dec string_dec (LogOutputToUploadPath cfg1) (LogOutputs cfg)) as [Hin|Hin].
    + rewrite (Hl1 Hin). apply count_occ_le_one_in; assumption.
    + rewrite (Hl2 Hin). rewrite count_occ_app.
      apply (count_occ_not_In string_dec) in Hin. rewrite Hin.
      cbn. destruct (string_dec _ _); [reflexivity | congruence].
Qed.

End Again.

(** A configuration named "x" whose log outputs already hold the log file
    to upload twice. *)
Definition twiceLogged : Config :=
  set_LogOutputs ["/tmp/x.log"; "/tmp/x.log"] (set_ClusterName "x" NewDefault).

(** The claim C5 on the log outputs, in the words of the specification:
    after two successful calls the derived log file occurs exactly once
    among the log outputs. *)
Definition log_path_exactly_once : Prop :=
  forall RegionToAiport pluginsCreate Join w1 w2 cfg cfg1 cfg2,
    ValidateAndSetDefaults RegionToAiport pluginsCreate Join w1 cfg = (cfg1, None) ->
    ValidateAndSetDefaults RegionToAiport pluginsCreate Join w2 cfg1 = (cfg2, None) ->
    TempDir w2 = TempDir w1 ->
    count_occ string_dec (LogOutputs cfg2) (LogOutputToUploadPath cfg2) = 1%nat.

Definition twiceLoggedFinal : Config :=
  fst (ValidateAndSetDefaults sampleRegions samplePlugins sampleJoin sampleWorld twiceLogged).

Example twiceLogged_first_call :
  ValidateAndSetDefaults sampleRegions samplePlugins sampleJoin sampleWorld twiceLogged
  = (twiceLoggedFinal, None).
Proof. vm_compute. reflexivity. Qed.

Example twiceLogged_second_call :
  ValidateAndSetDefaults sampleRegions samplePlugins sampleJoin sampleWorld twiceLoggedFinal
  = (twiceLoggedFinal, None).
Proof. vm_compute. reflexivity. Qed.

Example twiceLogged_outputs :
  LogOutputToUploadPath twiceLoggedFinal = "/tmp/x.log"
  /\ LogOutputs twiceLoggedFinal = ["/tmp/x.log"; "/tmp/x.log"].
Proof. vm_compute. split; reflexivity. Qed.

(** C5 (counterexample): a configuration whose log outputs name
    "/tmp/x.log" twice and whose cluster name is "x" is finalized twice with
    temporary directory "/tmp"; both calls succeed and find the derived log
    file "/tmp/x.log" in the list, which still holds it twice. *)
Lemma log_path_exactly_once_counterexample : ~ log_path_exactly_once.
Proof.
  intros H.
  specialize (H sampleRegions samplePlugins sampleJoin sampleWorld sampleWorld
                twiceLogged twiceLoggedFinal twiceLoggedFinal
                twiceLogged_first_call twiceLogged_second_call eq_refl).
  destruct twiceLogged_outputs as [Ep El]. rewrite Ep, El in H.
  vm_compute in H. discriminate H.
Qed.

(** A plugin renderer that fails whenever it is called. *)
Definition failingPlugins (userName customScript : string) (plugins : list string)
  : string * option error :=
  ("", Some (ErrLib "plugin not found")).

(** C5: the hypotheses of the theorem are met by the default configuration
    finalized twice in the sample world, the second time with a plugin
    renderer that would fail. *)
Lemma second_call_is_identity_witness :
  ValidateAndSetDefaults sampleRegions samplePlugins sampleJoin sampleWorld NewDefault
  = (sampleFinal, None)
  /\ ConfigPath sampleFinal <> "" /\ KeyPath sampleFinal <> ""
  /\ ValidateAndSetDefaults sampleRegions failingPlugins sampleJoin sampleWorld sampleFinal
     = (sampleFinal, None).
Proof.
  split; [exact sampleFinal_call |].
  split; [vm_compute; discriminate |].
  split; [vm_compute; discriminate |].
  apply (second_call_is_identity sampleRegions samplePlugins sampleJoin failingPlugins
           sampleWorld sampleWorld NewDefault sampleFinal sampleFinal_call eq_refl).
  - intros Hc. exfalso. apply Hc. reflexivity.
  - vm_compute. discriminate.
  - vm_compute. discriminate.
Defined.

(** *** Why the theorem for C5 speaks of the operating system

    The second call reads the temporary directory and looks for the
    instance profile file again, and it reserves a path again where the first
    call was left without one. *)

(** The sample world with another temporary directory. *)
Definition otherTempDir : World :=
  {| Now := Now sampleWorld; Rand := Rand sampleWorld; TempDir := "/var/tmp";
     TempFile := TempFile sampleWorld; Abs := Abs sampleWorld; Stat := Stat sampleWorld;
     WriteFile := WriteFile sampleWorld |}.

(** With another temporary directory the second call derives another log
    file and adds it to the log outputs. *)
Example second_call_other_temp_dir :
  LogOutputs sampleFinal = ["stderr"; "/tmp/ec2-19080715-pdx-us-west-2-bipw3.log"]
  /\ LogOutputs
       (fst (ValidateAndSetDefaults sampleRegions samplePlugins sampleJoin otherTempDir
               sampleFinal))
     = ["stderr"; "/tmp/ec2-19080715-pdx-us-west-2-bipw3.log";
        "/var/tmp/ec2-19080715-pdx-us-west-2-bipw3.log"].
Proof. vm_compute. split; reflexivity. Qed.

(** The sample world after the instance profile file has gone. *)
Definition profileGone : World :=
  {| Now := Now sampleWorld; Rand := Rand sampleWorld; TempDir := TempDir sampleWorld;
     TempFile := TempFile sampleWorld; Abs := Abs sampleWorld;
     Stat := fun _ => Some (ErrLib "stat: no such file or directory");
     WriteFile := WriteFile sampleWorld |}.

Definition withProfileFile : Config :=
  set_InstanceProfileFilePath "/tmp/profile.json" NewDefault.

(** When the instance profile file has gone in between, the second call
    fails. *)
Example second_call_profile_gone :
  snd (ValidateAndSetDefaults sampleRegions samplePlugins sampleJoin sampleWorld
         withProfileFile) = None
  /\ snd (ValidateAndSetDefaults sampleRegions samplePlugins sampleJoin profileGone
            (fst (ValidateAndSetDefaults sampleRegions samplePlugins sampleJoin sampleWorld
                    withProfileFile)))
     = Some (ErrInstanceProfile "/tmp/profile.json").
Proof. vm_compute. split; reflexivity. Qed.

(** The sample world with [filepath.Abs] failing: it returns the empty
    path and an error, which [ValidateAndSetDefaults] drops. *)
Definition absFails : World :=
  {| Now := Now sampleWorld; Rand := Rand sampleWorld; TempDir := TempDir sampleWorld;
     TempFile := TempFile sampleWorld;
     Abs := fun _ => ("", Some (ErrLib "getwd: no such file or directory"));
     Stat := Stat sampleWorld; WriteFile := WriteFile sampleWorld |}.

(** A first call in that world succeeds with the configuration path
    empty, and a second call, in the sample world, then sets it. *)
Example second_call_after_abs_failed :
  snd (ValidateAndSetDefaults sampleRegions samplePlugins sampleJoin absFails NewDefault)
  = None
  /\ ConfigPath
       (fst (ValidateAndSetDefaults sampleRegions samplePlugins sampleJoin absFails
               NewDefault))
     = ""
  /\ ConfigPath
       (fst (ValidateAndSetDefaults sampleRegions samplePlugins sampleJoin sampleWorld
               (fst (ValidateAndSetDefaults sampleRegions samplePlugins sampleJoin absFails
                       NewDefault))))
     = "/tmp/ec2config042".
Proof. vm_compute. repeat split; reflexivity. Qed.

(** ** Load and Sync *)

Section Persist.

Variable Marshal : Config -> string + error.
Variable Unmarshal : string -> Config + error.

(** What [Load] makes of a stored document: the configuration read from
    it, with a nil instance map made empty and the path replaced by the
    absolute form of the place it was loaded from. *)
Definition loaded (q : string) (c : Config) : Config :=
  set_ConfigPath q (set_Instances (Some (default ∅ (Instances c))) c).

Lemma Load_stored w (fs : gmap string string) p d c q :
  fs !! p = Some d ->
  Unmarshal d = inl c ->
  Abs w p = (q, None) ->
  Load Unmarshal w fs p = inl (loaded q c).
Proof.
  intros Hf Hu Ha. unfold Load, loaded. rewrite Hf, Hu, Ha.
  destruct (Instances c) as [m|] eqn:Ei.
  - case_bool_decide; f_equal; destruct c; cbn in Ei; subst; reflexivity.
  - case_bool_decide; f_equal; destruct c; cbn in Ei; subst; reflexivity.
Qed.




End Persist.

(** ** Strings that are not valid UTF-8 *)




(** U+FFFD in UTF-8. *)
Definition replacementChar : string := String "239" (String "191" (String "189" "")).

(** A serializer that stands for the one of the program where the tag is
    concerned: the encoder writes the tag with U+FFFD for the byte 0xFF, the
    decoder reads a document that is free of that byte as the tag of
    [base]. *)
Definition tagCodec (base : Config)
  : (Config -> string + error) * (string -> Config + error) :=
  (fun c => inl (Replace (Tag c) (String "255" "") replacementChar),
   fun d => if hasByte "255" d then inr (ErrLib "yaml: invalid UTF-8")
            else inl (set_Tag d base)).


(** A configuration whose tag is the one byte 0xFF. *)
Definition invalidTag : Config := set_Tag (String "255" "") NewDefault.

(** A codec that knows one document: it writes "config" for every
    configuration and reads every document as [c]. *)
Definition oneDocument (c : Config) : (Config -> string + error) * (string -> Config + error) :=
  (fun _ => inl "config", fun _ => inl c).

(** The default configuration with a relative path. *)
Definition relativePath : Config := set_ConfigPath "test.yaml" NewDefault.

(** A world whose working directory is /home/tester. *)
Definition homeWorld : World :=
  {| Now := Now sampleWorld;
     Rand := Rand sampleWorld;
     TempDir := "/tmp";
     TempFile := TempFile sampleWorld;
     Abs := fun p => if IsAbs p then (p, None) else ("/home/tester/" ++ p, None);
     Stat := fun _ => None;
     WriteFile := fun _ => None |}.

Definition relativePathSynced : Config :=
  set_UpdatedAt (Now homeWorld) (set_ConfigPath "/home/tester/test.yaml" relativePath).

(** [invalidTag] at the path /tmp/ec2.yaml, and what [Sync] makes of it in
    [homeWorld]. *)
Definition invalidTagAtPath : Config := set_ConfigPath "/tmp/ec2.yaml" invalidTag.

Definition invalidTagSynced : Config := set_UpdatedAt (Now homeWorld) invalidTagAtPath.


(** [Load] then returns the configuration with the tag U+FFFD, not with
    the byte 0xFF. *)
Example invalidTag_loaded :
  Load (snd (tagCodec invalidTagSynced)) homeWorld
       {[ "/tmp/ec2.yaml" := replacementChar ]} "/tmp/ec2.yaml"
  = inl (set_Instances (Some ∅) (set_Tag replacementChar invalidTagSynced)).
Proof. vm_compute. reflexivity. Qed.


End Ec2configFacts.

(** * Properties of package ng *)

Module NgFacts.
Import GoStrings Ng.

Set Default Proof Using "Type".

(** ** writeConfigMapAuth *)

(** The template text before the action and after it. *)
Definition docHead : string :=
"---
apiVersion: v1
kind: ConfigMap
metadata:
  name: aws-auth
  namespace: kube-system
data:
  mapRoles: |
    - rolearn: ".

Definition formatTail : string :=
"
      %s
      groups:
      - system:bootstrappers
      - system:nodes
".

(** [formatTail] with the username line in place of the verb. *)
Definition docTail : string :=
"
      username: system:node:{{EC2PrivateDNSName}}
      groups:
      - system:bootstrappers
      - system:nodes
".

Lemma configMapAuthTempl_parsed :
  Template.Parse configMapAuthTempl
  = Some [Template.TextNode docHead; Template.FieldNode "NGInstanceRoleARN";
          Template.TextNode formatTail].
Proof. vm_compute. reflexivity. Qed.

(** The executed template is the head, the ARN as it is, and the tail. *)
Lemma configMapAuthTempl_executed arn :
  Template.Execute
    [Template.TextNode docHead; Template.FieldNode "NGInstanceRoleARN";
     Template.TextNode formatTail]
    (configMapAuthField {| NGInstanceRoleARN := arn |})
  = Some (docHead ++ arn ++ formatTail).
Proof.
  vm_compute. reflexivity.
Qed.

(** [Sprintf] copies text that holds no percent sign. *)
Lemma sprintfFrom_text s rest arg :
  hasByte "%" s = false ->
  Fmt.sprintfFrom (s ++ rest) arg = option_map (String.append s) (Fmt.sprintfFrom rest arg).
Proof.
  induction s as [|c s IH]; intros H.
  - change ("" ++ rest) with rest. destruct (Fmt.sprintfFrom rest arg); reflexivity.
  - cbn [hasByte] in H. destruct (Ascii.eqb c "%") eqn:Ec; [discriminate |].
    apply Ascii.eqb_neq in Ec.
    change (String c s ++ rest) with (String c (s ++ rest)).
    assert (Hstep : Fmt.sprintfFrom (String c (s ++ rest)) arg
                    = option_map (String c) (Fmt.sprintfFrom (s ++ rest) arg)).
    { destruct c as [[] [] [] [] [] [] [] []]; try reflexivity.
      exfalso. apply Ec. reflexivity. }
    rewrite Hstep, (IH H).
    destruct (Fmt.sprintfFrom rest arg); reflexivity.
Qed.

Lemma hasByte_append c a b : hasByte c (a ++ b) = hasByte c a || hasByte c b.
Proof.
  induction a as [|x a IH]; [reflexivity |].
  change (hasByte c (String x (a ++ b))
          = hasByte c (String x a) || hasByte c b).
  cbn [hasByte]. destruct (Ascii.eqb x c); [reflexivity | exact IH].
Qed.

Lemma append_assoc (a b c : string) : (a ++ b) ++ c = a ++ b ++ c.
Proof.
  induction a as [|x a IH]; [reflexivity |].
  change (String x ((a ++ b) ++ c) = String x (a ++ b ++ c)). rewrite IH. reflexivity.
Qed.

(** The document for an ARN without a percent sign. *)
Lemma configMapAuthText_plain arn :
  hasByte "%" arn = false ->
  configMapAuthText arn = Some (docHead ++ arn ++ docTail).
Proof.
  intros H. unfold configMapAuthText.
  rewrite configMapAuthTempl_parsed, configMapAuthTempl_executed.
  unfold Fmt.Sprintf1.
  rewrite <- append_assoc.
  rewrite sprintfFrom_text.
  - replace (Fmt.sprintfFrom formatTail (Some usernameLine)) with (Some docTail)
      by (vm_compute; reflexivity).
    cbn [option_map]. rewrite append_assoc. reflexivity.
  - rewrite hasByte_append, H. vm_compute. reflexivity.
Qed.

(** Text that holds no opening brace holds no placeholder, and none
    begins in it. *)
Lemma countFrom_text s rest :
  hasByte "{" s = false ->
  countFrom 0 placeholder (s ++ rest) = countFrom 0 placeholder rest.
Proof.
  induction s as [|c s IH]; intros H; [reflexivity |].
  cbn [hasByte] in H. destruct (Ascii.eqb c "{") eqn:Ec; [discriminate |].
  change (String c s ++ rest) with (String c (s ++ rest)).
  cbn [countFrom]. unfold placeholder at 1. cbn [HasPrefix]. rewrite Ec.
  apply IH. exact H.
Qed.

(** A prefix that holds no line feed does not reach into text that begins
    with one. *)
Lemma HasPrefix_before_line_feed x t p :
  hasByte "010" p = false ->
  HasPrefix (x ++ String "010" t) p = HasPrefix x p.
Proof.
  revert p. induction x as [|a x IH]; intros [|b p] H; try reflexivity.
  - cbn [hasByte] in H. destruct (Ascii.eqb b "010") eqn:Eb; [discriminate |].
    change ("" ++ String "010" t) with (String "010" t).
    cbn [HasPrefix]. rewrite Ascii.eqb_sym, Eb. reflexivity.
  - cbn [hasByte] in H. destruct (Ascii.eqb b "010") eqn:Eb; [discriminate |].
    change (String a x ++ String "010" t) with (String a (x ++ String "010" t)).
    cbn [HasPrefix]. destruct (Ascii.eqb a b); [apply IH; exact H | reflexivity].
Qed.

Lemma HasPrefix_length s p :
  HasPrefix s p = true -> (String.length p <= String.length s)%nat.
Proof.
  revert s. induction p as [|b p IH]; intros [|a s] H; cbn [String.length].
  - lia.
  - lia.
  - discriminate H.
  - cbn [HasPrefix] in H. destruct (Ascii.eqb a b); [| discriminate].
    specialize (IH s H). lia.
Qed.

(** Counting in a text that is followed by a line feed: the occurrences
    in the text, and those after it. *)
Lemma countFrom_before_line_feed sub s t skip :
  hasByte "010" sub = false ->
  (skip <= String.length s)%nat ->
  countFrom skip sub (s ++ String "010" t)
  = (countFrom skip sub s + countFrom 0 sub (String "010" t))%nat.
Proof.
  intros Hsub. revert skip. induction s as [|a s IH]; intros skip Hskip.
  - cbn [String.length] in Hskip. replace skip with 0%nat by lia. reflexivity.
  - change (String a s ++ String "010" t) with (String a (s ++ String "010" t)).
    cbn [String.length] in Hskip. destruct skip as [|k].
    + cbn [countFrom].
      change (String a (s ++ String "010" t)) with (String a s ++ String "010" t).
      rewrite (HasPrefix_before_line_feed (String a s) t sub Hsub).
      destruct (HasPrefix (String a s) sub) eqn:Ep.
      * apply HasPrefix_length in Ep. cbn [String.length] in Ep.
        rewrite IH by lia. reflexivity.
      * apply IH. lia.
    + cbn [countFrom]. apply IH. lia.
Qed.

Lemma Count_docTail : countFrom 0 placeholder docTail = 1%nat.
Proof. vm_compute. reflexivity. Qed.

(** The placeholders of the document are the one of the username line
    and those of the ARN. *)
Lemma Count_document arn :
  Count (docHead ++ arn ++ docTail) placeholder = S (Count arn placeholder).
Proof.
  unfold Count. rewrite countFrom_text by (vm_compute; reflexivity).
  assert (Htail : exists t, docTail = String "010" t) by (eexists; reflexivity).
  destruct Htail as [t Ht]. rewrite Ht.
  rewrite countFrom_before_line_feed by (first [vm_compute; reflexivity | lia]).
  rewrite <- Ht, Count_docTail. lia.
Qed.

(** C9 (as amended): for every role ARN that holds no percent sign, the
    text that [writeConfigMapAuth] writes is the template with the ARN,
    byte for byte, in place of the action [{{.NGInstanceRoleARN}}] (so
    "rolearn: " is followed by the ARN) and with the line
    "username: system:node:{{EC2PrivateDNSName}}" in place of [%s]; the file
    at the returned path holds that text; and the placeholder
    [{{EC2PrivateDNSName}}] occurs in the text once more than it occurs in
    the ARN: exactly once when the ARN does not hold it, and more than once
    when it does. *)
Theorem writeConfigMapAuth_document WriteTempFile (fs : gmap string string) arn :
  hasByte "%" arn = false ->
  configMapAuthText arn = Some (docHead ++ arn ++ docTail)
  /\ (forall p, WriteTempFile (docHead ++ arn ++ docTail) = inl p ->
      writeConfigMapAuth WriteTempFile fs arn
      = Some (<[p := docHead ++ arn ++ docTail]> fs, inl p))
  /\ Count (docHead ++ arn ++ docTail) placeholder = S (Count arn placeholder)
  /\ (Count arn placeholder = 0%nat <->
      Count (docHead ++ arn ++ docTail) placeholder = 1%nat).
Proof.
  intros H. pose proof (configMapAuthText_plain arn H) as Ht.
  split; [exact Ht |]. split; [| split].
  - intros p Hp. unfold writeConfigMapAuth. rewrite Ht, Hp. reflexivity.
  - apply Count_document.
  - rewrite Count_document. lia.
Qed.

(** A role ARN, with a path, in which the placeholder itself occurs. *)
Definition arnWithPlaceholder : string :=
  "arn:aws:iam::123456789012:role/{{EC2PrivateDNSName}}/nodes".

(** The claim C9 on the placeholder, in the words of the specification:
    for every role ARN string the document holds the placeholder exactly
    once. *)
Definition placeholder_exactly_once : Prop :=
  forall arn doc, configMapAuthText arn = Some doc -> Count doc placeholder = 1%nat.

(** C9 (counterexample): the ARN
    "arn:aws:iam::123456789012:role/{{EC2PrivateDNSName}}/nodes" is put into
    the document as it is, and the document then holds the placeholder
    twice. *)
Lemma placeholder_exactly_once_counterexample : ~ placeholder_exactly_once.
Proof.
  intros H.
  specialize (H arnWithPlaceholder (docHead ++ arnWithPlaceholder ++ docTail)).
  assert (E : Count (docHead ++ arnWithPlaceholder ++ docTail) placeholder = 2%nat)
    by (vm_compute; reflexivity).
  rewrite H in E; [discriminate E |].
  apply configMapAuthText_plain. vm_compute. reflexivity.
Qed.

(** An ARN that is a verb of [fmt] takes the operand meant for the
    template's own [%s]: the rolearn value is then the username line and not
    the ARN, and the template's verb finds no operand. *)
Example configMapAuthText_verb :
  configMapAuthText "%s"
  = Some (docHead ++ usernameLine ++ String "010" "      %!s(MISSING)"
            ++ String "010" "      groups:" ++ String "010" "      - system:bootstrappers"
            ++ String "010" "      - system:nodes" ++ String "010" "").
Proof. vm_compute. reflexivity. Qed.

(** A role ARN with braces in its path that are not the placeholder. *)
Definition arnWithBraces : string := "arn:aws:iam::123456789012:role/{team}/nodes".

(** C9: the hypothesis of the theorem is met by [arnWithBraces], whose
    document holds the placeholder once, and by [arnWithPlaceholder], whose
    document holds it twice. *)
Lemma writeConfigMapAuth_document_witness :
  hasByte "%" arnWithBraces = false
  /\ hasByte "%" arnWithPlaceholder = false
  /\ configMapAuthText arnWithBraces = Some (docHead ++ arnWithBraces ++ docTail)
  /\ Count (docHead ++ arnWithBraces ++ docTail) placeholder = 1%nat
  /\ Count (docHead ++ arnWithPlaceholder ++ docTail) placeholder = 2%nat.
Proof.
  assert (H1 : hasByte "%" arnWithBraces = false) by (vm_compute; reflexivity).
  assert (H2 : hasByte "%" arnWithPlaceholder = false) by (vm_compute; reflexivity).
  split; [exact H1 |]. split; [exact H2 |].
  pose proof (writeConfigMapAuth_document (fun _ => inl "/tmp/configmap") ∅
                arnWithBraces H1) as (Ht & _ & Hc & _).
  pose proof (writeConfigMapAuth_document (fun _ => inl "/tmp/configmap") ∅
                arnWithPlaceholder H2) as (_ & _ & Hc2 & _).
  split; [exact Ht |]. split.
  - rewrite Hc. vm_compute. reflexivity.
  - rewrite Hc2. vm_compute. reflexivity.
Defined.

(** ** createConfigMap *)

Local Open Scope list_scope.

Section Loop.

Variable cfg : EKSConfig.
Variable syncErr : option error.
Variable WriteTempFile : string -> string + error.

(** A turn of the loop in which the deadline has not passed, the timer
    fired and the command returned no error. *)
Definition applied (r : Round) : Prop :=
  elapsed r < waitDur /\ selected r = After5s /\ cmdErr r = None.

(** The command line of an attempt. *)
Definition applyOf (p : string) : Event :=
  EvApply (KubectlPath cfg) ("--kubeconfig=" +:+ KubeConfigPath cfg) ("--filename=" +:+ p).

(** What such a turn does: the command, its output printed, and the two
    statements that report a failure. *)
Definition appliedEvents (p : string) (r : Round) : list Event :=
  [ applyOf p;
    EvPrintf (output r);
    EvWarn "create ConfigMap failed" None;
    EvRecordStatus "create ConfigMap failed (<nil>)" ].

(** After turns in which the command returned no error the loop goes
    on with the turns that follow. *)
Lemma retryLoop_applied p pre rest :
  Forall applied pre ->
  retryLoop cfg syncErr p (pre ++ rest)
  = (flat_map (appliedEvents p) pre ++ fst (retryLoop cfg syncErr p rest),
     snd (retryLoop cfg syncErr p rest)).
Proof.
  induction 1 as [|r pre (Hd & Hs & He) _ IH].
  - cbn [app flat_map]. destruct (retryLoop cfg syncErr p rest); reflexivity.
  - change ((r :: pre) ++ rest) with (r :: (pre ++ rest)).
    cbn [retryLoop]. apply Z.ltb_lt in Hd. rewrite Hd, Hs, He, IH. reflexivity.
Qed.

Lemma attempts_app l1 l2 : attempts (l1 ++ l2) = (attempts l1 + attempts l2)%nat.
Proof. unfold attempts. rewrite filter_app, length_app. reflexivity. Qed.

Lemma attempts_applied p pre :
  attempts (flat_map (appliedEvents p) pre) = length pre.
Proof.
  induction pre as [|r pre IH]; [reflexivity |].
  cbn [flat_map]. rewrite attempts_app, IH. reflexivity.
Qed.

(** When the file has been written at [p], the call is the loop on [p]. *)
Lemma createConfigMap_written (fs fs' : gmap string string) p rounds :
  writeConfigMapAuth WriteTempFile fs (RoleARN cfg) = Some (fs', inl p) ->
  createConfigMap cfg syncErr WriteTempFile fs rounds
  = Some (fs', (EvInfo "writing ConfigMap" :: fst (retryLoop cfg syncErr p rounds),
               snd (retryLoop cfg syncErr p rounds))).
Proof.
  intros H. unfold createConfigMap, afterWrite. rewrite H.
  destruct (retryLoop cfg syncErr p rounds); reflexivity.
Qed.

(** C6: let [createConfigMap] have written its file at [p] and come to a
    turn [r] of the loop with the deadline not yet passed (every turn before
    it applied the file and went on), and let the [select] of that turn take
    the stop channel or the signal channel.  Then the call returns the abort
    error at once: what it has done is what the earlier turns did (one
    attempt each), the file is not applied in this turn, and the turns that
    would follow are never looked at, however far off the deadline is. *)
Theorem stop_in_wait_aborts (fs fs' : gmap string string) p pre r post :
  writeConfigMapAuth WriteTempFile fs (RoleARN cfg) = Some (fs', inl p) ->
  Forall applied pre ->
  elapsed r < waitDur ->
  selected r = Stopc \/ selected r = Sig ->
  createConfigMap cfg syncErr WriteTempFile fs (pre ++ r :: post)
  = Some (fs', (EvInfo "writing ConfigMap" :: flat_map (appliedEvents p) pre,
               Returned (Some ErrAborted)))
  /\ attempts (EvInfo "writing ConfigMap" :: flat_map (appliedEvents p) pre) = length pre.
Proof.
  intros Hw Hpre Hd Hsel.
  assert (Hr : retryLoop cfg syncErr p (r :: post) = ([], Returned (Some ErrAborted))).
  { cbn [retryLoop]. apply Z.ltb_lt in Hd. rewrite Hd.
    destruct Hsel as [-> | ->]; reflexivity. }
  split.
  - rewrite (createConfigMap_written fs fs' p _ Hw).
    rewrite (retryLoop_applied p pre (r :: post) Hpre), Hr.
    cbn [fst snd]. rewrite app_nil_r. reflexivity.
  - change (attempts (EvInfo "writing ConfigMap" :: ?l)) with (attempts l).
    apply attempts_applied.
Qed.

(** C1 (what the code does instead): a command that returns an error
    ends the call in the turn it is run in, however much of the five minutes
    is left: the error of that attempt is returned at once, the failure is
    not recorded as a status, and the turns that would follow (another wait,
    another attempt) are never reached. *)
Theorem failure_ends_the_call (fs fs' : gmap string string) p pre r post e :
  writeConfigMapAuth WriteTempFile fs (RoleARN cfg) = Some (fs', inl p) ->
  Forall applied pre ->
  elapsed r < waitDur ->
  selected r = After5s ->
  cmdErr r = Some e ->
  createConfigMap cfg syncErr WriteTempFile fs (pre ++ r :: post)
  = Some (fs', (EvInfo "writing ConfigMap" :: (flat_map (appliedEvents p) pre ++ [applyOf p]),
               Returned (Some (ErrKubectl e (output r))))).
Proof.
  intros Hw Hpre Hd Hsel He.
  rewrite (createConfigMap_written fs fs' p _ Hw).
  rewrite (retryLoop_applied p pre (r :: post) Hpre).
  cbn [retryLoop]. apply Z.ltb_lt in Hd. rewrite Hd, Hsel, He. reflexivity.
Qed.

(** C2 (what the code does instead): a command that returns no error
    does not end the loop.  The turn reports "create ConfigMap failed" with a
    nil error, and when the next test of the loop condition finds time left
    and the timer fires, the file is applied again. *)
Theorem success_is_followed_by_another_attempt
    (fs fs' : gmap string string) p pre r next post :
  writeConfigMapAuth WriteTempFile fs (RoleARN cfg) = Some (fs', inl p) ->
  Forall applied pre ->
  applied r ->
  elapsed next < waitDur ->
  selected next = After5s ->
  exists evs res,
    createConfigMap cfg syncErr WriteTempFile fs (pre ++ r :: next :: post)
    = Some (fs', (EvInfo "writing ConfigMap"
                    :: (flat_map (appliedEvents p) pre ++ appliedEvents p r
                        ++ applyOf p :: evs),
                  res))
    /\ attempts (EvInfo "writing ConfigMap"
                   :: (flat_map (appliedEvents p) pre ++ appliedEvents p r
                       ++ applyOf p :: evs))
       = (length pre + 2 + attempts evs)%nat.
Proof.
  intros Hw Hpre Hr Hd Hsel.
  assert (Hpre' : Forall applied (pre ++ [r])).
  { apply Forall_app. split; [exact Hpre | constructor; [exact Hr | constructor]]. }
  assert (Hnext : exists evs res,
            retryLoop cfg syncErr p (next :: post) = (applyOf p :: evs, res)).
  { cbn [retryLoop]. apply Z.ltb_lt in Hd. rewrite Hd, Hsel.
    destruct (cmdErr next) as [e|].
    - eexists. eexists. reflexivity.
    - destruct (retryLoop cfg syncErr p post) as [evs res].
      eexists. eexists. reflexivity. }
  destruct Hnext as (evs & res & Hnext).
  exists evs, res. split.
  - rewrite (createConfigMap_written fs fs' p _ Hw).
    replace (pre ++ r :: next :: post) with ((pre ++ [r]) ++ next :: post)
      by (rewrite <- app_assoc; reflexivity).
    rewrite (retryLoop_applied p (pre ++ [r]) (next :: post) Hpre'), Hnext.
    cbn [fst snd]. rewrite flat_map_app. cbn [flat_map].
    rewrite app_nil_r, <- app_assoc. reflexivity.
  - change (attempts (EvInfo "writing ConfigMap" :: ?l)) with (attempts l).
    rewrite !attempts_app, attempts_applied.
    change (attempts (appliedEvents p r)) with 1%nat.
    change (attempts (applyOf p :: evs)) with (S (attempts evs)).
    lia.
Qed.

End Loop.

Definition sampleEKS : EKSConfig :=
  {| RoleARN := "arn:aws:iam::123456789012:role/ng-role";
     KubectlPath := "/usr/local/bin/kubectl";
     KubeConfigPath := "/tmp/kubeconfig" |}.

(** Temporary files are written at /tmp/configmap.yaml. *)
Definition sampleWriteTempFile (txt : string) : string + error :=
  inl "/tmp/configmap.yaml".

(** The document for the role of [sampleEKS]. *)
Definition sampleDocument : string :=
  docHead +:+ "arn:aws:iam::123456789012:role/ng-role" +:+ docTail.

Example sampleEKS_written :
  writeConfigMapAuth sampleWriteTempFile ∅ (RoleARN sampleEKS)
  = Some ({[ "/tmp/configmap.yaml" := sampleDocument ]}, inl "/tmp/configmap.yaml").
Proof. vm_compute. reflexivity. Qed.

(** The timer fires and the command works, at the given time after the
    start of the loop. *)
Definition works (at_ : Z) : Round :=
  {| elapsed := at_; selected := After5s; output := "configmap/aws-auth created";
     cmdErr := None |}.

(** The timer fires and the command fails. *)
Definition breaks (at_ : Z) : Round :=
  {| elapsed := at_; selected := After5s;
     output := "Unable to connect to the server"; cmdErr := Some "exit status 1" |}.

(** The stop channel fires during the wait. *)
Definition stopped (at_ : Z) : Round :=
  {| elapsed := at_; selected := Stopc; output := ""; cmdErr := None |}.

(** The command fails in the first turn and would work from the second
    turn on, six seconds after the start. *)
Definition failsOnce : list Round :=
  [breaks 0; works (6 * second); works (12 * second)].

(** The command fails in the first turn, with nearly the whole five
    minutes left, and would work in the second.  [createConfigMap] applies
    the file once and returns the error of that attempt: it records no
    status, does not wait again and does not try again. *)
Example failsOnce_run :
  createConfigMap sampleEKS None sampleWriteTempFile ∅ failsOnce
  = Some ({[ "/tmp/configmap.yaml" := sampleDocument ]},
          ([EvInfo "writing ConfigMap";
            EvApply "/usr/local/bin/kubectl" "--kubeconfig=/tmp/kubeconfig"
                    "--filename=/tmp/configmap.yaml"],
           Returned (Some (ErrKubectl "exit status 1" "Unable to connect to the server")))).
Proof. vm_compute. reflexivity. Qed.

(** C1: the hypotheses of the theorem are met by [failsOnce]. *)
Lemma failure_ends_the_call_witness :
  elapsed (breaks 0) < waitDur
  /\ selected (breaks 0) = After5s
  /\ cmdErr (breaks 0) = Some "exit status 1"
  /\ createConfigMap sampleEKS None sampleWriteTempFile ∅
       ([] ++ breaks 0 :: [works (6 * second); works (12 * second)])
     = Some ({[ "/tmp/configmap.yaml" := sampleDocument ]},
             (EvInfo "writing ConfigMap"
                :: (flat_map (appliedEvents sampleEKS "/tmp/configmap.yaml") []
                    ++ [applyOf sampleEKS "/tmp/configmap.yaml"]),
              Returned (Some (ErrKubectl "exit status 1" (output (breaks 0)))))).
Proof.
  assert (H0 : Forall applied []) by constructor.
  assert (H : elapsed (breaks 0) < waitDur) by reflexivity.
  split; [exact H |]. split; [reflexivity |]. split; [reflexivity |].
  exact (failure_ends_the_call sampleEKS None sampleWriteTempFile ∅ _
           "/tmp/configmap.yaml" [] (breaks 0) [works (6 * second); works (12 * second)]
           "exit status 1" sampleEKS_written H0 H eq_refl eq_refl).
Defined.

(** The command works in every turn; a turn takes 5.1 seconds, so the
    sixtieth test of the loop condition finds the five minutes over. *)
Definition alwaysWorks : list Round :=
  map (fun i => works (Z.of_nat i * 5100000000)) (seq 0 60).

(** What [createConfigMap] does on [alwaysWorks]. *)
Definition alwaysWorksEvents : list Event :=
  match createConfigMap sampleEKS None sampleWriteTempFile ∅ alwaysWorks with
  | Some (_, (evs, _)) => evs
  | None => []
  end.

(** The command works at the first attempt and at every later one.
    [createConfigMap] does not stop at the first success: it records
    "create ConfigMap failed (<nil>)", waits and applies the file again, 59
    times in all, until the five minutes are over; only then does it call
    [Sync], once, and return. *)
Example alwaysWorks_run :
  createConfigMap sampleEKS None sampleWriteTempFile ∅ alwaysWorks
  = Some ({[ "/tmp/configmap.yaml" := sampleDocument ]},
          (alwaysWorksEvents, Returned None))
  /\ attempts alwaysWorksEvents = 59%nat
  /\ length (filter isRecordStatus alwaysWorksEvents) = 59%nat
  /\ length (filter isSync alwaysWorksEvents) = 1%nat.
Proof. vm_compute. repeat split; reflexivity. Qed.

(** C2: the hypotheses of the theorem are met by the first two turns of
    [alwaysWorks]. *)
Lemma success_is_followed_by_another_attempt_witness :
  applied (works 0)
  /\ elapsed (works 5100000000) < waitDur
  /\ selected (works 5100000000) = After5s
  /\ exists evs res,
       createConfigMap sampleEKS None sampleWriteTempFile ∅
         ([] ++ works 0 :: works 5100000000 :: skipn 2 alwaysWorks)
       = Some ({[ "/tmp/configmap.yaml" := sampleDocument ]},
               (EvInfo "writing ConfigMap"
                  :: (flat_map (appliedEvents sampleEKS "/tmp/configmap.yaml") []
                      ++ appliedEvents sampleEKS "/tmp/configmap.yaml" (works 0)
                      ++ applyOf sampleEKS "/tmp/configmap.yaml" :: evs),
                res))
       /\ attempts
            (EvInfo "writing ConfigMap"
               :: (flat_map (appliedEvents sampleEKS "/tmp/configmap.yaml") []
                   ++ appliedEvents sampleEKS "/tmp/configmap.yaml" (works 0)
                   ++ applyOf sampleEKS "/tmp/configmap.yaml" :: evs))
          = (length (@nil Round) + 2 + attempts evs)%nat.
Proof.
  assert (H0 : Forall applied []) by constructor.
  assert (H1 : applied (works 0)) by (repeat split).
  assert (H2 : elapsed (works 5100000000) < waitDur) by reflexivity.
  split; [exact H1 |]. split; [exact H2 |]. split; [reflexivity |].
  exact (success_is_followed_by_another_attempt sampleEKS None sampleWriteTempFile ∅ _
           "/tmp/configmap.yaml" [] (works 0) (works 5100000000) (skipn 2 alwaysWorks)
           sampleEKS_written H0 H1 H2 eq_refl).
Defined.

(** C6: the hypotheses of the theorem are met by a run in which the
    command has worked twice and the stop channel fires in the third wait,
    twelve seconds after the start. *)
Lemma stop_in_wait_aborts_witness :
  Forall applied [works 0; works (6 * second)]
  /\ elapsed (stopped (12 * second)) < waitDur
  /\ selected (stopped (12 * second)) = Stopc
  /\ createConfigMap sampleEKS None sampleWriteTempFile ∅
       ([works 0; works (6 * second)] ++ stopped (12 * second) :: [works (18 * second)])
     = Some ({[ "/tmp/configmap.yaml" := sampleDocument ]},
             (EvInfo "writing ConfigMap"
                :: flat_map (appliedEvents sampleEKS "/tmp/configmap.yaml")
                     [works 0; works (6 * second)],
              Returned (Some ErrAborted)))
  /\ attempts
       (EvInfo "writing ConfigMap"
          :: flat_map (appliedEvents sampleEKS "/tmp/configmap.yaml")
               [works 0; works (6 * second)])
     = 2%nat.
Proof.
  assert (H1 : Forall applied [works 0; works (6 * second)]) by (repeat constructor).
  assert (H2 : elapsed (stopped (12 * second)) < waitDur) by reflexivity.
  split; [exact H1 |]. split; [exact H2 |]. split; [reflexivity |].
  exact (stop_in_wait_aborts sampleEKS None sampleWriteTempFile ∅ _
           "/tmp/configmap.yaml" [works 0; works (6 * second)] (stopped (12 * second))
           [works (18 * second)] sampleEKS_written H1 H2 (or_introl eq_refl)).
Defined.

End NgFacts.

(** * Properties of package s3shared *)

Module S3sharedFacts.
Import GoStrings S3shared.

Set Default Proof Using "Type".

(** ** Prefixes and suffixes *)

Lemma HasPrefix_spec s p : HasPrefix s p = true <-> exists r, s = p ++ r.
Proof.
  revert s. induction p as [|b p IH]; intros s.
  - split; [intros _; exists s; reflexivity | intros _; destruct s; reflexivity].
  - destruct s as [|a s].
    + split; [discriminate | intros [r Hr]; discriminate Hr].
    + cbn [HasPrefix]. destruct (Ascii.eqb a b) eqn:E.
      * apply Ascii.eqb_eq in E. subst b. rewrite IH. split.
        -- intros [r ->]. exists r. reflexivity.
        -- intros [r Hr]. injection Hr as ->. exists r. reflexivity.
      * apply Ascii.eqb_neq in E. split; [discriminate |].
        intros [r Hr]. injection Hr as Hab _. congruence.
Qed.

Lemma length_app_string (a b : string) :
  String.length (a ++ b) = (String.length a + String.length b)%nat.
Proof.
  induction a as [|c a IH]; [reflexivity |].
  change (S (String.length (a ++ b)) = S (String.length a + String.length b)).
  rewrite IH. reflexivity.
Qed.

Lemma substring_all s : substring 0 (String.length s) s = s.
Proof.
  induction s as [|c s IH]; [reflexivity |].
  cbn [String.length substring]. rewrite IH. reflexivity.
Qed.

Lemma substring_after r s :
  substring (String.length r) (String.length s) (r ++ s) = s.
Proof.
  induction r as [|c r IH]; [apply substring_all | exact IH].
Qed.

(** A string is its first [n] bytes followed by the rest. *)
Lemma substring_split s n :
  (n <= String.length s)%nat ->
  s = substring 0 n s ++ substring n (String.length s - n) s.
Proof.
  revert n. induction s as [|c s IH]; intros n Hn.
  - destruct n; reflexivity.
  - destruct n as [|n].
    + cbn [substring String.append]. rewrite Nat.sub_0_r.
      change (String c s = substring 0 (String.length (String c s)) (String c s)).
      rewrite substring_all. reflexivity.
    + cbn [String.length] in *. cbn [substring]. cbn [Nat.sub].
      change (String c s = String c (substring 0 n s ++ substring n (String.length s - n) s)).
      rewrite <- IH by lia. reflexivity.
Qed.

Lemma HasSuffix_spec s suffix : HasSuffix s suffix = true <-> exists r, s = r ++ suffix.
Proof.
  unfold HasSuffix. rewrite andb_true_iff, Nat.leb_le, bool_decide_eq_true. split.
  - intros [Hle Hsub].
    exists (substring 0 (String.length s - String.length suffix) s).
    pose proof (substring_split s (String.length s - String.length suffix)) as Hsplit.
    replace (String.length s - (String.length s - String.length suffix))%nat
      with (String.length suffix) in Hsplit by lia.
    rewrite Hsub in Hsplit. apply Hsplit. lia.
  - intros [r ->]. rewrite length_app_string. split; [lia |].
    replace (String.length r + String.length suffix - String.length suffix)%nat
      with (String.length r) by lia.
    apply substring_after.
Qed.

(** X1: [IsFIPS] holds of exactly the regions that begin with "fips-" or
    end with "-fips" (so of "fips-" and "-fips" themselves); a region of
    fewer than five bytes is never a FIPS region. *)
Theorem IsFIPS_spec clientRegion :
  (IsFIPS clientRegion = true <->
   (exists r, clientRegion = "fips-" ++ r) \/ (exists r, clientRegion = r ++ "-fips"))
  /\ ((String.length clientRegion < 5)%nat -> IsFIPS clientRegion = false).
Proof.
  assert (H : IsFIPS clientRegion = true <->
              (exists r, clientRegion = "fips-" ++ r)
              \/ (exists r, clientRegion = r ++ "-fips")).
  { unfold IsFIPS. rewrite orb_true_iff, HasPrefix_spec, HasSuffix_spec. reflexivity. }
  split; [exact H |].
  intros Hlen. destruct (IsFIPS clientRegion) eqn:E; [| reflexivity].
  exfalso. destruct (proj1 H eq_refl) as [[r ->] | [r ->]];
    rewrite length_app_string in Hlen; cbn [String.length] in Hlen; lia.
Qed.

(** ** Folding of case *)

Definition isASCII (s : string) : bool := allBytes (fun a => negb (notASCII a)) s.

(** The test [EqualFold] makes on two bytes. *)
Definition foldStep (sr tr : ascii) : bool :=
  Ascii.eqb tr sr
  || (let lo := Nat.min (nat_of_ascii sr) (nat_of_ascii tr) in
      let hi := Nat.max (nat_of_ascii sr) (nat_of_ascii tr) in
      Nat.leb 65 lo && Nat.leb lo 90 && Nat.eqb hi (lo + 32)).

Lemma foldStep_lowerByte a b :
  notASCII a = false -> notASCII b = false ->
  foldStep a b = Ascii.eqb (lowerByte a) (lowerByte b).
Proof.
  intros Ha Hb.
  pose (P := fun n m : nat =>
    Bool.eqb (foldStep (ascii_of_nat n) (ascii_of_nat m))
             (Ascii.eqb (lowerByte (ascii_of_nat n)) (lowerByte (ascii_of_nat m)))).
  assert (Hall : forallb (fun n => forallb (P n) (seq 0 128)) (seq 0 128) = true)
    by (vm_compute; reflexivity).
  unfold notASCII in Ha, Hb. apply Nat.leb_gt in Ha, Hb.
  rewrite forallb_forall in Hall.
  specialize (Hall (nat_of_ascii a)). rewrite forallb_forall in Hall.
  specialize (Hall ltac:(apply in_seq; lia) (nat_of_ascii b) ltac:(apply in_seq; lia)).
  unfold P in Hall. rewrite !ascii_nat_embedding in Hall.
  apply Bool.eqb_prop in Hall. exact Hall.
Qed.

(** On ASCII strings [EqualFold] says whether the lower-cased strings are
    equal. *)
Lemma EqualFold_ToLower s t :
  isASCII s = true -> isASCII t = true ->
  EqualFold s t = Some (bool_decide (ToLower s = ToLower t)).
Proof.
  revert t. induction s as [|a s IH]; intros [|b t] Hs Ht.
  - reflexivity.
  - reflexivity.
  - reflexivity.
  - unfold isASCII in Hs, Ht. cbn [allBytes] in Hs, Ht.
    apply andb_true_iff in Hs, Ht. destruct Hs as [Ha Hs], Ht as [Hb Ht].
    apply negb_true_iff in Ha, Hb.
    pose proof (foldStep_lowerByte a b Ha Hb) as Hstep.
    cbn [EqualFold]. rewrite Ha, Hb. cbn [orb].
    change (ToLower (String a s)) with (String (lowerByte a) (ToLower s)).
    change (ToLower (String b t)) with (String (lowerByte b) (ToLower t)).
    unfold foldStep in Hstep.
    destruct (Ascii.eqb b a) eqn:Eba; cbn [orb] in Hstep.
    + symmetry in Hstep. apply Ascii.eqb_eq in Hstep.
      rewrite (IH t Hs Ht), Hstep. f_equal.
      apply bool_decide_ext. split; [intros ->; reflexivity | intros [= ->]; reflexivity].
    + cbv zeta in Hstep |- *. rewrite Hstep.
      destruct (Ascii.eqb (lowerByte a) (lowerByte b)) eqn:El.
      * apply Ascii.eqb_eq in El.
        rewrite (IH t Hs Ht), El. f_equal.
        apply bool_decide_ext. split; [intros ->; reflexivity | intros [= ->]; reflexivity].
      * apply Ascii.eqb_neq in El. f_equal. symmetry.
        apply bool_decide_eq_false. intros [= E _]. contradiction.
Qed.



(** X3: for ASCII regions, [IsCrossRegion] is false exactly when the
    signing region and the region of the ARN are equal when case is set
    aside; in particular a request signed for the region of its ARN is not
    cross-region, and two empty regions are not cross-region. *)
Theorem IsCrossRegion_spec r :
  isASCII (SigningRegion r) = true ->
  isASCII (Region (GetARN (Resource r))) = true ->
  IsCrossRegion r
  = Some (negb (bool_decide (ToLower (SigningRegion r)
                             = ToLower (Region (GetARN (Resource r))))))
  /\ (SigningRegion r = Region (GetARN (Resource r)) -> IsCrossRegion r = Some false).
Proof.
  intros H1 H2.
  assert (E : IsCrossRegion r
              = Some (negb (bool_decide (ToLower (SigningRegion r)
                                         = ToLower (Region (GetARN (Resource r))))))).
  { unfold IsCrossRegion. rewrite (EqualFold_ToLower _ _ H1 H2). reflexivity. }
  split; [exact E |].
  intros Heq. rewrite E, Heq. rewrite bool_decide_eq_true_2 by reflexivity. reflexivity.
Qed.

(** A request in us-west-2, written in upper case, on a bucket ARN of
    us-west-2 in partition aws. *)
Definition sampleRequest : ResourceRequest :=
  {| Resource := {| GetARN := {| Partition := "aws"; Service := "s3";
                                 Region := "us-west-2"; AccountID := "123456789012";
                                 Resource_ := "accesspoint/myendpoint" |} |};
     RequestRegion := "us-west-2";
     SigningRegion := "US-WEST-2";
     PartitionID := "AWS";
     UseARNRegion := false |}.

(** X3: the hypotheses are met by [sampleRequest], which is not
    cross-region. *)
Lemma IsCrossRegion_spec_witness :
  isASCII (SigningRegion sampleRequest) = true
  /\ isASCII (Region (GetARN (Resource sampleRequest))) = true
  /\ IsCrossRegion sampleRequest = Some false.
Proof.
  split; [reflexivity |]. split; [reflexivity |].
  rewrite (proj1 (IsCrossRegion_spec sampleRequest eq_refl eq_refl)).
  reflexivity.
Defined.

End S3sharedFacts.

(** * Further properties of package ng *)

Module NgMore.
Import GoStrings Ng NgFacts.

Set Default Proof Using "Type".

Local Open Scope list_scope.

Section LoopOutcomes.

Variable cfg : EKSConfig.
Variable syncErr : option error.

(** How the loop can end, [pre] being the turns in which the command
    returned no error and [r] the turn that ends it. *)
Inductive Ending (p : string) (pre : list Round) (r : Round)
  : list Event -> Result -> Prop :=
| EndDeadline :
    waitDur <= elapsed r ->
    Ending p pre r
      (flat_map (appliedEvents cfg p) pre ++ [EvInfo "created ConfigMap"; EvSync])
      (Returned syncErr)
| EndAborted :
    elapsed r < waitDur ->
    selected r = Stopc \/ selected r = Sig ->
    Ending p pre r (flat_map (appliedEvents cfg p) pre) (Returned (Some ErrAborted))
| EndFailed e :
    elapsed r < waitDur ->
    selected r = After5s ->
    cmdErr r = Some e ->
    Ending p pre r
      (flat_map (appliedEvents cfg p) pre ++ [applyOf cfg p])
      (Returned (Some (ErrKubectl e (output r)))).

(** The loop either uses up the turns it is given, the command having
    returned no error in any of them, or ends in one of the three ways. *)
Lemma retryLoop_cases p rounds :
  (Forall (applied) rounds
   /\ retryLoop cfg syncErr p rounds = (flat_map (appliedEvents cfg p) rounds, NoMoreRounds))
  \/ (exists pre r post,
        rounds = pre ++ r :: post /\ Forall applied pre
        /\ Ending p pre r (fst (retryLoop cfg syncErr p rounds))
                          (snd (retryLoop cfg syncErr p rounds))).
Proof.
  induction rounds as [|r rounds IH].
  - left. split; [constructor | reflexivity].
  - cbn [retryLoop].
    destruct (elapsed r <? waitDur) eqn:Ed.
    + apply Z.ltb_lt in Ed.
      destruct (selected r) eqn:Es.
      * right. exists [], r, rounds. split; [reflexivity |]. split; [constructor |].
        apply EndAborted; [exact Ed | left; exact Es].
      * right. exists [], r, rounds. split; [reflexivity |]. split; [constructor |].
        apply EndAborted; [exact Ed | right; exact Es].
      * destruct (cmdErr r) as [e|] eqn:Ee.
        -- right. exists [], r, rounds. split; [reflexivity |]. split; [constructor |].
           apply (EndFailed p [] r e); assumption.
        -- assert (Hr : applied r) by (repeat split; assumption).
           destruct IH as [[Hall Hrun] | (pre & r' & post & -> & Hpre & Hend)].
           ++ left. split; [constructor; assumption |]. rewrite Hrun. reflexivity.
           ++ right. exists (r :: pre), r', post.
              split; [reflexivity |]. split; [constructor; assumption |].
              destruct (retryLoop cfg syncErr p (pre ++ r' :: post)) as [evs res].
              cbn [fst snd] in *.
              change (applyOf cfg p :: EvPrintf (output r)
                        :: EvWarn "create ConfigMap failed" None
                        :: EvRecordStatus "create ConfigMap failed (<nil>)" :: evs)
                with (appliedEvents cfg p r ++ evs).
              destruct Hend as [Hd | Hd Hs | e Hd Hs He].
              ** exact (EndDeadline p (r :: pre) r' Hd).
              ** exact (EndAborted p (r :: pre) r' Hd Hs).
              ** exact (EndFailed p (r :: pre) r' e Hd Hs He).
    + right. exists [], r, rounds. split; [reflexivity |]. split; [constructor |].
      apply (EndDeadline p [] r). apply Z.ltb_ge. exact Ed.
Qed.

Lemma isSync_applied p pre : filter isSync (flat_map (appliedEvents cfg p) pre) = [].
Proof.
  induction pre as [|r pre IH]; [reflexivity |].
  cbn [flat_map]. rewrite filter_app, IH. reflexivity.
Qed.

Lemma isSync_info s l : filter isSync (EvInfo s :: l) = filter isSync l.
Proof. reflexivity. Qed.

Lemma isSync_end s : filter isSync [EvInfo s; EvSync] = [EvSync].
Proof. reflexivity. Qed.

Lemma isSync_one p : filter isSync [applyOf cfg p] = [].
Proof. reflexivity. Qed.

Lemma attempts_info s l : attempts (EvInfo s :: l) = attempts l.
Proof. reflexivity. Qed.

Lemma attempts_end s : attempts [EvInfo s; EvSync] = 0%nat.
Proof. reflexivity. Qed.

Lemma attempts_one p : attempts [applyOf cfg p] = 1%nat.
Proof. reflexivity. Qed.

Lemma applies_applied p pre :
  Forall (fun ev => isApply ev = true -> ev = applyOf cfg p)
         (flat_map (appliedEvents cfg p) pre).
Proof.
  induction pre as [|r pre IH]; [constructor |].
  cbn [flat_map]. apply Forall_app. split; [| exact IH].
  repeat constructor; cbn; intros; (reflexivity || discriminate).
Qed.

(** Once a test of the loop condition finds the five minutes over, the
    loop has ended, by then or before. *)
Lemma retryLoop_deadline p pre r post :
  waitDur <= elapsed r ->
  exists evs res,
    retryLoop cfg syncErr p (pre ++ r :: post) = (evs, Returned res)
    /\ (attempts evs <= length pre)%nat.
Proof.
  intros Hd. induction pre as [|a pre IH].
  - cbn [app retryLoop]. rewrite (proj2 (Z.ltb_ge _ _) Hd).
    exists [EvInfo "created ConfigMap"; EvSync], syncErr.
    split; [reflexivity |]. rewrite attempts_end. cbn. lia.
  - cbn [app retryLoop].
    destruct (elapsed a <? waitDur).
    + destruct (selected a).
      * exists [], (Some ErrAborted). split; [reflexivity | cbn; lia].
      * exists [], (Some ErrAborted). split; [reflexivity | cbn; lia].
      * destruct (cmdErr a) as [e|].
        -- exists [applyOf cfg p], (Some (ErrKubectl e (output a))).
           split; [reflexivity |]. rewrite attempts_one. cbn. lia.
        -- destruct IH as (evs & res & -> & Hn).
           exists (appliedEvents cfg p a ++ evs), res.
           split; [reflexivity |].
           rewrite attempts_app.
           change (appliedEvents cfg p a) with (flat_map (appliedEvents cfg p) [a] ++ [])%list.
           rewrite app_nil_r, attempts_applied. cbn [length]. lia.
    + exists [EvInfo "created ConfigMap"; EvSync], syncErr.
      split; [reflexivity |]. rewrite attempts_end. cbn. lia.
Qed.

Variable WriteTempFile : string -> string + error.

(** What a call that got to the loop returns. *)
Lemma createConfigMap_cases (fs fs' : gmap string string) p rounds evs res :
  writeConfigMapAuth WriteTempFile fs (RoleARN cfg) = Some (fs', inl p) ->
  createConfigMap cfg syncErr WriteTempFile fs rounds = Some (fs', (evs, res)) ->
  (Forall applied rounds /\ res = NoMoreRounds
   /\ evs = EvInfo "writing ConfigMap" :: flat_map (appliedEvents cfg p) rounds)
  \/ (exists pre r post loopEvs,
        rounds = pre ++ r :: post /\ Forall applied pre
        /\ evs = EvInfo "writing ConfigMap" :: loopEvs
        /\ Ending p pre r loopEvs res).
Proof.
  intros Hw Hc. rewrite (createConfigMap_written cfg syncErr WriteTempFile fs fs' p _ Hw) in Hc.
  injection Hc as <- <-.
  destruct (retryLoop_cases p rounds) as [[Hall Hrun] | (pre & r & post & -> & Hpre & Hend)].
  - left. rewrite Hrun. split; [exact Hall |]. split; reflexivity.
  - right. exists pre, r, post, (fst (retryLoop cfg syncErr p (pre ++ r :: post))).
    split; [reflexivity |]. split; [exact Hpre |]. split; [reflexivity | exact Hend].
Qed.

(** X4: [createConfigMap] returns nil only when the loop has run to the
    deadline and the final [Sync] returned nil: some test of the loop
    condition found the five minutes over, the command had returned no error
    in any turn before, and the call ended with "created ConfigMap" and one
    [Sync].  In particular it never returns nil before the five minutes are
    over, however early the command succeeds. *)
Theorem nil_only_after_deadline (fs fs' : gmap string string) p rounds evs :
  writeConfigMapAuth WriteTempFile fs (RoleARN cfg) = Some (fs', inl p) ->
  createConfigMap cfg syncErr WriteTempFile fs rounds = Some (fs', (evs, Returned None)) ->
  syncErr = None
  /\ exists pre r post,
       rounds = pre ++ r :: post /\ Forall applied pre /\ waitDur <= elapsed r
       /\ evs = EvInfo "writing ConfigMap"
                  :: flat_map (appliedEvents cfg p) pre
                  ++ [EvInfo "created ConfigMap"; EvSync]
       /\ attempts evs = length pre.
Proof.
  intros Hw Hc.
  destruct (createConfigMap_cases fs fs' p rounds evs (Returned None) Hw Hc)
    as [(_ & Hres & _) | (pre & r & post & loopEvs & -> & Hpre & -> & Hend)];
    [discriminate Hres |].
  inversion Hend as [Hd Hevs Hres | | ]; subst.
  split; [congruence |].
  exists pre, r, post. repeat split; try assumption.
  rewrite attempts_info, attempts_app, attempts_applied, attempts_end. lia.
Qed.

(** X5: the configuration is saved only at the deadline.  A call that
    ends because the stop or signal channel fired, or because the command
    returned an error, has not called [Sync]; and no call calls it more than
    once or applies anything but the one file with the one kubeconfig. *)
Theorem sync_only_at_deadline (fs fs' : gmap string string) p rounds evs res :
  writeConfigMapAuth WriteTempFile fs (RoleARN cfg) = Some (fs', inl p) ->
  createConfigMap cfg syncErr WriteTempFile fs rounds = Some (fs', (evs, res)) ->
  (length (filter isSync evs) <= 1)%nat
  /\ (forall pre r post,
        rounds = pre ++ r :: post -> Forall applied pre -> elapsed r < waitDur ->
        selected r <> After5s \/ cmdErr r <> None ->
        filter isSync evs = [])
  /\ Forall (fun ev => isApply ev = true -> ev = applyOf cfg p) evs
  /\ (attempts evs <= length rounds)%nat.
Proof.
  intros Hw Hc.
  split; [| split; [| split]].
  - destruct (createConfigMap_cases fs fs' p rounds evs res Hw Hc)
      as [(_ & _ & ->) | (pre & r & post & loopEvs & -> & Hpre & -> & Hend)].
    + rewrite isSync_info, isSync_applied. cbn. lia.
    + rewrite isSync_info.
      destruct Hend;
        rewrite ?filter_app, isSync_applied, ?isSync_end, ?isSync_one;
        cbn [app length]; lia.
  - intros pre r post -> Hpre Hd Hsel.
    rewrite (createConfigMap_written cfg syncErr WriteTempFile fs fs' p _ Hw) in Hc.
    injection Hc as <- _.
    rewrite (retryLoop_applied cfg syncErr p pre (r :: post) Hpre).
    cbn [fst]. rewrite isSync_info, filter_app, isSync_applied. cbn [app].
    cbn [retryLoop]. apply Z.ltb_lt in Hd. rewrite Hd.
    destruct (selected r); try reflexivity.
    destruct (cmdErr r) as [e|]; [reflexivity |].
    destruct Hsel as [Hsel | Hsel]; exfalso; apply Hsel; reflexivity.
  - destruct (createConfigMap_cases fs fs' p rounds evs res Hw Hc)
      as [(_ & _ & ->) | (pre & r & post & loopEvs & -> & Hpre & -> & Hend)].
    + constructor; [discriminate | apply applies_applied].
    + constructor; [discriminate |].
      destruct Hend; rewrite ?Forall_app; repeat split; try apply applies_applied;
        repeat constructor; cbn; intros; (reflexivity || discriminate).
  - destruct (createConfigMap_cases fs fs' p rounds evs res Hw Hc)
      as [(_ & _ & ->) | (pre & r & post & loopEvs & -> & Hpre & -> & Hend)].
    + rewrite attempts_info, attempts_applied. lia.
    + rewrite attempts_info, length_app. cbn [length].
      destruct Hend;
        rewrite ?attempts_app, attempts_applied, ?attempts_end, ?attempts_one; lia.
Qed.

(** X6: when [fileutil.WriteTempFile] returns an error for the rendered
    document, [createConfigMap] returns that error without entering the
    loop, whatever the turns of the loop would have been: nothing is
    applied and [Sync] is not called. *)
Theorem write_failure_returns (fs : gmap string string) rounds txt e :
  configMapAuthText (RoleARN cfg) = Some txt ->
  WriteTempFile txt = inr e ->
  exists fs' evs,
    createConfigMap cfg syncErr WriteTempFile fs rounds
    = Some (fs', (evs, Returned (Some e)))
    /\ evs = [EvInfo "writing ConfigMap"]
    /\ attempts evs = 0%nat
    /\ filter isSync evs = [].
Proof.
  intros Ht He. unfold createConfigMap, writeConfigMapAuth.
  rewrite Ht, He. exists fs, [EvInfo "writing ConfigMap"].
  repeat split; reflexivity.
Qed.

(** X26: the call returns once the clock has passed the deadline,
    whatever the command and the channels do: if some test of the loop
    condition finds five minutes or more elapsed, [createConfigMap] has
    returned by then, after at most as many attempts as there were turns
    before that test. *)
Theorem returns_by_the_deadline (fs fs' : gmap string string) p pre r post :
  writeConfigMapAuth WriteTempFile fs (RoleARN cfg) = Some (fs', inl p) ->
  waitDur <= elapsed r ->
  exists evs res,
    createConfigMap cfg syncErr WriteTempFile fs (pre ++ r :: post)
    = Some (fs', (evs, Returned res))
    /\ (attempts evs <= length pre)%nat.
Proof.
  intros Hw Hd.
  rewrite (createConfigMap_written cfg syncErr WriteTempFile fs fs' p _ Hw).
  destruct (retryLoop_deadline p pre r post Hd) as (evs & res & -> & Hn).
  exists (EvInfo "writing ConfigMap" :: evs), res.
  split; [reflexivity |]. rewrite attempts_info. exact Hn.
Qed.

End LoopOutcomes.

(** ** The role ARN as a format *)

(** X7: an ARN that holds the verb [%s] is not put into the document as
    it is: the verb takes the username line, and the verb of the template
    then finds no operand and prints [%!s(MISSING)].  An ARN that holds
    [%%] loses one of the two percent signs. *)
Theorem arn_with_verb a b :
  hasByte "%" a = false ->
  hasByte "%" b = false ->
  configMapAuthText (a +:+ "%s" +:+ b)
  = Some (docHead +:+ a +:+ usernameLine +:+ b
            +:+ String "010" "      %!s(MISSING)"
            +:+ String "010" "      groups:"
            +:+ String "010" "      - system:bootstrappers"
            +:+ String "010" "      - system:nodes" +:+ String "010" "")
  /\ configMapAuthText (a +:+ "%%" +:+ b) = Some (docHead +:+ a +:+ "%" +:+ b +:+ docTail).
Proof.
  intros Ha Hb.
  assert (Hhead : hasByte "%" docHead = false) by (vm_compute; reflexivity).
  split.
  - unfold configMapAuthText.
    rewrite configMapAuthTempl_parsed, configMapAuthTempl_executed.
    unfold Fmt.Sprintf1.
    rewrite (sprintfFrom_text docHead _ _ Hhead).
    rewrite append_assoc.
    rewrite (sprintfFrom_text a _ _ Ha).
    change (("%s" +:+ b) +:+ formatTail) with (String "%" (String "s" (b +:+ formatTail))).
    cbn [Fmt.sprintfFrom].
    rewrite (sprintfFrom_text b _ _ Hb).
    replace (Fmt.sprintfFrom formatTail None)
      with (Some (String "010" "      %!s(MISSING)"
                    +:+ String "010" "      groups:"
                    +:+ String "010" "      - system:bootstrappers"
                    +:+ String "010" "      - system:nodes" +:+ String "010" ""))
      by (vm_compute; reflexivity).
    cbn [option_map]. reflexivity.
  - unfold configMapAuthText.
    rewrite configMapAuthTempl_parsed, configMapAuthTempl_executed.
    unfold Fmt.Sprintf1.
    rewrite (sprintfFrom_text docHead _ _ Hhead).
    rewrite append_assoc.
    rewrite (sprintfFrom_text a _ _ Ha).
    change (("%%" +:+ b) +:+ formatTail) with (String "%" (String "%" (b +:+ formatTail))).
    cbn [Fmt.sprintfFrom].
    rewrite (sprintfFrom_text b _ _ Hb).
    replace (Fmt.sprintfFrom formatTail (Some usernameLine)) with (Some docTail)
      by (vm_compute; reflexivity).
    cbn [option_map]. reflexivity.
Qed.

(** ** The theorems on sample runs *)

(** The command works at once, and the next test of the loop condition
    finds the five minutes over. *)
Definition untilDeadline : list Round := [works 0; works (300 * second)].

(** No temporary file can be written. *)
Definition diskFull (txt : string) : string + error := inr (ErrLib "no space left on device").

(** X4: the hypotheses are met by [untilDeadline]: one attempt, then the
    deadline, and nil. *)
Lemma nil_only_after_deadline_witness :
  createConfigMap sampleEKS None sampleWriteTempFile ∅ untilDeadline
  = Some ({[ "/tmp/configmap.yaml" := sampleDocument ]},
          (EvInfo "writing ConfigMap"
             :: appliedEvents sampleEKS "/tmp/configmap.yaml" (works 0)
             ++ [EvInfo "created ConfigMap"; EvSync],
           Returned None))
  /\ exists pre r post,
       untilDeadline = pre ++ r :: post /\ Forall applied pre /\ waitDur <= elapsed r
       /\ EvInfo "writing ConfigMap"
            :: appliedEvents sampleEKS "/tmp/configmap.yaml" (works 0)
            ++ [EvInfo "created ConfigMap"; EvSync]
          = EvInfo "writing ConfigMap"
              :: flat_map (appliedEvents sampleEKS "/tmp/configmap.yaml") pre
              ++ [EvInfo "created ConfigMap"; EvSync]
       /\ attempts (EvInfo "writing ConfigMap"
                      :: appliedEvents sampleEKS "/tmp/configmap.yaml" (works 0)
                      ++ [EvInfo "created ConfigMap"; EvSync])
          = length pre.
Proof.
  assert (Hc : createConfigMap sampleEKS None sampleWriteTempFile ∅ untilDeadline
               = Some ({[ "/tmp/configmap.yaml" := sampleDocument ]},
                       (EvInfo "writing ConfigMap"
                          :: appliedEvents sampleEKS "/tmp/configmap.yaml" (works 0)
                          ++ [EvInfo "created ConfigMap"; EvSync],
                        Returned None)))
    by (vm_compute; reflexivity).
  split; [exact Hc |].
  exact (proj2 (nil_only_after_deadline sampleEKS None sampleWriteTempFile ∅ _
                  "/tmp/configmap.yaml" untilDeadline _ sampleEKS_written Hc)).
Defined.

(** X5: the hypotheses are met by [failsOnce], which ends with the error
    of the command and without [Sync]. *)
Lemma sync_only_at_deadline_witness :
  createConfigMap sampleEKS None sampleWriteTempFile ∅ failsOnce
  = Some ({[ "/tmp/configmap.yaml" := sampleDocument ]},
          ([EvInfo "writing ConfigMap"; applyOf sampleEKS "/tmp/configmap.yaml"],
           Returned (Some (ErrKubectl "exit status 1" "Unable to connect to the server"))))
  /\ (length (filter isSync [EvInfo "writing ConfigMap";
                             applyOf sampleEKS "/tmp/configmap.yaml"]) <= 1)%nat
  /\ (forall pre r post,
        failsOnce = pre ++ r :: post -> Forall applied pre -> elapsed r < waitDur ->
        selected r <> After5s \/ cmdErr r <> None ->
        filter isSync [EvInfo "writing ConfigMap"; applyOf sampleEKS "/tmp/configmap.yaml"]
        = [])
  /\ Forall (fun ev => isApply ev = true -> ev = applyOf sampleEKS "/tmp/configmap.yaml")
            [EvInfo "writing ConfigMap"; applyOf sampleEKS "/tmp/configmap.yaml"]
  /\ (attempts [EvInfo "writing ConfigMap"; applyOf sampleEKS "/tmp/configmap.yaml"]
      <= length failsOnce)%nat.
Proof.
  assert (Hc : createConfigMap sampleEKS None sampleWriteTempFile ∅ failsOnce
               = Some ({[ "/tmp/configmap.yaml" := sampleDocument ]},
                       ([EvInfo "writing ConfigMap"; applyOf sampleEKS "/tmp/configmap.yaml"],
                        Returned (Some (ErrKubectl "exit status 1"
                                          "Unable to connect to the server")))))
    by (vm_compute; reflexivity).
  split; [exact Hc |].
  exact (sync_only_at_deadline sampleEKS None sampleWriteTempFile ∅ _
           "/tmp/configmap.yaml" failsOnce _ _ sampleEKS_written Hc).
Defined.

(** X26: the hypotheses are met by [alwaysWorks], whose sixtieth turn
    comes 300.9 seconds after the start. *)
Lemma returns_by_the_deadline_witness :
  waitDur <= elapsed (works 300900000000)
  /\ exists evs res,
       createConfigMap sampleEKS None sampleWriteTempFile ∅
         (firstn 59 alwaysWorks ++ works 300900000000 :: [])
       = Some ({[ "/tmp/configmap.yaml" := sampleDocument ]}, (evs, Returned res))
       /\ (attempts evs <= length (firstn 59 alwaysWorks))%nat.
Proof.
  assert (Hd : waitDur <= elapsed (works 300900000000)) by (vm_compute; discriminate).
  split; [exact Hd |].
  exact (returns_by_the_deadline sampleEKS None sampleWriteTempFile ∅ _
           "/tmp/configmap.yaml" (firstn 59 alwaysWorks) (works 300900000000) []
           sampleEKS_written Hd).
Defined.

(** X6: the hypotheses are met by [sampleEKS] when no temporary file can
    be written. *)
Lemma write_failure_returns_witness :
  configMapAuthText (RoleARN sampleEKS) = Some sampleDocument
  /\ diskFull sampleDocument = inr (ErrLib "no space left on device")
  /\ exists fs' evs,
       createConfigMap sampleEKS None diskFull ∅ alwaysWorks
       = Some (fs', (evs, Returned (Some (ErrLib "no space left on device"))))
       /\ evs = [EvInfo "writing ConfigMap"]
       /\ attempts evs = 0%nat
       /\ filter isSync evs = [].
Proof.
  assert (H1 : configMapAuthText (RoleARN sampleEKS) = Some sampleDocument)
    by (vm_compute; reflexivity).
  split; [exact H1 |]. split; [reflexivity |].
  exact (write_failure_returns sampleEKS None diskFull ∅ alwaysWorks sampleDocument
           (ErrLib "no space left on device") H1 eq_refl).
Defined.

(** X7: the hypotheses are met by an ARN with the verb between
    "arn:aws:iam::123456789012:role/" and "-nodes". *)
Lemma arn_with_verb_witness :
  hasByte "%" "arn:aws:iam::123456789012:role/" = false
  /\ hasByte "%" "-nodes" = false
  /\ configMapAuthText ("arn:aws:iam::123456789012:role/" +:+ "%s" +:+ "-nodes")
     = Some (docHead +:+ "arn:aws:iam::123456789012:role/" +:+ usernameLine +:+ "-nodes"
               +:+ String "010" "      %!s(MISSING)"
               +:+ String "010" "      groups:"
               +:+ String "010" "      - system:bootstrappers"
               +:+ String "010" "      - system:nodes" +:+ String "010" "")
  /\ configMapAuthText ("arn:aws:iam::123456789012:role/" +:+ "%%" +:+ "-nodes")
     = Some (docHead +:+ "arn:aws:iam::123456789012:role/" +:+ "%" +:+ "-nodes" +:+ docTail).
Proof.
  assert (H1 : hasByte "%" "arn:aws:iam::123456789012:role/" = false)
    by (vm_compute; reflexivity).
  assert (H2 : hasByte "%" "-nodes" = false) by (vm_compute; reflexivity).
  split; [exact H1 |]. split; [exact H2 |].
  exact (arn_with_verb "arn:aws:iam::123456789012:role/" "-nodes" H1 H2).
Defined.

End NgMore.

(** * The overlay of environment variables, field by field *)

Module Ec2configOverlay.
Import GoStrings Strconv Ec2config Ec2configFacts.
Local Open Scope go_scope.

Set Default Proof Using "Type".

(** ** Reading a field by its name *)

(** The value of a field of [Config], by the Go type of the field. *)
Inductive Value :=
| VString (s : string)
| VBool (b : bool)
| VInt (z : Z)
| VMap (m : option (gmap string string))
| VInstances (m : option (gmap string Instance))
| VSlice (l : list string)
| VTime (t : Time).

(** [reflect.ValueOf(cfg).FieldByName(name)], for each field of the struct. *)
Definition fieldReaders : list (string * (Config -> Value)) :=
  [
    ("EnvPrefix", fun c => VString (EnvPrefix c));
    ("AWSAccountID", fun c => VString (AWSAccountID c));
    ("AWSRegion", fun c => VString (AWSRegion c));
    ("LogLevel", fun c => VString (LogLevel c));
    ("LogOutputs", fun c => VSlice (LogOutputs c));
    ("LogOutputToUploadPath", fun c => VString (LogOutputToUploadPath c));
    ("LogOutputToUploadPathBucket", fun c => VString (LogOutputToUploadPathBucket c));
    ("LogOutputToUploadPathURL", fun c => VString (LogOutputToUploadPathURL c));
    ("UploadTesterLogs", fun c => VBool (UploadTesterLogs c));
    ("UploadBucketExpireDays", fun c => VInt (UploadBucketExpireDays c));
    ("Tag", fun c => VString (Tag c));
    ("Tags", fun c => VMap (Tags c));
    ("ClusterName", fun c => VString (ClusterName c));
    ("DestroyAfterCreate", fun c => VBool (DestroyAfterCreate c));
    ("DestroyWaitTime", fun c => VInt (DestroyWaitTime c));
    ("ConfigPath", fun c => VString (ConfigPath c));
    ("ConfigPathBucket", fun c => VString (ConfigPathBucket c));
    ("ConfigPathURL", fun c => VString (ConfigPathURL c));
    ("UpdatedAt", fun c => VTime (UpdatedAt c));
    ("ImageID", fun c => VString (ImageID c));
    ("UserName", fun c => VString (UserName c));
    ("Plugins", fun c => VSlice (Plugins c));
    ("InitScript", fun c => VString (InitScript c));
    ("InitScriptCreated", fun c => VBool (InitScriptCreated c));
    ("InstanceType", fun c => VString (InstanceType c));
    ("ClusterSize", fun c => VInt (ClusterSize c));
    ("KeyName", fun c => VString (KeyName c));
    ("KeyPath", fun c => VString (KeyPath c));
    ("KeyPathBucket", fun c => VString (KeyPathBucket c));
    ("KeyPathURL", fun c => VString (KeyPathURL c));
    ("KeyCreateSkip", fun c => VBool (KeyCreateSkip c));
    ("KeyCreated", fun c => VBool (KeyCreated c));
    ("VPCCIDR", fun c => VString (VPCCIDR c));
    ("VPCID", fun c => VString (VPCID c));
    ("VPCCreated", fun c => VBool (VPCCreated c));
    ("InternetGatewayID", fun c => VString (InternetGatewayID c));
    ("RouteTableIDs", fun c => VSlice (RouteTableIDs c));
    ("SubnetIDs", fun c => VSlice (SubnetIDs c));
    ("SubnetIDToAvailabilityZone", fun c => VMap (SubnetIDToAvailabilityZone c));
    ("IngressRulesTCP", fun c => VMap (IngressRulesTCP c));
    ("SecurityGroupIDs", fun c => VSlice (SecurityGroupIDs c));
    ("AssociatePublicIPAddress", fun c => VBool (AssociatePublicIPAddress c));
    ("VolumeSize", fun c => VInt (VolumeSize c));
    ("Instances", fun c => VInstances (Instances c));
    ("Wait", fun c => VBool (Wait c));
    ("InstanceProfileFilePath", fun c => VString (InstanceProfileFilePath c));
    ("InstanceProfileName", fun c => VString (InstanceProfileName c));
    ("InstanceProfileCreated", fun c => VBool (InstanceProfileCreated c));
    ("InstanceProfilePolicyName", fun c => VString (InstanceProfilePolicyName c));
    ("InstanceProfilePolicyARN", fun c => VString (InstanceProfilePolicyARN c));
    ("InstanceProfilePolicy", fun c => VString (InstanceProfilePolicy c));
    ("InstanceProfilePolicyCreated", fun c => VBool (InstanceProfilePolicyCreated c));
    ("InstanceProfileRoleName", fun c => VString (InstanceProfileRoleName c));
    ("InstanceProfileRoleCreated", fun c => VBool (InstanceProfileRoleCreated c));
    ("CustomScript", fun c => VString (CustomScript c))
  ].

Fixpoint lookupReader (name : string) (rs : list (string * (Config -> Value)))
  : option (Config -> Value) :=
  match rs with
  | [] => None
  | (k, g) :: rest => if bool_decide (name = k) then Some g else lookupReader name rest
  end.

Definition fieldValue (name : string) (c : Config) : option Value :=
  option_map (fun g => g c) (lookupReader name fieldReaders).

(** ** What the setters of the field table write *)

(** The setter of the field [name] makes that field read the value set and
    leaves what every other field reads. *)
Definition writes {A : Type} (name : string) (V : A -> Value)
    (set : A -> Config -> Config) : Prop :=
  forall v c,
    fieldValue name (set v c) = Some (V v)
    /\ forall n, n <> name -> fieldValue n (set v c) = fieldValue n c.

Definition slotWrites (f : StructField) : Prop :=
  match fieldSlot f with
  | StringSlot set => writes (fieldName f) VString set
  | BoolSlot set => writes (fieldName f) VBool set
  | IntSlot _ set => writes (fieldName f) VInt set
  | MapSlot set => writes (fieldName f) VMap set
  | SliceSlot set => writes (fieldName f) VSlice set
  | InstancesSlot => True
  | TimeSlot => True
  end.

Lemma lookupReader_frame (upd : Config -> Config) name rs :
  List.Forall (fun kg => fst kg = name \/ forall c, snd kg (upd c) = snd kg c) rs ->
  forall n c, n <> name ->
    option_map (fun g => g (upd c)) (lookupReader n rs)
    = option_map (fun g => g c) (lookupReader n rs).
Proof.
  intros Hall n c Hn. induction Hall as [|[k g] rs Hkg _ IH]; [reflexivity |].
  cbn [lookupReader]. case_bool_decide as Hk; [| exact IH].
  cbn [option_map fst snd] in *. destruct Hkg as [Hkg | Hkg].
  - congruence.
  - rewrite Hkg. reflexivity.
Qed.

Ltac frame_rows :=
  repeat (apply List.Forall_cons;
          [ first [ right; intros; reflexivity | left; reflexivity ] | ]);
  apply List.Forall_nil.

Ltac writes_row :=
  intros v c; split;
  [ vm_compute; reflexivity
  | intros n Hn; unfold fieldValue;
    match goal with
    | Hn : _ <> ?name |- option_map (fun g => g (?set v c)) _ = _ =>
        apply (lookupReader_frame (set v) name fieldReaders); [frame_rows | exact Hn]
    end ].

Lemma configFields_write : List.Forall slotWrites configFields.
Proof.
  unfold configFields.
  repeat (apply List.Forall_cons;
          [ unfold slotWrites; cbn [fieldSlot fieldName]; first [exact I | writes_row] | ]).
  apply List.Forall_nil.
Qed.

Lemma configFields_tagged : List.Forall (fun f => fieldJSON f <> "") configFields.
Proof.
  unfold configFields.
  repeat (apply List.Forall_cons; [cbn [fieldJSON]; discriminate |]).
  apply List.Forall_nil.
Qed.

Lemma configFields_names : NoDup (map fieldName configFields).
Proof. apply (bool_decide_unpack _). vm_compute. reflexivity. Qed.

(** ** Splitting at a byte *)

Lemma rev_app_app a b c :
  String.rev_app (String.rev_app a b) c = String.rev_app b (a +:+ c).
Proof.
  revert b c. induction a as [|x a IH]; intros b c; [reflexivity |].
  cbn [String.rev_app]. rewrite IH. reflexivity.
Qed.

Lemma append_empty (a : string) : a +:+ "" = a.
Proof.
  induction a as [|x a IH]; [reflexivity |].
  change (String x (a +:+ "") = String x a). rewrite IH. reflexivity.
Qed.

Lemma rev_rev_app a : String.rev (String.rev_app a "") = a.
Proof. unfold String.rev. rewrite rev_app_app. cbn [String.rev_app]. apply append_empty. Qed.

Lemma splitFrom_piece sep cur a s :
  hasByte sep a = false ->
  splitFrom sep cur (a +:+ s) = splitFrom sep (String.rev_app a cur) s.
Proof.
  revert cur. induction a as [|x a IH]; intros cur H; [reflexivity |].
  cbn [hasByte] in H. destruct (Ascii.eqb x sep) eqn:E; [discriminate |].
  change (String x a +:+ s) with (String x (a +:+ s)).
  cbn [splitFrom String.rev_app]. rewrite E. apply IH. exact H.
Qed.

(** A piece without the separator is split off as it is. *)
Lemma Split_cons a sep s :
  hasByte sep a = false -> Split (a +:+ String sep s) sep = a :: Split s sep.
Proof.
  intros H. unfold Split. rewrite (splitFrom_piece sep "" a _ H).
  cbn [splitFrom]. rewrite Ascii.eqb_refl, rev_rev_app. reflexivity.
Qed.

Lemma Split_last a sep : hasByte sep a = false -> Split a sep = [a].
Proof.
  intros H. unfold Split. rewrite <- (append_empty a) at 1.
  rewrite (splitFrom_piece sep "" a _ H). cbn [splitFrom].
  rewrite rev_rev_app. reflexivity.
Qed.

(** [strings.Join(l, sep)]: how a list is written in a variable. *)
Fixpoint join (sep : string) (l : list string) : string :=
  match l with
  | [] => ""
  | [a] => a
  | a :: rest => a +:+ sep +:+ join sep rest
  end.

Lemma Split_join l :
  l <> [] ->
  List.Forall (fun a => hasByte "," a = false) l ->
  Split (join "," l) "," = l.
Proof.
  induction l as [|a l IH]; intros Hne Hall; [contradiction |].
  apply List.Forall_cons_iff in Hall. destruct Hall as [Ha Hall].
  destruct l as [|b l].
  - cbn [join]. apply Split_last. exact Ha.
  - change (join "," (a :: b :: l)) with (a +:+ String "," (join "," (b :: l))).
    rewrite (Split_cons a "," _ Ha). f_equal. apply IH; [discriminate | exact Hall].
Qed.

Lemma join_empty l : join "," l = "" -> l = [] \/ l = [""].
Proof.
  destruct l as [|a [|b l]]; cbn [join].
  - left. reflexivity.
  - intros ->. right. reflexivity.
  - destruct a; discriminate.
Qed.

(** A pair as written in a variable. *)
Definition pairText (kv : string * string) : string := fst kv +:+ "=" +:+ snd kv.

(** Neither the key nor the value holds a comma or an equals sign. *)
Definition plainPair (kv : string * string) : Prop :=
  hasByte "," (fst kv) = false /\ hasByte "=" (fst kv) = false
  /\ hasByte "," (snd kv) = false /\ hasByte "=" (snd kv) = false.

Lemma hasByte_app c (a b : string) : hasByte c (a +:+ b) = hasByte c a || hasByte c b.
Proof.
  induction a as [|x a IH]; [reflexivity |].
  change (String x a +:+ b) with (String x (a +:+ b)). cbn [hasByte].
  destruct (Ascii.eqb x c); [reflexivity | exact IH].
Qed.

Lemma pairText_plain kv :
  plainPair kv ->
  hasByte "," (pairText kv) = false /\ Split (pairText kv) "=" = [fst kv; snd kv].
Proof.
  intros (H1 & H2 & H3 & H4). unfold pairText. split.
  - rewrite !hasByte_app, H1, H3. reflexivity.
  - change (fst kv +:+ "=" +:+ snd kv) with (fst kv +:+ String "=" (snd kv)).
    rewrite (Split_cons _ "=" _ H2), (Split_last _ "=" H4). reflexivity.
Qed.

Lemma setMapPairs_plain sv kvs m :
  List.Forall plainPair kvs ->
  setMapPairs sv (map pairText kvs) m
  = (foldl (fun m kv => <[fst kv := snd kv]> m) m kvs, None).
Proof.
  revert m. induction kvs as [|kv kvs IH]; intros m Hall; [reflexivity |].
  apply List.Forall_cons_iff in Hall. destruct Hall as [Hkv Hall].
  cbn [map setMapPairs foldl].
  rewrite (proj2 (pairText_plain kv Hkv)). apply IH. exact Hall.
Qed.

(** A pair that does not split into two at the equals sign ends the loop
    with the format error. *)
Lemma setMapPairs_bad sv pairs m :
  List.Exists (fun kv => length (Split kv "=") <> 2%nat) pairs ->
  snd (setMapPairs sv pairs m) = Some (ErrMapFormat sv).
Proof.
  revert m. induction pairs as [|kv pairs IH]; intros m Hex.
  - inversion Hex.
  - cbn [setMapPairs].
    destruct (Split kv "=") as [|k [|v [|x l]]] eqn:E; try reflexivity.
    apply IH. apply List.Exists_cons in Hex. destruct Hex as [Hbad | Hex]; [| exact Hex].
    exfalso. apply Hbad. rewrite E. reflexivity.
Qed.

(** ** One field, and the loop *)

Section Overlay.

Variable ParseDuration : string -> option Z.
Variable env : gmap string string.

(** What a field holds after a call that took the override [sv] for it. *)
Definition overridden (f : StructField) (sv : string) (c' : Config) : Prop :=
  match fieldSlot f with
  | StringSlot _ => fieldValue (fieldName f) c' = Some (VString sv)
  | BoolSlot _ =>
      exists b, ParseBool sv = Some b /\ fieldValue (fieldName f) c' = Some (VBool b)
  | IntSlot _ _ =>
      exists z,
        (if bool_decide (fieldName f = "DestroyWaitTime")
         then ParseDuration sv else ParseInt sv) = Some z
        /\ fieldValue (fieldName f) c' = Some (VInt z)
  | MapSlot _ =>
      exists m,
        setMapPairs sv (Split sv ",") ∅ = (m, None)
        /\ fieldValue (fieldName f) c' = Some (VMap (Some m))
  | SliceSlot _ => fieldValue (fieldName f) c' = Some (VSlice (Split sv ","))
  | InstancesSlot => False
  | TimeSlot => False
  end.

Lemma overridden_ext f sv c1 c2 :
  fieldValue (fieldName f) c2 = fieldValue (fieldName f) c1 ->
  overridden f sv c1 -> overridden f sv c2.
Proof.
  unfold overridden. intros E. destruct (fieldSlot f); rewrite ?E; exact (fun H => H).
Qed.

Lemma updateField_step prefix f cc cc' :
  slotWrites f ->
  updateField ParseDuration env prefix f cc = (cc', None) ->
  (Getenv env (envKey prefix (fieldJSON f)) = "" -> cc' = cc)
  /\ (fieldJSON f <> "" -> Getenv env (envKey prefix (fieldJSON f)) <> "" ->
      overridden f (Getenv env (envKey prefix (fieldJSON f))) cc')
  /\ (forall n, n <> fieldName f -> fieldValue n cc' = fieldValue n cc).
Proof.
  intros Hw. unfold updateField, slotWrites, overridden in *.
  case_bool_decide as Hj.
  { intros H. injection H as <-. repeat split; congruence. }
  case_bool_decide as Hv.
  { intros H. injection H as <-. repeat split; congruence. }
  set (sv := Getenv env (envKey prefix (fieldJSON f))) in *.
  destruct (fieldSlot f) as [set|set|k set|set| |set| ].
  - intros H. injection H as <-. destruct (Hw sv cc) as [Hr Hf].
    split; [contradiction |]. split; [intros _ _; exact Hr | exact Hf].
  - destruct (ParseBool sv) as [b|] eqn:Eb; [| discriminate].
    intros H. injection H as <-. destruct (Hw b cc) as [Hr Hf].
    split; [contradiction |]. split; [| exact Hf].
    intros _ _. exists b. split; [reflexivity | exact Hr].
  - case_bool_decide as Hn.
    + destruct (ParseDuration sv) as [z|] eqn:Ez; [| discriminate].
      intros H. injection H as <-. destruct (Hw z cc) as [Hr Hf].
      split; [contradiction |]. split; [| exact Hf].
      intros _ _. exists z. split; [reflexivity | exact Hr].
    + destruct (ParseInt sv) as [z|] eqn:Ez; [| discriminate].
      intros H. injection H as <-. destruct (Hw z cc) as [Hr Hf].
      split; [contradiction |]. split; [| exact Hf].
      intros _ _. exists z. split; [reflexivity | exact Hr].
  - case_bool_decide as Hn; [| discriminate].
    destruct (setMapPairs sv (Split sv ",") ∅) as [m err] eqn:Em.
    intros H. injection H as <- ->. destruct (Hw (Some m) cc) as [Hr Hf].
    split; [contradiction |]. split; [| exact Hf].
    intros _ _. exists m. split; [reflexivity | exact Hr].
  - discriminate.
  - case_bool_decide as Hn; [| discriminate].
    intros H. injection H as <-. destruct (Hw (Split sv ",") cc) as [Hr Hf].
    split; [contradiction |]. split; [intros _ _; exact Hr | exact Hf].
  - discriminate.
Qed.

(** A loop that ran to its end: every field it visited holds its override,
    or reads as before when it has none, and so does every field it did not
    visit. *)
Lemma updateFields_overlay prefix fs :
  List.Forall slotWrites fs ->
  List.Forall (fun f => fieldJSON f <> "") fs ->
  NoDup (map fieldName fs) ->
  forall cc cc',
    updateFields ParseDuration env prefix fs cc = (cc', None) ->
    (forall f, In f fs ->
       (Getenv env (envKey prefix (fieldJSON f)) = "" ->
        fieldValue (fieldName f) cc' = fieldValue (fieldName f) cc)
       /\ (Getenv env (envKey prefix (fieldJSON f)) <> "" ->
           overridden f (Getenv env (envKey prefix (fieldJSON f))) cc'))
    /\ (forall n, ~ In n (map fieldName fs) -> fieldValue n cc' = fieldValue n cc).
Proof.
  induction fs as [|f0 fs IH]; intros Hw Ht Hnd cc cc' Hrun.
  - cbn in Hrun. injection Hrun as <-. split; [intros f [] | reflexivity].
  - apply List.Forall_cons_iff in Hw. destruct Hw as [Hw0 Hw].
    apply List.Forall_cons_iff in Ht. destruct Ht as [Ht0 Ht].
    cbn [map] in Hnd. apply NoDup_cons in Hnd. destruct Hnd as [Hnew Hnd].
    rewrite list_elem_of_In in Hnew.
    cbn [updateFields] in Hrun.
    apply andThen_inv_ok in Hrun. destruct Hrun as (c1 & H0 & Hrest).
    destruct (updateField_step prefix f0 cc c1 Hw0 H0) as (Hunset & Hset & Hframe).
    destruct (IH Hw Ht Hnd c1 cc' Hrest) as [Hin Hout].
    split.
    + intros f [<- | Hf].
      * split.
        -- intros Hv. rewrite (Hout _ Hnew). rewrite (Hunset Hv). reflexivity.
        -- intros Hv. apply (overridden_ext f0 _ c1); [exact (Hout _ Hnew) |].
           exact (Hset Ht0 Hv).
      * destruct (Hin f Hf) as [Hu Hs]. split; [| exact Hs].
        intros Hv. rewrite (Hu Hv). apply Hframe.
        intros E. apply Hnew. rewrite <- E. apply in_map. exact Hf.
    + intros n Hn. cbn [map] in Hn.
      rewrite (Hout n) by (intros Hc; apply Hn; right; exact Hc).
      apply Hframe. intros E. apply Hn. left. symmetry. exact E.
Qed.

(** No variable set: the loop changes nothing. *)
Lemma updateFields_unset prefix fs cc :
  (forall f, In f fs -> Getenv env (envKey prefix (fieldJSON f)) = "") ->
  updateFields ParseDuration env prefix fs cc = (cc, None).
Proof.
  induction fs as [|f0 fs IH]; intros Hall; [reflexivity |].
  cbn [updateFields].
  apply (andThen_ok _ _ cc cc).
  - apply updateField_unset. apply Hall. left. reflexivity.
  - apply IH. intros f Hf. apply Hall. right. exact Hf.
Qed.

(** A field whose override fails on every copy makes the loop fail. *)
Lemma updateFields_fails prefix fs f :
  In f fs ->
  (forall cc, snd (updateField ParseDuration env prefix f cc) <> None) ->
  forall cc, snd (updateFields ParseDuration env prefix fs cc) <> None.
Proof.
  intros Hin Hfail. induction fs as [|f0 fs IH]; [destruct Hin |].
  intros cc. cbn [updateFields]. unfold andThen.
  destruct (updateField ParseDuration env prefix f0 cc) as [c1 [e|]] eqn:E0.
  - discriminate.
  - destruct Hin as [-> | Hin].
    + exfalso. apply (Hfail cc). rewrite E0. reflexivity.
    + apply IH. exact Hin.
Qed.

Lemma UpdateFromEnvs_fails cfg :
  snd (updateFields ParseDuration env (EnvPrefix cfg) configFields cfg) <> None ->
  exists e, UpdateFromEnvs ParseDuration env cfg = (cfg, Some e).
Proof.
  unfold UpdateFromEnvs.
  destruct (updateFields ParseDuration env (EnvPrefix cfg) configFields cfg) as [cc [e|]].
  - intros _. exists e. reflexivity.
  - intros H. contradiction.
Qed.

(** X8: after a successful [UpdateFromEnvs], every field of the struct
    whose variable (the prefix the receiver had before the call, then the
    upper-cased JSON tag) is set and not empty holds the value read from the
    variable: the text for a string, the parsed boolean or integer (the
    duration for [DestroyWaitTime]), the comma-separated pieces for a slice,
    and for a map a new map of the [key=value] pairs alone; every field whose
    variable is unset or empty reads as before the call. *)
Theorem UpdateFromEnvs_overlay cfg cfg' f :
  UpdateFromEnvs ParseDuration env cfg = (cfg', None) ->
  In f configFields ->
  (Getenv env (envKey (EnvPrefix cfg) (fieldJSON f)) = "" ->
   fieldValue (fieldName f) cfg' = fieldValue (fieldName f) cfg)
  /\ (Getenv env (envKey (EnvPrefix cfg) (fieldJSON f)) <> "" ->
      overridden f (Getenv env (envKey (EnvPrefix cfg) (fieldJSON f))) cfg').
Proof.
  unfold UpdateFromEnvs.
  destruct (updateFields ParseDuration env (EnvPrefix cfg) configFields cfg)
    as [cc [e|]] eqn:Hrun; [discriminate |].
  intros H Hf. injection H as <-.
  exact (proj1 (updateFields_overlay (EnvPrefix cfg) configFields
                  configFields_write configFields_tagged configFields_names
                  cfg cc Hrun) f Hf).
Qed.

(** X9: when no variable of the struct's fields is set (or each is
    empty), [UpdateFromEnvs] returns nil and leaves the configuration as it
    is. *)
Theorem UpdateFromEnvs_no_overrides cfg :
  (forall f, In f configFields ->
     Getenv env (envKey (EnvPrefix cfg) (fieldJSON f)) = "") ->
  UpdateFromEnvs ParseDuration env cfg = (cfg, None).
Proof.
  intros Hall. unfold UpdateFromEnvs.
  rewrite (updateFields_unset (EnvPrefix cfg) configFields cfg Hall). reflexivity.
Qed.

(** ** The names of the variables *)

Lemma append_inj_l (prefix a b : string) : prefix +:+ a = prefix +:+ b -> a = b.
Proof.
  induction prefix as [|x prefix IH]; intros H; [exact H |].
  change (String x (prefix +:+ a) = String x (prefix +:+ b)) in H.
  injection H as H. apply IH. exact H.
Qed.

(** The variable names with an empty prefix are pairwise distinct. *)
Lemma suffixes_distinct : NoDup (map (fun f => envKey "" (fieldJSON f)) configFields).
Proof. apply (bool_decide_unpack _). vm_compute. reflexivity. Qed.

Lemma same_key_same_element {A : Type} (k : A -> string) (l : list A) x y :
  NoDup (map k l) -> In x l -> In y l -> k x = k y -> x = y.
Proof.
  induction l as [|a l IH]; intros Hnd Hx Hy E; [destruct Hx |].
  cbn [map] in Hnd. apply NoDup_cons in Hnd. destruct Hnd as [Hnew Hnd].
  rewrite list_elem_of_In in Hnew.
  destruct Hx as [-> | Hx]; destruct Hy as [-> | Hy].
  - reflexivity.
  - exfalso. apply Hnew. rewrite E. apply in_map. exact Hy.
  - exfalso. apply Hnew. rewrite <- E. apply in_map. exact Hx.
  - apply IH; assumption.
Qed.

(** X27: no two fields of the struct share a variable: with any prefix,
    two fields whose variable names are equal are the same field, so an
    override reaches exactly one field. *)
Theorem variables_are_distinct prefix f g :
  In f configFields -> In g configFields ->
  envKey prefix (fieldJSON f) = envKey prefix (fieldJSON g) ->
  f = g.
Proof.
  intros Hf Hg E.
  apply (same_key_same_element (fun f => envKey "" (fieldJSON f)) configFields f g
           suffixes_distinct Hf Hg).
  apply (append_inj_l prefix). exact E.
Qed.

(** The fields the switch has no case for. *)
Definition unsupported (f : StructField) : bool :=
  bool_decide (In (fieldName f)
                  ["LogOutputs"; "UpdatedAt"; "RouteTableIDs";
                   "SubnetIDToAvailabilityZone"; "Instances"]).

Lemma updateField_unsupported prefix f cc :
  In f configFields ->
  unsupported f = true ->
  Getenv env (envKey prefix (fieldJSON f)) <> "" ->
  snd (updateField ParseDuration env prefix f cc) <> None.
Proof.
  intros Hin Hu Hv. unfold updateField.
  assert (Hj : fieldJSON f <> "").
  { pose proof configFields_tagged as Ht. rewrite List.Forall_forall in Ht.
    apply Ht. exact Hin. }
  rewrite bool_decide_eq_false_2 by exact Hj.
  rewrite bool_decide_eq_false_2 by exact Hv.
  clear Hj Hv. revert Hu. unfold configFields in Hin. cbn [In] in Hin.
  repeat (destruct Hin as [<- | Hin];
          [ first [ intros Hu; vm_compute in Hu; discriminate Hu
                  | intros _; cbn; discriminate ] | ]).
  destruct Hin.
Qed.

(** X10: [UpdateFromEnvs] has no case for five fields of the struct:
    [LogOutputs] and [RouteTableIDs] (slices outside the three it sets),
    [SubnetIDToAvailabilityZone] and [Instances] (maps outside the two it
    sets) and [UpdatedAt] (a struct).  Setting the variable of one of them
    to a non-empty value makes every call fail, whatever the other variables
    hold, and the configuration is left as it was. *)
Theorem unsupported_override_fails cfg f :
  In f configFields ->
  In (fieldName f)
     ["LogOutputs"; "UpdatedAt"; "RouteTableIDs"; "SubnetIDToAvailabilityZone"; "Instances"] ->
  Getenv env (envKey (EnvPrefix cfg) (fieldJSON f)) <> "" ->
  exists e, UpdateFromEnvs ParseDuration env cfg = (cfg, Some e).
Proof.
  intros Hin Hname Hv. apply UpdateFromEnvs_fails.
  apply (updateFields_fails (EnvPrefix cfg) configFields f Hin).
  intros cc. apply updateField_unsupported; [exact Hin | | exact Hv].
  unfold unsupported. apply bool_decide_eq_true_2. exact Hname.
Qed.

(** X11: a slice field takes the list written in its variable with commas
    between the entries: after a successful call the field holds exactly the
    entries, in order, provided no entry holds a comma.  (The list replaces
    the one the field had; an empty value is no override.) *)
Theorem slice_override_round_trip cfg cfg' f set l :
  UpdateFromEnvs ParseDuration env cfg = (cfg', None) ->
  In f configFields ->
  fieldSlot f = SliceSlot set ->
  List.Forall (fun a => hasByte "," a = false) l ->
  l <> [] -> l <> [""] ->
  Getenv env (envKey (EnvPrefix cfg) (fieldJSON f)) = join "," l ->
  fieldValue (fieldName f) cfg' = Some (VSlice l).
Proof.
  unfold UpdateFromEnvs.
  destruct (updateFields ParseDuration env (EnvPrefix cfg) configFields cfg)
    as [cc [e|]] eqn:Hrun; [discriminate |].
  intros H Hf Hslot Hall Hne Hne' Hv. injection H as <-.
  destruct (proj1 (updateFields_overlay (EnvPrefix cfg) configFields
                     configFields_write configFields_tagged configFields_names
                     cfg cc Hrun) f Hf) as [_ Hset].
  assert (Hsv : Getenv env (envKey (EnvPrefix cfg) (fieldJSON f)) <> "").
  { rewrite Hv. intros E. destruct (join_empty l E); contradiction. }
  specialize (Hset Hsv). unfold overridden in Hset. rewrite Hslot in Hset.
  rewrite Hset, Hv, (Split_join l Hne Hall). reflexivity.
Qed.

(** X12: a map field ([Tags], [IngressRulesTCP]) takes the pairs written
    in its variable as [key=value] with commas between them: after a
    successful call the field is a new map that holds these pairs and nothing
    else, a later pair replacing an earlier one with the same key, provided no
    key or value holds a comma or an equals sign.  When some piece between two
    commas does not hold exactly one equals sign (as after a trailing comma),
    the call fails and the configuration is left as it was. *)
Theorem map_override_pairs cfg f set :
  In f configFields ->
  fieldSlot f = MapSlot set ->
  (forall cfg' kvs,
     UpdateFromEnvs ParseDuration env cfg = (cfg', None) ->
     kvs <> [] -> List.Forall plainPair kvs ->
     Getenv env (envKey (EnvPrefix cfg) (fieldJSON f)) = join "," (map pairText kvs) ->
     fieldValue (fieldName f) cfg'
     = Some (VMap (Some (foldl (fun m kv => <[fst kv := snd kv]> m) ∅ kvs))))
  /\ (Getenv env (envKey (EnvPrefix cfg) (fieldJSON f)) <> "" ->
      List.Exists (fun kv => length (Split kv "=") <> 2%nat)
                  (Split (Getenv env (envKey (EnvPrefix cfg) (fieldJSON f))) ",") ->
      exists e, UpdateFromEnvs ParseDuration env cfg = (cfg, Some e)).
Proof.
  intros Hf Hslot. split.
  - unfold UpdateFromEnvs.
    destruct (updateFields ParseDuration env (EnvPrefix cfg) configFields cfg)
      as [cc [e|]] eqn:Hrun; [discriminate |].
    intros cfg' kvs H Hne Hall Hv. injection H as <-.
    destruct (proj1 (updateFields_overlay (EnvPrefix cfg) configFields
                       configFields_write configFields_tagged configFields_names
                       cfg cc Hrun) f Hf) as [_ Hset].
    assert (Hpieces : List.Forall (fun a => hasByte "," a = false) (map pairText kvs)).
    { apply List.Forall_forall. intros a Ha. apply in_map_iff in Ha.
      destruct Ha as (kv & <- & Hkv). rewrite List.Forall_forall in Hall.
      exact (proj1 (pairText_plain kv (Hall kv Hkv))). }
    assert (Hsv : Getenv env (envKey (EnvPrefix cfg) (fieldJSON f)) <> "").
    { rewrite Hv. intros E. destruct (join_empty _ E) as [E' | E'].
      - destruct kvs; [contradiction | discriminate E'].
      - destruct kvs as [|kv [|kv' kvs]]; try discriminate E'.
        injection E' as E'. rewrite List.Forall_forall in Hall.
        pose proof (proj2 (pairText_plain kv (Hall kv (or_introl eq_refl)))) as Hs.
        rewrite E' in Hs. discriminate Hs. }
    specialize (Hset Hsv). unfold overridden in Hset. rewrite Hslot in Hset.
    destruct Hset as (m & Hm & Hval). rewrite Hval. do 2 f_equal.
    rewrite Hv, Split_join in Hm.
    + rewrite (setMapPairs_plain _ kvs ∅ Hall) in Hm. injection Hm as <-. reflexivity.
    + destruct kvs; [contradiction | discriminate].
    + exact Hpieces.
  - intros Hsv Hbad. apply UpdateFromEnvs_fails.
    apply (updateFields_fails (EnvPrefix cfg) configFields f Hf).
    intros cc. unfold updateField.
    assert (Hj : fieldJSON f <> "").
    { pose proof configFields_tagged as Ht. rewrite List.Forall_forall in Ht.
      apply Ht. exact Hf. }
    rewrite bool_decide_eq_false_2 by exact Hj.
    rewrite bool_decide_eq_false_2 by exact Hsv.
    rewrite Hslot. case_bool_decide; [| discriminate].
    pose proof (setMapPairs_bad (Getenv env (envKey (EnvPrefix cfg) (fieldJSON f)))
                  _ ∅ Hbad) as Hb.
    destruct (setMapPairs _ _ ∅) as [m err]. cbn [snd] in *. rewrite Hb. discriminate.
Qed.

End Overlay.

(** ** The theorems on sample environments *)

(** No duration is written in these environments. *)
Definition noDuration (s : string) : option Z := None.

Definition sampleEnv : gmap string string :=
  {[ "AWS_K8S_TESTER_EC2_CLUSTER_SIZE" := "3";
     "AWS_K8S_TESTER_EC2_PLUGINS" := "update-amazon-linux-2,install-go-1.12.9";
     "AWS_K8S_TESTER_EC2_TAGS" := "team=infra,env=test";
     "HOME" := "/root" ]}.

(** The default configuration after [UpdateFromEnvs] on [sampleEnv]. *)
Definition overlaid : Config := fst (UpdateFromEnvs noDuration sampleEnv NewDefault).

Example sampleEnv_call : UpdateFromEnvs noDuration sampleEnv NewDefault = (overlaid, None).
Proof. vm_compute. reflexivity. Qed.

Definition clusterSizeField : StructField :=
  field "ClusterSize" "cluster-size" (IntSlot KInt set_ClusterSize).

Definition pluginsField : StructField := field "Plugins" "plugins" (SliceSlot set_Plugins).

Definition tagsField : StructField := field "Tags" "tags" (MapSlot set_Tags).

Definition logOutputsField : StructField :=
  field "LogOutputs" "log-outputs" (SliceSlot set_LogOutputs).

Ltac in_table := unfold configFields; cbn [In]; repeat (first [left; reflexivity | right]).

(** X8: the hypotheses are met by the default configuration, [sampleEnv]
    and the field [ClusterSize]. *)
Lemma UpdateFromEnvs_overlay_witness :
  In clusterSizeField configFields
  /\ (Getenv sampleEnv (envKey (EnvPrefix NewDefault) (fieldJSON clusterSizeField)) = "" ->
      fieldValue (fieldName clusterSizeField) overlaid
      = fieldValue (fieldName clusterSizeField) NewDefault)
  /\ (Getenv sampleEnv (envKey (EnvPrefix NewDefault) (fieldJSON clusterSizeField)) <> "" ->
      overridden noDuration clusterSizeField
        (Getenv sampleEnv (envKey (EnvPrefix NewDefault) (fieldJSON clusterSizeField)))
        overlaid).
Proof.
  assert (Hf : In clusterSizeField configFields) by in_table.
  split; [exact Hf |].
  exact (UpdateFromEnvs_overlay noDuration sampleEnv NewDefault overlaid clusterSizeField
           sampleEnv_call Hf).
Defined.

(** X27: the hypotheses are met by the field [Tags] on both sides. *)
Lemma variables_are_distinct_witness :
  In tagsField configFields
  /\ envKey envPfx (fieldJSON tagsField) = envKey envPfx (fieldJSON tagsField)
  /\ tagsField = tagsField.
Proof.
  assert (Hf : In tagsField configFields) by in_table.
  split; [exact Hf |]. split; [reflexivity |].
  exact (variables_are_distinct envPfx tagsField tagsField Hf Hf eq_refl).
Defined.

(** Only a variable that belongs to no field is set. *)
Definition homeEnv : gmap string string := {[ "HOME" := "/root" ]}.

(** X9: the hypothesis is met by [homeEnv]. *)
Lemma UpdateFromEnvs_no_overrides_witness :
  (forall f, In f configFields ->
     Getenv homeEnv (envKey (EnvPrefix NewDefault) (fieldJSON f)) = "")
  /\ UpdateFromEnvs noDuration homeEnv NewDefault = (NewDefault, None).
Proof.
  assert (H : forall f, In f configFields ->
                Getenv homeEnv (envKey (EnvPrefix NewDefault) (fieldJSON f)) = "").
  { intros f Hf. unfold configFields in Hf. cbn [In] in Hf.
    repeat (destruct Hf as [<- | Hf]; [vm_compute; reflexivity |]).
    destruct Hf. }
  split; [exact H |].
  exact (UpdateFromEnvs_no_overrides noDuration homeEnv NewDefault H).
Defined.

Definition logOutputsEnv : gmap string string :=
  {[ "AWS_K8S_TESTER_EC2_LOG_OUTPUTS" := "stderr";
     "AWS_K8S_TESTER_EC2_CLUSTER_SIZE" := "3" ]}.

(** X10: the hypotheses are met by [logOutputsEnv] and the field
    [LogOutputs]. *)
Lemma unsupported_override_fails_witness :
  In logOutputsField configFields
  /\ Getenv logOutputsEnv (envKey (EnvPrefix NewDefault) (fieldJSON logOutputsField)) <> ""
  /\ exists e, UpdateFromEnvs noDuration logOutputsEnv NewDefault = (NewDefault, Some e).
Proof.
  assert (Hf : In logOutputsField configFields) by in_table.
  assert (Hn : In (fieldName logOutputsField)
                  ["LogOutputs"; "UpdatedAt"; "RouteTableIDs";
                   "SubnetIDToAvailabilityZone"; "Instances"])
    by (left; reflexivity).
  assert (Hv : Getenv logOutputsEnv
                 (envKey (EnvPrefix NewDefault) (fieldJSON logOutputsField)) <> "")
    by (vm_compute; discriminate).
  split; [exact Hf |]. split; [exact Hv |].
  exact (unsupported_override_fails noDuration logOutputsEnv NewDefault logOutputsField
           Hf Hn Hv).
Defined.

(** X11: the hypotheses are met by [sampleEnv] and the field [Plugins]. *)
Lemma slice_override_round_trip_witness :
  In pluginsField configFields
  /\ Getenv sampleEnv (envKey (EnvPrefix NewDefault) (fieldJSON pluginsField))
     = join "," ["update-amazon-linux-2"; "install-go-1.12.9"]
  /\ fieldValue (fieldName pluginsField) overlaid
     = Some (VSlice ["update-amazon-linux-2"; "install-go-1.12.9"]).
Proof.
  assert (Hf : In pluginsField configFields) by in_table.
  assert (Hv : Getenv sampleEnv (envKey (EnvPrefix NewDefault) (fieldJSON pluginsField))
               = join "," ["update-amazon-linux-2"; "install-go-1.12.9"])
    by (vm_compute; reflexivity).
  assert (Hall : List.Forall (fun a => hasByte "," a = false)
                   ["update-amazon-linux-2"; "install-go-1.12.9"])
    by (repeat constructor).
  split; [exact Hf |]. split; [exact Hv |].
  refine (slice_override_round_trip noDuration sampleEnv NewDefault overlaid pluginsField
            set_Plugins ["update-amazon-linux-2"; "install-go-1.12.9"]
            sampleEnv_call Hf eq_refl Hall _ _ Hv); discriminate.
Defined.

(** X12: the hypotheses are met by [sampleEnv] and the field [Tags]. *)
Lemma map_override_pairs_witness :
  In tagsField configFields
  /\ Getenv sampleEnv (envKey (EnvPrefix NewDefault) (fieldJSON tagsField))
     = join "," (map pairText [("team", "infra"); ("env", "test")])
  /\ fieldValue (fieldName tagsField) overlaid
     = Some (VMap (Some (<["env" := "test"]> (<["team" := "infra"]> ∅)))).
Proof.
  assert (Hf : In tagsField configFields) by in_table.
  assert (Hv : Getenv sampleEnv (envKey (EnvPrefix NewDefault) (fieldJSON tagsField))
               = join "," (map pairText [("team", "infra"); ("env", "test")]))
    by (vm_compute; reflexivity).
  assert (Hall : List.Forall plainPair [("team", "infra"); ("env", "test")])
    by (repeat constructor).
  split; [exact Hf |]. split; [exact Hv |].
  refine (proj1 (map_override_pairs noDuration sampleEnv NewDefault tagsField set_Tags
                   Hf eq_refl)
            overlaid [("team", "infra"); ("env", "test")] sampleEnv_call _ Hall Hv).
  discriminate.
Defined.

End Ec2configOverlay.

(** * Further properties of ValidateAndSetDefaults *)

Module Ec2configMore.
Import GoStrings Ec2config Ec2configFacts.
Local Open Scope go_scope.

Set Default Proof Using "Type".

(** ** The fields a call can write *)

(** The configuration [c] with the fields that [ValidateAndSetDefaults]
    assigns taken from [c']. *)
Definition withDerived (c' c : Config) : Config :=
  set_InstanceProfilePolicyName (InstanceProfilePolicyName c')
  (set_InstanceProfileRoleName (InstanceProfileRoleName c')
  (set_InstanceProfileName (InstanceProfileName c')
  (set_KeyPath (KeyPath c')
  (set_KeyPathBucket (KeyPathBucket c')
  (set_KeyName (KeyName c')
  (set_LogOutputToUploadPathBucket (LogOutputToUploadPathBucket c')
  (set_LogOutputs (LogOutputs c')
  (set_LogOutputToUploadPath (LogOutputToUploadPath c')
  (set_ConfigPathBucket (ConfigPathBucket c')
  (set_ConfigPath (ConfigPath c')
  (set_ClusterName (ClusterName c')
  (set_Tag (Tag c')
  (set_InitScriptCreated (InitScriptCreated c')
  (set_InitScript (InitScript c') c)))))))))))))).

(** A statement sequence that writes these fields at most, whether it
    returns an error or not. *)
Definition writesDerived (m : M) : Prop :=
  forall c, fst (m c) = withDerived (fst (m c)) c.

Lemma withDerived_same c : withDerived c c = c.
Proof. destruct c; reflexivity. Qed.

Lemma withDerived_absorb a b c : withDerived c (withDerived b a) = withDerived c a.
Proof. reflexivity. Qed.

Lemma withDerived_step a b c :
  b = withDerived b a -> c = withDerived c b -> c = withDerived c a.
Proof.
  intros Hb Hc. rewrite <- (withDerived_absorb a b c). rewrite <- Hb. exact Hc.
Qed.

Lemma writesDerived_check cond e : writesDerived (check cond e).
Proof.
  intros c. unfold check. destruct (cond c); cbn [fst]; symmetry; apply withDerived_same.
Qed.

Lemma writesDerived_assign f :
  (forall c, f c = withDerived (f c) c) -> writesDerived (assign f).
Proof. intros H c. apply H. Qed.

Lemma writesDerived_when cond m : writesDerived m -> writesDerived (when cond m).
Proof.
  intros H c. unfold when. destruct (cond c); [apply H |].
  cbn [fst]. symmetry. apply withDerived_same.
Qed.

Lemma writesDerived_andThen m1 m2 :
  writesDerived m1 -> writesDerived m2 -> writesDerived (m1 ;; m2).
Proof.
  intros H1 H2 c. unfold andThen.
  specialize (H1 c). destruct (m1 c) as [c1 [e|]]; cbn [fst] in *.
  - exact H1.
  - apply (withDerived_step c c1); [exact H1 | apply H2].
Qed.

Lemma writesDerived_tempPath w pattern (set : string -> Config -> Config) :
  (forall p c, set p c = withDerived (set p c) c) ->
  writesDerived (fun cfg => match tempPath w pattern with
                            | inr e => (cfg, Some e)
                            | inl p => (set p cfg, None)
                            end).
Proof.
  intros H c. destruct (tempPath w pattern); cbn [fst]; [apply H |].
  symmetry. apply withDerived_same.
Qed.

Ltac writes_tac :=
  repeat first
    [ apply writesDerived_andThen
    | apply writesDerived_when
    | apply writesDerived_check
    | apply writesDerived_tempPath; intros p c; destruct c; reflexivity
    | apply writesDerived_assign; intros c; destruct c; reflexivity ].

Ltac keeps_all :=
  repeat first
    [ apply keeps_andThen
    | apply keeps_when
    | apply keeps_check
    | apply keeps_tempPath; intros; reflexivity
    | apply keeps_assign; intros; reflexivity ].

Section Finalize.

Variable RegionToAiport : gmap string string.
Variable pluginsCreate : string -> string -> list string -> string * option error.
Variable Join : string -> string -> string.
Variable w : World.

Local Abbreviation VASD := (ValidateAndSetDefaults RegionToAiport pluginsCreate Join w).

Lemma writesDerived_createInitScript : writesDerived (createInitScript pluginsCreate).
Proof.
  unfold createInitScript. apply writesDerived_when. intros c.
  destruct (pluginsCreate (UserName c) (CustomScript c) (Plugins c)) as [s [e|]];
    destruct c; reflexivity.
Qed.

Lemma writesDerived_VASD : writesDerived VASD.
Proof.
  unfold ValidateAndSetDefaults.
  apply writesDerived_andThen; [unfold validateHead; writes_tac |].
  apply writesDerived_andThen; [apply writesDerived_createInitScript |].
  unfold validateTail, deriveNames, deriveConfigPath, deriveLogOutput, deriveKey,
    deriveInstanceProfile.
  writes_tac.
Qed.

(** X13: whatever [ValidateAndSetDefaults] returns, it has written no
    field other than the fifteen it derives: the init script and its flag,
    tag, cluster name, configuration path, the three storage keys, the log
    file to upload and the log outputs, key name and key path, and the three
    instance profile names.  The inputs of the call (region, user name,
    image, instance type, cluster size, plugin list, custom script, instance
    profile file) and the records of what has been created read as before,
    also when the call fails half way. *)
Theorem only_derived_fields_written cfg :
  fst (ValidateAndSetDefaults RegionToAiport pluginsCreate Join w cfg)
  = withDerived (fst (ValidateAndSetDefaults RegionToAiport pluginsCreate Join w cfg)) cfg
  /\ AWSRegion (fst (VASD cfg)) = AWSRegion cfg
  /\ UserName (fst (VASD cfg)) = UserName cfg
  /\ ImageID (fst (VASD cfg)) = ImageID cfg
  /\ InstanceType (fst (VASD cfg)) = InstanceType cfg
  /\ ClusterSize (fst (VASD cfg)) = ClusterSize cfg
  /\ Plugins (fst (VASD cfg)) = Plugins cfg
  /\ CustomScript (fst (VASD cfg)) = CustomScript cfg
  /\ InstanceProfileFilePath (fst (VASD cfg)) = InstanceProfileFilePath cfg
  /\ KeyCreated (fst (VASD cfg)) = KeyCreated cfg
  /\ VPCCreated (fst (VASD cfg)) = VPCCreated cfg
  /\ InstanceProfileCreated (fst (VASD cfg)) = InstanceProfileCreated cfg
  /\ Instances (fst (VASD cfg)) = Instances cfg.
Proof.
  pose proof (writesDerived_VASD cfg) as H.
  split; [exact H |].
  repeat split.
  - exact (f_equal AWSRegion H).
  - exact (f_equal UserName H).
  - exact (f_equal ImageID H).
  - exact (f_equal InstanceType H).
  - exact (f_equal ClusterSize H).
  - exact (f_equal Plugins H).
  - exact (f_equal CustomScript H).
  - exact (f_equal InstanceProfileFilePath H).
  - exact (f_equal KeyCreated H).
  - exact (f_equal VPCCreated H).
  - exact (f_equal InstanceProfileCreated H).
  - exact (f_equal Instances H).
Qed.

(** ** The init script *)

(** X14: once [InitScriptCreated] is set, no call renders the init
    script again: [InitScript] and the flag read as before after every call,
    failing or not, whatever the plugin list and the custom script are by
    then. *)
Theorem built_script_is_kept cfg :
  InitScriptCreated cfg = true ->
  InitScript (fst (ValidateAndSetDefaults RegionToAiport pluginsCreate Join w cfg))
  = InitScript cfg
  /\ InitScriptCreated (fst (ValidateAndSetDefaults RegionToAiport pluginsCreate Join w cfg))
     = true.
Proof.
  intros Hc.
  assert (Hk : forall {A} (P : Config -> A),
             keeps P (afterInitScript RegionToAiport Join w) -> P (fst (VASD cfg)) = P cfg).
  { intros A P HP. rewrite VASD_unfold. unfold andThen at 1.
    pose proof (validateHead_pure RegionToAiport cfg) as Hh.
    destruct (validateHead RegionToAiport cfg) as [c1 [e|]]; cbn [fst] in Hh; subst c1.
    - reflexivity.
    - unfold andThen. rewrite createInitScript_skip by (right; exact Hc).
      apply HP. }
  split.
  - apply Hk. apply afterInitScript_keeps_InitScript.
  - rewrite <- Hc. apply Hk. apply afterInitScript_keeps_InitScriptCreated.
Qed.

(** X15: when the first five checks pass, plugins are listed and the
    script has not been built, the call renders the plugins.  If the
    renderer returns no error, the init script becomes the rendered text, a
    line feed, and the text the field held before, and the flag is set, also
    when a later statement of the call fails.  If the renderer returns an
    error, the call returns it, the flag stays unset, and the field holds
    what the renderer returned with the error: the text it held before is
    gone. *)
Theorem init_script_rendered cfg :
  HeadOK RegionToAiport cfg ->
  Plugins cfg <> [] ->
  InitScriptCreated cfg = false ->
  (forall s,
     pluginsCreate (UserName cfg) (CustomScript cfg) (Plugins cfg) = (s, None) ->
     InitScript (fst (ValidateAndSetDefaults RegionToAiport pluginsCreate Join w cfg))
     = s ++ String "010" "" ++ InitScript cfg
     /\ InitScriptCreated
          (fst (ValidateAndSetDefaults RegionToAiport pluginsCreate Join w cfg)) = true)
  /\ (forall s e,
        pluginsCreate (UserName cfg) (CustomScript cfg) (Plugins cfg) = (s, Some e) ->
        ValidateAndSetDefaults RegionToAiport pluginsCreate Join w cfg
        = (set_InitScript s cfg, Some e)).
Proof.
  intros Hhead Hp Hc.
  assert (Hrun : (bool_decide (0 < length (Plugins cfg))%nat
                  && negb (InitScriptCreated cfg)) = true).
  { rewrite Hc. rewrite bool_decide_eq_true_2; [reflexivity |].
    destruct (Plugins cfg); [contradiction | cbn; lia]. }
  split.
  - intros s Hs.
    assert (Hi : createInitScript pluginsCreate cfg
                 = (set_InitScriptCreated true
                      (set_InitScript (s ++ String "010" "" ++ InitScript cfg) cfg), None)).
    { unfold createInitScript, when. rewrite Hrun, Hs. destruct cfg; reflexivity. }
    assert (Hv : VASD cfg
                 = afterInitScript RegionToAiport Join w
                     (set_InitScriptCreated true
                        (set_InitScript (s ++ String "010" "" ++ InitScript cfg) cfg))).
    { rewrite VASD_unfold. unfold andThen. rewrite (validateHead_ok _ _ Hhead), Hi.
      reflexivity. }
    rewrite Hv. split.
    + rewrite afterInitScript_keeps_InitScript. reflexivity.
    + rewrite afterInitScript_keeps_InitScriptCreated. reflexivity.
  - intros s e Hs.
    rewrite VASD_unfold. unfold andThen at 1. rewrite (validateHead_ok _ _ Hhead).
    unfold andThen, createInitScript, when. rewrite Hrun, Hs. reflexivity.
Qed.

(** ** The log outputs *)

(** The log outputs after a statement sequence are those before it, with
    the log file to upload added at the end if anything was added. *)
Definition addsLogFile (m : M) : Prop :=
  forall c,
    LogOutputs (fst (m c)) = LogOutputs c
    \/ (LogOutputs (fst (m c)) = (LogOutputs c ++ [LogOutputToUploadPath (fst (m c))])%list
        /\ ~ In (LogOutputToUploadPath (fst (m c))) (LogOutputs c)).

Lemma addsLogFile_after m1 m2 :
  keeps LogOutputs m1 -> addsLogFile m2 -> addsLogFile (m1 ;; m2).
Proof.
  intros H1 H2 c. unfold andThen. specialize (H1 c).
  destruct (m1 c) as [c1 [e|]]; cbn [fst] in *.
  - left. exact H1.
  - rewrite <- H1. apply H2.
Qed.

Lemma addsLogFile_before m1 m2 :
  addsLogFile m1 -> keeps LogOutputs m2 -> keeps LogOutputToUploadPath m2 ->
  addsLogFile (m1 ;; m2).
Proof.
  intros H1 H2 H3 c. unfold andThen. specialize (H1 c).
  destruct (m1 c) as [c1 [e|]]; cbn [fst] in *.
  - exact H1.
  - rewrite H2, H3. exact H1.
Qed.

Lemma addsLogFile_deriveLogOutput : addsLogFile (deriveLogOutput Join w).
Proof.
  intros c. destruct (deriveLogOutput_spec Join w c) as (l & Hl & _ & Hin & Hout).
  rewrite Hl. cbn [fst]. read_fields.
  destruct (in_dec string_dec (logPathFor Join (TempDir w) c) (LogOutputs c)) as [Hi|Hi].
  - left. exact (Hin Hi).
  - right. split; [exact (Hout Hi) | exact Hi].
Qed.

(** X16: a call never removes or reorders log outputs, and adds at most
    one: after every call, failing or not, [LogOutputs] is what it was, or
    what it was followed by the log file to upload, which was then not among
    them. *)
Theorem log_outputs_grow_by_one cfg :
  LogOutputs (fst (ValidateAndSetDefaults RegionToAiport pluginsCreate Join w cfg))
  = LogOutputs cfg
  \/ (LogOutputs (fst (ValidateAndSetDefaults RegionToAiport pluginsCreate Join w cfg))
      = (LogOutputs cfg ++ [LogOutputToUploadPath (fst (VASD cfg))])%list
      /\ ~ In (LogOutputToUploadPath (fst (VASD cfg))) (LogOutputs cfg)).
Proof.
  revert cfg. change (addsLogFile VASD). unfold ValidateAndSetDefaults.
  apply addsLogFile_after; [unfold validateHead; keeps_all |].
  apply addsLogFile_after.
  { intros c. rewrite createInitScript_frame. reflexivity. }
  apply addsLogFile_after; [unfold validateTail; keeps_all |].
  apply addsLogFile_after; [unfold deriveNames; keeps_all |].
  apply addsLogFile_after; [unfold deriveConfigPath; keeps_all |].
  apply addsLogFile_before.
  - apply addsLogFile_deriveLogOutput.
  - unfold deriveKey, deriveInstanceProfile; keeps_all.
  - unfold deriveKey, deriveInstanceProfile; keeps_all.
Qed.

(** ** What a successful call leaves *)

(** X17: a call that returns no error leaves a configuration that passes
    all six checks itself, needs no rendering of the init script, has a
    non-empty tag, cluster name and key name, carries the three storage keys
    and the log file derived from the cluster name it now has, lists that log
    file among its log outputs, and, when an instance profile file is named,
    carries the three profile names derived from the cluster name. *)
Theorem success_postconditions cfg cfg1 :
  ValidateAndSetDefaults RegionToAiport pluginsCreate Join w cfg = (cfg1, None) ->
  (LogOutputs cfg1 <> [] /\ AWSRegion cfg1 <> ""
   /\ RegionToAiport !! AWSRegion cfg1 <> None /\ UserName cfg1 <> "" /\ ImageID cfg1 <> ""
   /\ InstanceType cfg1 <> "" /\ 1 <= ClusterSize cfg1)
  /\ (Plugins cfg1 = [] \/ InitScriptCreated cfg1 = true)
  /\ Tag cfg1 <> "" /\ ClusterName cfg1 <> "" /\ KeyName cfg1 <> ""
  /\ ConfigPathBucket cfg1 = Join (ClusterName cfg1) "ec2config.yaml"
  /\ LogOutputToUploadPath cfg1 = Join (TempDir w) (ClusterName cfg1 ++ ".log")
  /\ In (LogOutputToUploadPath cfg1) (LogOutputs cfg1)
  /\ LogOutputToUploadPathBucket cfg1 = Join (ClusterName cfg1) "ec2.log"
  /\ KeyPathBucket cfg1 = Join (ClusterName cfg1) "ec2.key"
  /\ (InstanceProfileFilePath cfg1 <> "" ->
      InstanceProfileName cfg1 = ClusterName cfg1 ++ "-instance-profile"
      /\ InstanceProfileRoleName cfg1 = InstanceProfileName cfg1 ++ "-role"
      /\ InstanceProfilePolicyName cfg1 = InstanceProfileName cfg1 ++ "-policy").
Proof.
  intros H. apply success_Finalized in H. destruct H as [H _].
  unfold Finalized, HeadOK, TailOK in H.
  destruct H as ((H1 & H2 & H3 & H4 & H5) & Hs & (H6 & H7) & Ht & Hn & Hcb & Hlp & Hin
                 & Hlb & Hk & Hkb & Hp).
  split; [repeat split; assumption |].
  split; [exact Hs |]. split; [exact Ht |]. split; [exact Hn |]. split; [exact Hk |].
  split; [exact Hcb |]. split; [exact Hlp |]. split; [exact Hin |]. split; [exact Hlb |].
  split; [exact Hkb |].
  exact Hp.
Qed.

(** ** Paths and key name *)

Lemma deriveConfigPath_temp cfg c' :
  deriveConfigPath Join w cfg = (c', None) ->
  ConfigPath cfg = "" ->
  exists name,
    TempFile w (TempDir w) "ec2config" = inl name /\ ConfigPath c' = fst (Abs w name).
Proof.
  unfold deriveConfigPath, andThen, when, assign, isEmpty, tempPath. intros H He.
  rewrite (bool_decide_eq_true_2 _ He) in H.
  destruct (TempFile w (TempDir w) "ec2config") as [name|e]; inv_pair H.
  exists name. split; reflexivity.
Qed.

Lemma deriveKey_temp cfg c' :
  deriveKey Join w cfg = (c', None) ->
  KeyPath cfg = "" ->
  exists name,
    TempFile w (TempDir w) "ec2.key" = inl name /\ KeyPath c' = fst (Abs w name).
Proof.
  unfold deriveKey, andThen, when, assign, isEmpty, tempPath. intros H He.
  destruct (bool_decide (KeyName cfg = "")); read_fields;
    rewrite (bool_decide_eq_true_2 _ He) in H;
    (destruct (TempFile w (TempDir w) "ec2.key") as [name|e]; inv_pair H);
    exists name; split; reflexivity.
Qed.

(** X18: after a successful call the configuration path and the key path
    are the ones given, or, for one that was empty, the absolute form of the
    name of a new temporary file (pattern ec2config, resp. ec2.key, in the
    temporary directory), whatever error [filepath.Abs] returned; the key name
    is the one given, or the cluster name when none was given. *)
Theorem paths_and_key_name cfg cfg1 :
  ValidateAndSetDefaults RegionToAiport pluginsCreate Join w cfg = (cfg1, None) ->
  (ConfigPath cfg <> "" -> ConfigPath cfg1 = ConfigPath cfg)
  /\ (ConfigPath cfg = "" ->
      exists name,
        TempFile w (TempDir w) "ec2config" = inl name
        /\ ConfigPath cfg1 = fst (Abs w name))
  /\ (KeyPath cfg <> "" -> KeyPath cfg1 = KeyPath cfg)
  /\ (KeyPath cfg = "" ->
      exists name,
        TempFile w (TempDir w) "ec2.key" = inl name /\ KeyPath cfg1 = fst (Abs w name))
  /\ (KeyName cfg <> "" -> KeyName cfg1 = KeyName cfg)
  /\ (KeyName cfg = "" -> KeyName cfg1 = ClusterName cfg1).
Proof.
  intros H. unfold ValidateAndSetDefaults in H.
  apply andThen_inv_ok in H. destruct H as (c1 & H1 & H).
  apply validateHead_inv in H1. destruct H1 as [-> Hhead].
  apply andThen_inv_ok in H. destruct H as (c2 & H2 & H).
  apply createInitScript_inv in H2. destruct H2 as (s & b & -> & Hplug).
  apply andThen_inv_ok in H. destruct H as (c3 & H3 & H).
  apply validateTail_inv in H3. destruct H3 as [-> Htail].
  apply andThen_inv_ok in H. destruct H as (c4 & H4 & H).
  destruct (deriveNames_spec RegionToAiport w
              (set_InitScriptCreated b (set_InitScript s cfg)))
    as (tag & name & Hn & _).
  rewrite Hn in H4. injection H4 as <-. clear Hn.
  apply andThen_inv_ok in H. destruct H as (c5 & H5 & H).
  pose proof (deriveConfigPath_temp _ _ H5) as Htmp.
  apply deriveConfigPath_inv in H5. destruct H5 as (p & -> & Hp).
  apply andThen_inv_ok in H. destruct H as (c6 & H6 & H).
  match type of H6 with deriveLogOutput _ _ ?c = _ =>
    destruct (deriveLogOutput_spec Join w c) as (l & Hl & _) end.
  rewrite Hl in H6. injection H6 as <-. clear Hl.
  apply andThen_inv_ok in H. destruct H as (c7 & H7 & H).
  pose proof (deriveKey_temp _ _ H7) as Hktmp.
  apply deriveKey_inv in H7. destruct H7 as (kn & kp & -> & Hk1 & Hk2 & Hk3).
  apply deriveInstanceProfile_inv in H.
  read_fields.
  destruct H as [[_ ->] | (_ & _ & ->)]; read_fields;
    (split; [exact Hp |]); (split; [exact Htmp |]); (split; [exact Hk3 |]);
    (split; [exact Hktmp |]); (split; [exact Hk2 | exact Hk1]).
Qed.

(** ** A temporary file that cannot be made *)

(** X19: a call can fail after it has written.  When the checks pass, no
    init script is to be rendered, the configuration path is empty and the
    temporary file for it cannot be made, the call returns the error of
    [ioutil.TempFile], and by then it has set the tag and the cluster name
    and nothing else: a tag or name that was given is kept; an empty tag has
    become [genTag()], and an empty cluster name the tag, the lower-cased
    airport of the region, the region and five random bytes, joined by
    hyphens. *)
Theorem temp_file_failure cfg e :
  HeadOK RegionToAiport cfg ->
  Plugins cfg = [] \/ InitScriptCreated cfg = true ->
  TailOK cfg ->
  ConfigPath cfg = "" ->
  TempFile w (TempDir w) "ec2config" = inr e ->
  exists tag name,
    ValidateAndSetDefaults RegionToAiport pluginsCreate Join w cfg
    = (set_ClusterName name (set_Tag tag cfg), Some e)
    /\ tag <> "" /\ name <> ""
    /\ (Tag cfg = "" -> tag = genTag (Now w))
    /\ (Tag cfg <> "" -> tag = Tag cfg)
    /\ (ClusterName cfg <> "" -> name = ClusterName cfg)
    /\ (ClusterName cfg = "" ->
        name = tag ++ "-" ++ ToLower (default "" (RegionToAiport !! AWSRegion cfg))
                   ++ "-" ++ AWSRegion cfg ++ "-" ++ randString w 5).
Proof.
  intros Hhead Hskip Htail Hpath Htmp.
  destruct (deriveNames_spec RegionToAiport w cfg)
    as (tag & name & Hn & Ht1 & Ht2 & Hn1 & Hn2 & Ht3 & Hn3).
  exists tag, name. split; [| repeat split; assumption].
  unfold ValidateAndSetDefaults.
  eapply andThen_ok; [apply validateHead_ok; exact Hhead |].
  eapply andThen_ok; [apply createInitScript_skip; exact Hskip |].
  eapply andThen_ok; [apply validateTail_ok; exact Htail |].
  eapply andThen_ok; [exact Hn |].
  apply andThen_err.
  unfold deriveConfigPath. apply andThen_err.
  unfold when, isEmpty, tempPath. read_fields.
  rewrite (bool_decide_eq_true_2 _ Hpath), Htmp. reflexivity.
Qed.

(** ** What can make a call fail *)

Lemma createInitScript_err cfg c' e :
  createInitScript pluginsCreate cfg = (c', Some e) ->
  exists s, pluginsCreate (UserName cfg) (CustomScript cfg) (Plugins cfg) = (s, Some e).
Proof.
  unfold createInitScript, when.
  destruct (bool_decide (0 < length (Plugins cfg))%nat && negb (InitScriptCreated cfg));
    [| discriminate].
  destruct (pluginsCreate (UserName cfg) (CustomScript cfg) (Plugins cfg)) as [s [e'|]];
    [| discriminate].
  intros [= _ ->]. exists s. reflexivity.
Qed.

Lemma deriveConfigPath_err cfg c' e :
  deriveConfigPath Join w cfg = (c', Some e) ->
  ConfigPath cfg = "" /\ TempFile w (TempDir w) "ec2config" = inr e.
Proof.
  unfold deriveConfigPath, andThen, when, assign, isEmpty, tempPath.
  case_bool_decide as Hp; [| discriminate].
  destruct (TempFile w (TempDir w) "ec2config") as [n|e']; [discriminate |].
  intros [= _ ->]. split; [exact Hp | reflexivity].
Qed.

Lemma deriveKey_err cfg c' e :
  deriveKey Join w cfg = (c', Some e) ->
  KeyPath cfg = "" /\ TempFile w (TempDir w) "ec2.key" = inr e.
Proof.
  unfold deriveKey, andThen, when, assign, isEmpty, tempPath.
  destruct (bool_decide (KeyName cfg = "")); read_fields;
    (case_bool_decide as Hp; [| discriminate]);
    (destruct (TempFile w (TempDir w) "ec2.key") as [n|e']; [discriminate |]);
    intros [= _ ->]; (split; [exact Hp | reflexivity]).
Qed.

Lemma deriveInstanceProfile_err cfg c' e :
  deriveInstanceProfile w cfg = (c', Some e) ->
  InstanceProfileFilePath cfg <> ""
  /\ Stat w (InstanceProfileFilePath cfg) <> None
  /\ e = ErrInstanceProfile (InstanceProfileFilePath cfg).
Proof.
  unfold deriveInstanceProfile, when, andThen, check, assign, isEmpty.
  case_bool_decide as Hp; cbn [negb]; [discriminate |].
  case_bool_decide as Hs; [| discriminate].
  intros [= _ <-]. split; [exact Hp |]. split; [exact Hs | reflexivity].
Qed.

Lemma error_cases cfg e :
  snd (VASD cfg) = Some e ->
  ~ HeadOK RegionToAiport cfg
  \/ (exists s,
        pluginsCreate (UserName cfg) (CustomScript cfg) (Plugins cfg) = (s, Some e))
  \/ ~ TailOK cfg
  \/ (ConfigPath cfg = "" /\ TempFile w (TempDir w) "ec2config" = inr e)
  \/ (KeyPath cfg = "" /\ TempFile w (TempDir w) "ec2.key" = inr e)
  \/ (InstanceProfileFilePath cfg <> ""
      /\ Stat w (InstanceProfileFilePath cfg) <> None
      /\ e = ErrInstanceProfile (InstanceProfileFilePath cfg)).
Proof.
  unfold ValidateAndSetDefaults. unfold andThen at 1.
  destruct (validateHead RegionToAiport cfg) as [c1 [e1|]] eqn:E1.
  { intros _. left. intros Hok. rewrite (validateHead_ok _ _ Hok) in E1. discriminate. }
  apply validateHead_inv in E1. destruct E1 as [-> _].
  unfold andThen at 1.
  destruct (createInitScript pluginsCreate cfg) as [c2 [e2|]] eqn:E2.
  { cbn [snd]. intros [= ->]. right. left. exact (createInitScript_err _ _ _ E2). }
  apply createInitScript_inv in E2. destruct E2 as (s & b & -> & _).
  unfold andThen at 1.
  destruct (validateTail (set_InitScriptCreated b (set_InitScript s cfg)))
    as [c3 [e3|]] eqn:E3.
  { intros _. right. right. left. intros Hok.
    rewrite validateTail_ok in E3 by exact Hok. discriminate. }
  apply validateTail_inv in E3. destruct E3 as [-> _].
  unfold andThen at 1.
  destruct (deriveNames_spec RegionToAiport w
              (set_InitScriptCreated b (set_InitScript s cfg)))
    as (tag & name & Hn & _).
  rewrite Hn. clear Hn.
  unfold andThen at 1.
  match goal with |- context [deriveConfigPath _ _ ?c] =>
    destruct (deriveConfigPath Join w c) as [c5 [e5|]] eqn:E5 end.
  { cbn [snd]. intros [= ->]. do 3 right. left. exact (deriveConfigPath_err _ _ _ E5). }
  apply deriveConfigPath_inv in E5. destruct E5 as (p & -> & _).
  unfold andThen at 1.
  match goal with |- context [deriveLogOutput _ _ ?c] =>
    destruct (deriveLogOutput_spec Join w c) as (l & Hl & _) end.
  rewrite Hl. clear Hl.
  unfold andThen at 1.
  match goal with |- context [deriveKey _ _ ?c] =>
    destruct (deriveKey Join w c) as [c7 [e7|]] eqn:E7 end.
  { cbn [snd]. intros [= ->]. do 4 right. left. exact (deriveKey_err _ _ _ E7). }
  apply deriveKey_inv in E7. destruct E7 as (kn & kp & -> & _).
  match goal with |- context [deriveInstanceProfile _ ?c] =>
    destruct (deriveInstanceProfile w c) as [c8 [e8|]] eqn:E8 end.
  - cbn [snd]. intros [= ->]. do 5 right. exact (deriveInstanceProfile_err _ _ _ E8).
  - discriminate.
Qed.

(** X20: what can make [ValidateAndSetDefaults] fail.  A call returns an
    error only when one of the first five checks fails on the configuration
    given, or the plugin renderer returns the error, or the instance type is
    empty or the cluster size below one, or the temporary file for an empty
    configuration path or an empty key path cannot be made (the error is that
    of [ioutil.TempFile]), or the instance profile file that is named cannot
    be found.  In every other case the call returns nil. *)
Theorem failure_causes cfg e :
  snd (ValidateAndSetDefaults RegionToAiport pluginsCreate Join w cfg) = Some e ->
  ~ (LogOutputs cfg <> [] /\ AWSRegion cfg <> ""
     /\ RegionToAiport !! AWSRegion cfg <> None /\ UserName cfg <> "" /\ ImageID cfg <> "")
  \/ (exists s,
        pluginsCreate (UserName cfg) (CustomScript cfg) (Plugins cfg) = (s, Some e))
  \/ ~ (InstanceType cfg <> "" /\ 1 <= ClusterSize cfg)
  \/ (ConfigPath cfg = "" /\ TempFile w (TempDir w) "ec2config" = inr e)
  \/ (KeyPath cfg = "" /\ TempFile w (TempDir w) "ec2.key" = inr e)
  \/ (InstanceProfileFilePath cfg <> ""
      /\ Stat w (InstanceProfileFilePath cfg) <> None
      /\ e = ErrInstanceProfile (InstanceProfileFilePath cfg)).
Proof. exact (error_cases cfg e). Qed.

(** ** The default configuration *)

(** X21: the configuration of [NewDefault] passes the six checks wherever
    the region table knows us-west-2, and it names no instance profile file:
    a call on it can only fail with the error of the plugin renderer or of
    one of the two temporary files. *)
Theorem NewDefault_passes_the_checks e :
  RegionToAiport !! "us-west-2" <> None ->
  snd (ValidateAndSetDefaults RegionToAiport pluginsCreate Join w NewDefault) = Some e ->
  (exists s, pluginsCreate "ec2-user" ""
               ["update-amazon-linux-2"; "install-start-docker-amazon-linux-2"]
             = (s, Some e))
  \/ TempFile w (TempDir w) "ec2config" = inr e
  \/ TempFile w (TempDir w) "ec2.key" = inr e.
Proof.
  intros Hr He.
  destruct (error_cases NewDefault e He)
    as [H | [H | [H | [[_ H] | [[_ H] | [H _]]]]]].
  - exfalso. apply H. repeat split; try discriminate. exact Hr.
  - left. exact H.
  - exfalso. apply H. split; [discriminate | cbn; lia].
  - right. left. exact H.
  - right. right. exact H.
  - exfalso. apply H. reflexivity.
Qed.

End Finalize.

(** ** genTag and randString *)

Lemma append_inj_length (a a' b b' : string) :
  String.length a = String.length a' -> a ++ b = a' ++ b' -> a = a' /\ b = b'.
Proof.
  revert a'. induction a as [|x a IH]; intros [|x' a'] Hl H; try discriminate Hl.
  - split; [reflexivity | exact H].
  - change (String x (a ++ b) = String x' (a' ++ b')) in H.
    injection H as -> H. injection Hl as Hl.
    destruct (IH a' Hl H) as [-> ->]. split; reflexivity.
Qed.

(** The two digits of [%02d] read back as the number. *)
Lemma pad2_read z : 0 <= z <= 99 -> Strconv.ParseInt (Fmt.pad2 z) = Some z.
Proof.
  intros Hz.
  pose (P := fun k : nat =>
    match Strconv.ParseInt (Fmt.pad2 (Z.of_nat k)) with
    | Some v => v =? Z.of_nat k
    | None => false
    end).
  assert (H : P (Z.to_nat z) = true).
  { apply (below_checked P 100); [vm_compute; reflexivity | lia]. }
  unfold P in H. rewrite Z2Nat.id in H by lia.
  destruct (Strconv.ParseInt (Fmt.pad2 z)) as [v|]; [| discriminate].
  apply Z.eqb_eq in H. rewrite H. reflexivity.
Qed.

Lemma itoa_read z : 0 <= z <= 99 -> Strconv.ParseInt (Fmt.itoa z) = Some z.
Proof.
  intros Hz.
  pose (P := fun k : nat =>
    match Strconv.ParseInt (Fmt.itoa (Z.of_nat k)) with
    | Some v => v =? Z.of_nat k
    | None => false
    end).
  assert (H : P (Z.to_nat z) = true).
  { apply (below_checked P 100); [vm_compute; reflexivity | lia]. }
  unfold P in H. rewrite Z2Nat.id in H by lia.
  destruct (Strconv.ParseInt (Fmt.itoa z)) as [v|]; [| discriminate].
  apply Z.eqb_eq in H. rewrite H. reflexivity.
Qed.

(** X22: the tag names the hour, and nothing finer.  For clock readings
    of the years 2010 to 2099, two readings give the same tag exactly when
    they agree in year, month, day and hour: tags made within one hour are
    equal, tags made in different hours differ. *)
Theorem genTag_names_the_hour t1 t2 :
  inCalendar t1 -> inCalendar t2 ->
  (genTag t1 = genTag t2
   <-> Year t1 = Year t2 /\ Month t1 = Month t2 /\ Day t1 = Day t2 /\ Hour t1 = Hour t2).
Proof.
  intros (Hy1 & Hm1 & Hd1 & Hh1) (Hy2 & Hm2 & Hd2 & Hh2). split.
  - unfold genTag. intros H.
    change ("ec2-" ++ ?x) with (String "e" (String "c" (String "2" (String "-" x)))) in H.
    injection H as H.
    destruct (itoa_two_digits (Year t1 - 2000)) as [L1 _]; [lia |].
    destruct (itoa_two_digits (Year t2 - 2000)) as [L1' _]; [lia |].
    destruct (pad2_two_digits (Month t1)) as [L2 _]; [lia |].
    destruct (pad2_two_digits (Month t2)) as [L2' _]; [lia |].
    destruct (pad2_two_digits (Day t1)) as [L3 _]; [lia |].
    destruct (pad2_two_digits (Day t2)) as [L3' _]; [lia |].
    apply append_inj_length in H; [| congruence]. destruct H as [Hy H].
    apply append_inj_length in H; [| congruence]. destruct H as [Hm H].
    apply append_inj_length in H; [| congruence]. destruct H as [Hd Hh].
    apply (f_equal Strconv.ParseInt) in Hy, Hm, Hd, Hh.
    rewrite !itoa_read in Hy by lia. rewrite !pad2_read in Hm, Hd, Hh by lia.
    injection Hy as Hy. injection Hm as Hm. injection Hd as Hd. injection Hh as Hh.
    repeat split; lia.
  - intros (Hy & Hm & Hd & Hh). unfold genTag. rewrite Hy, Hm, Hd, Hh. reflexivity.
Qed.

(** X23: [randString n] is [n] bytes long, and each byte is a digit or
    a lower-case letter, whatever numbers are drawn. *)
Theorem randString_spec w n :
  String.length (randString w n) = n /\ allBytes isLowerAlnum (randString w n) = true.
Proof. split; [apply randString_length | apply randString_bytes]. Qed.

(** ** Load and Sync *)

Section Persist.

Variable Marshal : Config -> string + error.
Variable Unmarshal : string -> Config + error.

(** X24: [Load] succeeds exactly when the file is there, its content is
    read as a configuration, and [filepath.Abs] of the path returns no error.
    The configuration it returns is the one read, with the absolute form of
    the path it was loaded from as [ConfigPath] (the path stored in the file
    is not used) and an empty instance map in place of a nil one; no field is
    checked. *)
Theorem Load_succeeds_iff w (fs : gmap string string) p c' :
  Load Unmarshal w fs p = inl c'
  <-> exists d c q,
        fs !! p = Some d /\ Unmarshal d = inl c /\ Abs w p = (q, None)
        /\ c' = set_ConfigPath q (set_Instances (Some (default ∅ (Instances c))) c).
Proof.
  split.
  - intros H. unfold Load in H.
    destruct (fs !! p) as [d|] eqn:Ef; [| discriminate].
    destruct (Unmarshal d) as [c|e] eqn:Eu; [| discriminate].
    destruct (Abs w p) as [q [e|]] eqn:Ea; [discriminate |].
    exists d, c, q. split; [reflexivity |]. split; [exact Eu |]. split; [reflexivity |].
    pose proof (Load_stored Unmarshal w fs p d c q Ef Eu Ea) as Hl.
    unfold Load in Hl. rewrite Ef, Eu, Ea in Hl. rewrite Hl in H.
    injection H as <-. reflexivity.
  - intros (d & c & q & Hf & Hu & Ha & ->).
    exact (Load_stored Unmarshal w fs p d c q Hf Hu Ha).
Qed.

(** X25: what [Sync] writes.  Whatever it returns, it changes no field of
    the configuration but [ConfigPath] and [UpdatedAt] and no file but the one
    at the configuration path; an absolute configuration path is kept.  When
    it returns an error, the file at the configuration path is as it was, or,
    if [ioutil.WriteFile] failed after it had opened the file, holds the part
    of the document that was written.  When it returns nil, the configuration
    is stamped with the current time and the file at its path holds the
    document marshalled from the configuration as stamped. *)
Theorem Sync_writes w (fs : gmap string string) cfg cfg' fs' err :
  Sync Marshal w fs cfg = (cfg', fs', err) ->
  cfg' = set_UpdatedAt (UpdatedAt cfg') (set_ConfigPath (ConfigPath cfg') cfg)
  /\ (forall p, p <> ConfigPath cfg' -> fs' !! p = fs !! p)
  /\ (IsAbs (ConfigPath cfg) = true -> ConfigPath cfg' = ConfigPath cfg)
  /\ (err <> None ->
      fs' = fs
      \/ exists d failure n,
           Marshal cfg' = inl d
           /\ WriteFile w (ConfigPath cfg') = Some failure
           /\ written failure = Some n
           /\ fs' = <[ConfigPath cfg' := substring 0 n d]> fs)
  /\ (err = None ->
      UpdatedAt cfg' = Now w
      /\ exists d, Marshal cfg' = inl d /\ fs' !! ConfigPath cfg' = Some d).
Proof.
  assert (Hwrite : forall c d r,
            Marshal c = inl d ->
            (match WriteFile w (ConfigPath c) with
             | Some failure =>
                 (c,
                  match written failure with
                  | None => fs
                  | Some n => <[ConfigPath c := substring 0 n d]> fs
                  end,
                  Some (writeErr failure))
             | None => (c, <[ConfigPath c := d]> fs, None)
             end) = r ->
            fst (fst r) = c
            /\ (forall p, p <> ConfigPath c -> snd (fst r) !! p = fs !! p)
            /\ (snd r <> None ->
                snd (fst r) = fs
                \/ exists d failure n,
                     Marshal c = inl d
                     /\ WriteFile w (ConfigPath c) = Some failure
                     /\ written failure = Some n
                     /\ snd (fst r) = <[ConfigPath c := substring 0 n d]> fs)
            /\ (snd r = None ->
                exists d, Marshal c = inl d /\ snd (fst r) !! ConfigPath c = Some d)).
  { intros c d r Hm <-.
    destruct (WriteFile w (ConfigPath c)) as [failure|] eqn:Ew; cbn [fst snd].
    - split; [reflexivity |].
      destruct (written failure) as [n|] eqn:En.
      + split; [intros p Hp; apply lookup_insert_ne; congruence |].
        split; [| discriminate].
        intros _. right. exists d, failure, n. repeat split; assumption.
      + split; [reflexivity |]. split; [intros _; left; reflexivity | discriminate].
    - split; [reflexivity |].
      split; [intros p Hp; apply lookup_insert_ne; congruence |].
      split; [intros H; contradiction |].
      intros _. exists d. split; [exact Hm | apply lookup_insert_eq]. }
  unfold Sync.
  destruct (IsAbs (ConfigPath cfg)) eqn:Eabs; cbn [negb].
  - destruct (Marshal (set_UpdatedAt (Now w) cfg)) as [d|e] eqn:Em.
    + intros Hr.
      destruct (Hwrite _ d _ Em Hr) as (Hc & Hf & He & Hok).
      cbn [fst snd] in Hc, Hf, He, Hok. subst cfg'. read_fields.
      split; [destruct cfg; reflexivity |]. split; [exact Hf |].
      split; [reflexivity |]. split; [exact He |].
      intros Hn. split; [reflexivity | exact (Hok Hn)].
    + intros [= <- <- <-]; read_fields.
      split; [destruct cfg; reflexivity |]. split; [reflexivity |].
      split; [reflexivity |]. split; [intros _; left; reflexivity | discriminate].
  - destruct (Abs w (ConfigPath cfg)) as [q [e|]] eqn:Ea.
    + intros [= <- <- <-]; read_fields.
      split; [destruct cfg; reflexivity |]. split; [reflexivity |].
      split; [discriminate |]. split; [intros _; left; reflexivity | discriminate].
    + destruct (Marshal (set_UpdatedAt (Now w) (set_ConfigPath q cfg))) as [d|e] eqn:Em.
      * intros Hr.
        destruct (Hwrite _ d _ Em Hr) as (Hc & Hf & He & Hok).
        cbn [fst snd] in Hc, Hf, He, Hok. subst cfg'. read_fields.
        split; [reflexivity |]. split; [exact Hf |].
        split; [discriminate |]. split; [exact He |].
        intros Hn. split; [reflexivity | exact (Hok Hn)].
      * intros [= <- <- <-]; read_fields.
        split; [reflexivity |]. split; [reflexivity |].
        split; [discriminate |]. split; [intros _; left; reflexivity | discriminate].
Qed.

End Persist.

(** ** The theorems on sample runs *)

Lemma sampleHead : HeadOK sampleRegions NewDefault.
Proof. repeat split; discriminate. Qed.

(** X14: the hypothesis is met by [sampleFinal], called again with a
    renderer that would fail. *)
Lemma built_script_is_kept_witness :
  InitScriptCreated sampleFinal = true
  /\ InitScript (fst (ValidateAndSetDefaults sampleRegions failingPlugins sampleJoin
                        sampleWorld sampleFinal))
     = InitScript sampleFinal
  /\ InitScriptCreated (fst (ValidateAndSetDefaults sampleRegions failingPlugins sampleJoin
                               sampleWorld sampleFinal))
     = true.
Proof.
  assert (H : InitScriptCreated sampleFinal = true) by (vm_compute; reflexivity).
  split; [exact H |].
  exact (built_script_is_kept sampleRegions failingPlugins sampleJoin sampleWorld
           sampleFinal H).
Defined.

(** The default configuration with a script of the user's in the field. *)
Definition withScript : Config := set_InitScript "echo ready" NewDefault.

(** X15: the hypotheses are met by [withScript] in the sample world. *)
Lemma init_script_rendered_witness :
  HeadOK sampleRegions withScript
  /\ Plugins withScript <> []
  /\ InitScriptCreated withScript = false
  /\ InitScript (fst (ValidateAndSetDefaults sampleRegions samplePlugins sampleJoin
                        sampleWorld withScript))
     = ("#!/usr/bin/env bash" ++ String "010" "" ++ "")
         ++ String "010" "" ++ InitScript withScript
  /\ InitScriptCreated (fst (ValidateAndSetDefaults sampleRegions samplePlugins sampleJoin
                               sampleWorld withScript))
     = true.
Proof.
  assert (H1 : HeadOK sampleRegions withScript) by exact sampleHead.
  assert (H2 : Plugins withScript <> []) by discriminate.
  split; [exact H1 |]. split; [exact H2 |]. split; [reflexivity |].
  exact (proj1 (init_script_rendered sampleRegions samplePlugins sampleJoin sampleWorld
                  withScript H1 H2 eq_refl)
           ("#!/usr/bin/env bash" ++ String "010" "" ++ "") eq_refl).
Defined.

(** X17: the hypothesis is met by the default configuration in the sample
    world. *)
Lemma success_postconditions_witness :
  ValidateAndSetDefaults sampleRegions samplePlugins sampleJoin sampleWorld NewDefault
  = (sampleFinal, None)
  /\ Tag sampleFinal <> "" /\ ClusterName sampleFinal <> "" /\ KeyName sampleFinal <> ""
  /\ In (LogOutputToUploadPath sampleFinal) (LogOutputs sampleFinal).
Proof.
  split; [exact sampleFinal_call |].
  pose proof (success_postconditions sampleRegions samplePlugins sampleJoin sampleWorld
                NewDefault sampleFinal sampleFinal_call)
    as (_ & _ & Ht & Hn & Hk & _ & _ & Hin & _).
  split; [exact Ht |]. split; [exact Hn |]. split; [exact Hk | exact Hin].
Defined.

(** X18: the hypothesis is met by the default configuration in the sample
    world. *)
Lemma paths_and_key_name_witness :
  ValidateAndSetDefaults sampleRegions samplePlugins sampleJoin sampleWorld NewDefault
  = (sampleFinal, None)
  /\ (ConfigPath NewDefault = "" ->
      exists name,
        TempFile sampleWorld (TempDir sampleWorld) "ec2config" = inl name
        /\ ConfigPath sampleFinal = fst (Abs sampleWorld name))
  /\ (KeyName NewDefault = "" -> KeyName sampleFinal = ClusterName sampleFinal).
Proof.
  split; [exact sampleFinal_call |].
  pose proof (paths_and_key_name sampleRegions samplePlugins sampleJoin sampleWorld
                NewDefault sampleFinal sampleFinal_call)
    as (_ & Hc & _ & _ & _ & Hk).
  split; [exact Hc | exact Hk].
Defined.

(** The sample world with a full disk: no temporary file can be made. *)
Definition fullDisk : World :=
  {| Now := Now sampleWorld;
     Rand := Rand sampleWorld;
     TempDir := "/tmp";
     TempFile := fun _ _ => inr (ErrLib "no space left on device");
     Abs := Abs sampleWorld;
     Stat := Stat sampleWorld;
     WriteFile := WriteFile sampleWorld |}.

(** X19: the hypotheses are met by [noPlugins] in [fullDisk]. *)
Lemma temp_file_failure_witness :
  HeadOK sampleRegions noPlugins
  /\ (Plugins noPlugins = [] \/ InitScriptCreated noPlugins = true)
  /\ TailOK noPlugins
  /\ ConfigPath noPlugins = ""
  /\ TempFile fullDisk (TempDir fullDisk) "ec2config"
     = inr (ErrLib "no space left on device")
  /\ exists tag name,
       ValidateAndSetDefaults sampleRegions samplePlugins sampleJoin fullDisk noPlugins
       = (set_ClusterName name (set_Tag tag noPlugins),
          Some (ErrLib "no space left on device"))
       /\ tag <> "" /\ name <> ""
       /\ (Tag noPlugins = "" -> tag = genTag (Now fullDisk))
       /\ (Tag noPlugins <> "" -> tag = Tag noPlugins)
       /\ (ClusterName noPlugins <> "" -> name = ClusterName noPlugins)
       /\ (ClusterName noPlugins = "" ->
           name = tag ++ "-" ++ ToLower (default "" (sampleRegions !! AWSRegion noPlugins))
                      ++ "-" ++ AWSRegion noPlugins ++ "-" ++ randString fullDisk 5).
Proof.
  assert (H1 : HeadOK sampleRegions noPlugins) by exact sampleHead.
  assert (H2 : Plugins noPlugins = [] \/ InitScriptCreated noPlugins = true)
    by (left; reflexivity).
  assert (H3 : TailOK noPlugins) by (split; [discriminate | cbn; lia]).
  split; [exact H1 |]. split; [exact H2 |]. split; [exact H3 |].
  split; [reflexivity |]. split; [reflexivity |].
  exact (temp_file_failure sampleRegions samplePlugins sampleJoin fullDisk noPlugins
           (ErrLib "no space left on device") H1 H2 H3 eq_refl eq_refl).
Defined.

(** X20: the hypothesis is met by [noInstanceType], which fails the fifth
    check. *)
Lemma failure_causes_witness :
  snd (ValidateAndSetDefaults sampleRegions samplePlugins sampleJoin sampleWorld
         noInstanceType)
  = Some ErrEmptyInstanceType
  /\ (~ (LogOutputs noInstanceType <> [] /\ AWSRegion noInstanceType <> ""
         /\ sampleRegions !! AWSRegion noInstanceType <> None
         /\ UserName noInstanceType <> "" /\ ImageID noInstanceType <> "")
      \/ (exists s,
            samplePlugins (UserName noInstanceType) (CustomScript noInstanceType)
              (Plugins noInstanceType)
            = (s, Some ErrEmptyInstanceType))
      \/ ~ (InstanceType noInstanceType <> "" /\ 1 <= ClusterSize noInstanceType)
      \/ (ConfigPath noInstanceType = ""
          /\ TempFile sampleWorld (TempDir sampleWorld) "ec2config"
             = inr ErrEmptyInstanceType)
      \/ (KeyPath noInstanceType = ""
          /\ TempFile sampleWorld (TempDir sampleWorld) "ec2.key"
             = inr ErrEmptyInstanceType)
      \/ (InstanceProfileFilePath noInstanceType <> ""
          /\ Stat sampleWorld (InstanceProfileFilePath noInstanceType) <> None
          /\ ErrEmptyInstanceType
             = ErrInstanceProfile (InstanceProfileFilePath noInstanceType))).
Proof.
  assert (H : snd (ValidateAndSetDefaults sampleRegions samplePlugins sampleJoin
                     sampleWorld noInstanceType)
              = Some ErrEmptyInstanceType) by (vm_compute; reflexivity).
  split; [exact H |].
  exact (failure_causes sampleRegions samplePlugins sampleJoin sampleWorld noInstanceType
           ErrEmptyInstanceType H).
Defined.

(** X21: the hypotheses are met by the sample region table and a
    renderer that fails. *)
Lemma NewDefault_passes_the_checks_witness :
  sampleRegions !! "us-west-2" <> None
  /\ snd (ValidateAndSetDefaults sampleRegions failingPlugins sampleJoin sampleWorld
            NewDefault)
     = Some (ErrLib "plugin not found")
  /\ ((exists s, failingPlugins "ec2-user" ""
                   ["update-amazon-linux-2"; "install-start-docker-amazon-linux-2"]
                 = (s, Some (ErrLib "plugin not found")))
      \/ TempFile sampleWorld (TempDir sampleWorld) "ec2config"
         = inr (ErrLib "plugin not found")
      \/ TempFile sampleWorld (TempDir sampleWorld) "ec2.key"
         = inr (ErrLib "plugin not found")).
Proof.
  assert (H1 : sampleRegions !! "us-west-2" <> None) by (vm_compute; discriminate).
  assert (H2 : snd (ValidateAndSetDefaults sampleRegions failingPlugins sampleJoin
                      sampleWorld NewDefault)
               = Some (ErrLib "plugin not found")) by (vm_compute; reflexivity).
  split; [exact H1 |]. split; [exact H2 |].
  exact (NewDefault_passes_the_checks sampleRegions failingPlugins sampleJoin sampleWorld
           (ErrLib "plugin not found") H1 H2).
Defined.

(** The clock of the sample world, 55 minutes later in the same hour. *)
Definition laterInTheHour : Time :=
  {| Year := 2019; Month := 8; Day := 7; Hour := 15; Minute := 59; Second := 5;
     Nanosecond := 0 |}.

(** X22: the hypotheses are met by the clock of the sample world and
    [laterInTheHour]. *)
Lemma genTag_names_the_hour_witness :
  inCalendar (Now sampleWorld) /\ inCalendar laterInTheHour
  /\ (genTag (Now sampleWorld) = genTag laterInTheHour
      <-> Year (Now sampleWorld) = Year laterInTheHour
          /\ Month (Now sampleWorld) = Month laterInTheHour
          /\ Day (Now sampleWorld) = Day laterInTheHour
          /\ Hour (Now sampleWorld) = Hour laterInTheHour).
Proof.
  assert (H1 : inCalendar (Now sampleWorld)) by (unfold inCalendar; cbn; lia).
  assert (H2 : inCalendar laterInTheHour) by (unfold inCalendar; cbn; lia).
  split; [exact H1 |]. split; [exact H2 |].
  exact (genTag_names_the_hour (Now sampleWorld) laterInTheHour H1 H2).
Defined.

(** X25: the hypothesis is met by [relativePath], synced in [homeWorld]. *)
Lemma Sync_writes_witness :
  Sync (fst (oneDocument relativePathSynced)) homeWorld ∅ relativePath
  = (relativePathSynced, {[ "/home/tester/test.yaml" := "config" ]}, None)
  /\ (forall p, p <> ConfigPath relativePathSynced ->
        ({[ "/home/tester/test.yaml" := "config" ]} : gmap string string) !! p
        = (∅ : gmap string string) !! p)
  /\ UpdatedAt relativePathSynced = Now homeWorld.
Proof.
  assert (Hs : Sync (fst (oneDocument relativePathSynced)) homeWorld ∅ relativePath
               = (relativePathSynced, {[ "/home/tester/test.yaml" := "config" ]}, None))
    by reflexivity.
  split; [exact Hs |].
  pose proof (Sync_writes (fst (oneDocument relativePathSynced)) homeWorld ∅ relativePath
                relativePathSynced {[ "/home/tester/test.yaml" := "config" ]} None Hs)
    as (_ & Hf & _ & _ & Hok).
  split; [exact Hf | exact (proj1 (Hok eq_refl))].
Defined.

End Ec2configMore.
